(** * GenSpark career advisor: skill matching, profile cleaning, plan repair

    A shallow embedding of [functions/utils.js] and of the request handling
    code of the Cloud Function (the ranking, the learning-plan parser and the
    error classification of [/api/recommend]), with the properties the
    specification states about them.

    Conventions of the embedding.
    - A JavaScript string is a [string]: a sequence of code units, each an
      [ascii] read as a code unit in the range 0..255 (Latin-1), with the
      white space and the letter cases of that range.
    - Plain-data objects used as dictionaries ([skillAliases], the skill
      vectors, [skillFrequency]) are [gmap string _], the map of their own
      properties.  A read of a key that is no own property goes on to
      [Object.prototype]: it finds a function or an object under the names
      of [Canon.objectPrototypeNames] and [undefined] under any other name;
      an assignment of a number to [__proto__] is ignored.
    - The arithmetic of the similarity engine is exact ([R]), with [None]
      for the [NaN] that arithmetic on an inherited function or object
      gives; [Math.round x] is [floor (x + 1/2)].  The module [Doubles] has
      [cosineSimilarity] and [calculateFitScore] once more on binary64
      numbers, for what depends on overflow.
    - A function that can raise returns an [option]: [None] is the
      [TypeError].
    - A [null] or [undefined] argument of the array-taking functions is
      [None].
    - The alias table [skill_aliases.json] and the catalog [roles.json] are
      parameters. *)

From Stdlib Require Import ZArith QArith Reals Lra Lia Bool List Ascii String.
From Stdlib Require Import Permutation Sorted.
From stdpp Require Import base option list gmap sets strings.
From Stdlib Require Import Qround.
From Stdlib Require Lqa.
From Stdlib Require Floats Uint63.
From stdpp Require Import pretty sorting.
Import ListNotations.

Local Open Scope string_scope.
Local Open Scope list_scope.
Set Warnings "-register-all".

(** ** Strings of the runtime *)

Module JsString.

Definition chars (s : string) : list ascii := list_ascii_of_string s.
Definition str (l : list ascii) : string := string_of_list_ascii l.

Definition code (c : ascii) : N := N_of_ascii c.

Definition in_range (lo hi : N) (c : ascii) : bool :=
  (N.leb lo (code c) && N.leb (code c) hi)%bool.

(** [\s] of a regular expression and the white space of [trim]:
    TAB, LF, VT, FF, CR, SPACE and NBSP. *)
Definition isSpace (c : ascii) : bool :=
  (in_range 9 13 c || N.eqb (code c) 32 || N.eqb (code c) 160)%bool.

Definition isUpper (c : ascii) : bool := in_range 65 90 c.
Definition isLower (c : ascii) : bool := in_range 97 122 c.
Definition isDigit (c : ascii) : bool := in_range 48 57 c.

(** [\w] is [A-Za-z0-9_]. *)
Definition isWord (c : ascii) : bool :=
  (isUpper c || isLower c || isDigit c || N.eqb (code c) 95)%bool.

(** Upper-case letters of Latin-1 outside ASCII: U+00C0..U+00DE but the
    multiplication sign U+00D7. *)
Definition isUpperLatin1 (c : ascii) : bool :=
  (in_range 192 222 c && negb (N.eqb (code c) 215))%bool.

Definition lowerChar (c : ascii) : ascii :=
  if (isUpper c || isUpperLatin1 c)%bool then ascii_of_N (code c + 32) else c.

Definition toLowerCase (s : string) : string := str (map lowerChar (chars s)).

Fixpoint dropSpaces (l : list ascii) : list ascii :=
  match l with
  | c :: r => if isSpace c then dropSpaces r else l
  | [] => []
  end.

Definition trimChars (l : list ascii) : list ascii :=
  rev (dropSpaces (rev (dropSpaces l))).

Definition trim (s : string) : string := str (trimChars (chars s)).

Fixpoint startsWith (p l : list ascii) : bool :=
  match p, l with
  | [], _ => true
  | a :: p', b :: l' => (Ascii.eqb a b && startsWith p' l')%bool
  | _ :: _, [] => false
  end.

(** Index of the first occurrence of [p] in [l]. *)
Fixpoint indexOfChars (p l : list ascii) : option nat :=
  if startsWith p l then Some 0%nat
  else match l with
       | [] => None
       | _ :: r => option_map S (indexOfChars p r)
       end.

(** Index of the last occurrence of [p] in [l]. *)
Fixpoint lastIndexOfChars (p l : list ascii) : option nat :=
  match l with
  | [] => if startsWith p [] then Some 0%nat else None
  | _ :: r =>
      match lastIndexOfChars p r with
      | Some i => Some (S i)
      | None => if startsWith p l then Some 0%nat else None
      end
  end.

Definition indexOf (s p : string) : option nat := indexOfChars (chars p) (chars s).
Definition lastIndexOf (s p : string) : option nat := lastIndexOfChars (chars p) (chars s).

Definition includes (s p : string) : bool :=
  match indexOf s p with Some _ => true | None => false end.

(** [s.substring(i, j)] for [0 <= i <= j]. *)
Definition substring (s : string) (i j : nat) : string :=
  str (firstn (j - i) (skipn i (chars s))).

Definition length (s : string) : nat := List.length (chars s).

(** The double quote, and a text between double quotes. *)
Definition dquote : ascii := ascii_of_N 34.
Definition quoted (s : string) : string := String dquote (s ++ String dquote EmptyString).

End JsString.

(** ** Skill canonicaliser ([canonicalizeSkillName], [sanitizeSkill]) *)

Module Canon.

Import JsString.

(** [[^\/\w\s-]]: the characters that [replace(..., '')] deletes are the
    ones outside this class. *)
Definition keptChar (c : ascii) : bool :=
  (N.eqb (code c) 47 || isWord c || isSpace c || N.eqb (code c) 45)%bool.

Definition stripChars (l : list ascii) : list ascii := List.filter keptChar l.

(** [replace(/\s+/g, ' ')]: every maximal run of white space becomes one
    space; [inRun] tells that the previous character was white space. *)
Fixpoint collapseFrom (inRun : bool) (l : list ascii) : list ascii :=
  match l with
  | [] => []
  | c :: r =>
      if isSpace c
      then (if inRun then collapseFrom true r else " "%char :: collapseFrom true r)
      else c :: collapseFrom false r
  end.

Definition collapseChars (l : list ascii) : list ascii := collapseFrom false l.

Definition cleanChars (l : list ascii) : list ascii :=
  collapseChars (stripChars (map lowerChar (trimChars l))).

(** [name.trim().toLowerCase().replace(...).replace(...)] *)
Definition clean (name : string) : string := str (cleanChars (chars name)).

(** What [canonicalizeSkillName] can return, and what an entry of the
    [skills] array of a normalised profile can be: a string, or one of the
    two objects that the alias table, a plain object, inherits under a
    cleaned name: the function [Object] (under [constructor]) and the object
    [Object.prototype] (under [__proto__]).  A cleaned name holds no
    upper-case letter, so that no other property of [Object.prototype] can be
    looked up. *)
Inductive Token :=
| Text (s : string)
| ObjectFunction
| ObjectPrototype.

#[export] Instance Token_eq_dec : EqDecision Token.
Proof. solve_decision. Defined.

#[export] Instance Token_countable : Countable Token.
Proof.
  refine (inj_countable'
            (fun t => match t with
                      | Text s => inl s
                      | ObjectFunction => inr true
                      | ObjectPrototype => inr false
                      end)
            (fun e => match e with
                      | inl s => Text s
                      | inr true => ObjectFunction
                      | inr false => ObjectPrototype
                      end) _).
  intros []; reflexivity.
Defined.

(** The names of the properties of [Object.prototype]; every plain object
    inherits a function or an object under each of them. *)
Definition objectPrototypeNames : list string :=
  ["constructor"; "__defineGetter__"; "__defineSetter__"; "hasOwnProperty";
   "__lookupGetter__"; "__lookupSetter__"; "isPrototypeOf"; "propertyIsEnumerable";
   "toString"; "valueOf"; "__proto__"; "toLocaleString"].

Definition inherited (key : string) : bool := existsb (String.eqb key) objectPrototypeNames.

(** [String(Object)], as the runtime of the Cloud Function prints it. *)
Definition objectFunctionText : string := "function Object() { [native code] }".

(** The property name that a token is when it is used as a key. *)
Definition toKey (t : Token) : string :=
  match t with
  | Text s => s
  | ObjectFunction => objectFunctionText
  | ObjectPrototype => "[object Object]"
  end.

(** [t.length > 0]: [Object.length] is 1 and [Object.prototype.length] is
    [undefined]. *)
Definition hasLength (t : Token) : bool :=
  match t with
  | Text s => (0 <? JsString.length s)%nat
  | ObjectFunction => true
  | ObjectPrototype => false
  end.

Section WithAliases.

(** The alias table of [skill_aliases.json]: raw spelling to canonical
    token, the own properties of the object. *)
Variable skillAliases : gmap string string.

(** [skillAliases[cleaned] || cleaned]: an empty alias is falsy; a name that
    is no own property is looked up in [Object.prototype]. *)
Definition lookupAlias (cleaned : string) : Token :=
  match skillAliases !! cleaned with
  | Some alias => if String.eqb alias EmptyString then Text cleaned else Text alias
  | None =>
      if String.eqb cleaned "constructor" then ObjectFunction
      else if String.eqb cleaned "__proto__" then ObjectPrototype
      else Text cleaned
  end.

Definition canonicalizeSkillName (name : Token) : Token :=
  match name with
  | Text s => lookupAlias (clean s)
  | _ => Text EmptyString
  end.

(** [None] is the [TypeError] of [substring] on a value that has no such
    method. *)
Definition sanitizeSkill (skill : Token) : option string :=
  match skill with
  | Text _ =>
      match canonicalizeSkillName skill with
      | Text canonical => Some (substring canonical 0 50)
      | _ => None
      end
  | _ => Some EmptyString
  end.

(** An alias table whose canonical tokens are no property names of
    [Object.prototype]. *)
Definition plainAliases : Prop :=
  forall key alias, skillAliases !! key = Some alias ->
    inherited (if String.eqb alias EmptyString then key else alias) = false.


End WithAliases.

End Canon.

(** ** Similarity engine *)

Module Similarity.

Import JsString Canon.

(** An entry of a role's [skills] array: [{ name, weight }]; [weight] may
    be absent. *)
Record RoleSkill := mkRoleSkill { name : string; weight : option R }.

(** A catalog entry of [roles.json]. *)
Record Role := mkRole {
  roleId : string;
  title : string;
  sector : string;
  skills : list RoleSkill
}.

(** [skill.weight || 1.0]: an absent weight and the weight 0 are falsy. *)
Definition weightOrDefault (skill : RoleSkill) : R :=
  match weight skill with
  | Some w => if Req_dec_T w 0 then 1%R else w
  | None => 1%R
  end.

(** A number of the arithmetic: a real, or [NaN]. *)
Definition num : Type := option R.
Definition NaN : num := None.

Definition add (x y : num) : num := a ← x; b ← y; Some (a + b)%R.
Definition mul (x y : num) : num := a ← x; b ← y; Some (a * b)%R.
Definition div (x y : num) : num := a ← x; b ← y; Some (a / b)%R.

(** [x === 0] *)
Definition isZero (x : num) : bool :=
  match x with
  | Some a => if Req_dec_T a 0 then true else false
  | None => false
  end.

(** [vector[key] || 0] in the arithmetic that follows: the own weight; for a
    name that the vector only inherits, a function or an object, which is
    truthy and [NaN] as a number; 0 otherwise. *)
Definition valueAt (vector : gmap string R) (key : string) : num :=
  match vector !! key with
  | Some v => Some v
  | None => if inherited key then NaN else Some 0%R
  end.

(** [vector[key] = v] for a number [v]: the setter of [__proto__] ignores
    it. *)
Definition assign (vector : gmap string R) (key : string) (v : R) : gmap string R :=
  if String.eqb key "__proto__" then vector else <[key := v]> vector.

(** No own key of the vector is a name of [Object.prototype]. *)
Definition plainKeys (vector : gmap string R) : Prop :=
  forall key, is_Some (vector !! key) -> inherited key = false.

(** [Math.round]: the nearest integer, halves upwards. *)
Definition Math_round (x : R) : Z := Int_part (x + / 2).

(** The loop body of [cosineSimilarity]: the accumulators are
    [(dotProduct, magnitudeA, magnitudeB)]. *)
Definition accumulate (vectorA vectorB : gmap string R)
    (acc : num * num * num) (key : string) : num * num * num :=
  let '(dotProduct, magnitudeA, magnitudeB) := acc in
  let valueA := valueAt vectorA key in
  let valueB := valueAt vectorB key in
  (add dotProduct (mul valueA valueB),
   add magnitudeA (mul valueA valueA),
   add magnitudeB (mul valueB valueB)).

Definition allKeys (vectorA vectorB : gmap string R) : list string :=
  elements (dom vectorA ∪ dom vectorB).

Definition sums (vectorA vectorB : gmap string R) : num * num * num :=
  foldl (accumulate vectorA vectorB) (Some 0%R, Some 0%R, Some 0%R) (allKeys vectorA vectorB).

Definition dotProduct (vectorA vectorB : gmap string R) : num :=
  fst (fst (sums vectorA vectorB)).
Definition magnitudeA (vectorA vectorB : gmap string R) : num :=
  sqrt <$> snd (fst (sums vectorA vectorB)).
Definition magnitudeB (vectorA vectorB : gmap string R) : num :=
  sqrt <$> snd (sums vectorA vectorB).

(** The outcome of [cosineSimilarity] keeps the divisor of the division it
    performs, so that the guard can be stated. *)
Inductive Outcome :=
| ZeroMagnitude
| Quotient (dividend divisor : num).

Definition cosineOutcome (vectorA vectorB : gmap string R) : Outcome :=
  if (isZero (magnitudeA vectorA vectorB) || isZero (magnitudeB vectorA vectorB))%bool
  then ZeroMagnitude
  else Quotient (dotProduct vectorA vectorB)
                (mul (magnitudeA vectorA vectorB) (magnitudeB vectorA vectorB)).

Definition outcomeValue (o : Outcome) : num :=
  match o with
  | ZeroMagnitude => Some 0%R
  | Quotient dividend divisor => div dividend divisor
  end.

Definition cosineSimilarity (vectorA vectorB : gmap string R) : num :=
  outcomeValue (cosineOutcome vectorA vectorB).

Section WithAliases.

Variable skillAliases : gmap string string.

Local Abbreviation canonicalizeSkillName := (Canon.canonicalizeSkillName skillAliases).

Definition normalizeSkills (skills : list Token) : gmap string R :=
  foldl (fun normalized skill =>
           let key := canonicalizeSkillName skill in
           if hasLength key then assign normalized (toKey key) 1%R
           else normalized)
        ∅ skills.

Definition roleVector (roleSkills : list RoleSkill) : gmap string R :=
  foldl (fun roleSkillsVector skill =>
           let canonical := canonicalizeSkillName (Text (name skill)) in
           assign roleSkillsVector (toKey canonical) (weightOrDefault skill))
        ∅ roleSkills.

(** The result is a whole number, or [NaN] ([None]). *)
Definition calculateFitScore
    (userSkills : option (list Token)) (roleSkills : option (list RoleSkill)) : option Z :=
  match userSkills, roleSkills with
  | Some us, Some rs =>
      if ((List.length us =? 0)%nat || (List.length rs =? 0)%nat)%bool then Some 0%Z
      else
        let normalizedUserSkills := normalizeSkills us in
        let roleSkillsVector := roleVector rs in
        let similarity := cosineSimilarity normalizedUserSkills roleSkillsVector in
        Math_round <$> mul similarity (Some 100%R)
  | _, _ => Some 0%Z
  end.

Definition calculateOverlapRatio
    (userSkills : option (list Token)) (roleSkills : option (list RoleSkill)) : R :=
  match userSkills, roleSkills with
  | Some us, Some rs =>
      if ((List.length us =? 0)%nat || (List.length rs =? 0)%nat)%bool then 0%R
      else
        let normalizedUserSkills := map canonicalizeSkillName us in
        let normalizedRoleSkills := map (fun s => canonicalizeSkillName (Text (name s))) rs in
        let overlap :=
          List.length (filter (fun skill => skill ∈ normalizedRoleSkills) normalizedUserSkills) in
        (INR overlap / INR (List.length normalizedRoleSkills))%R
  | _, _ => 0%R
  end.

Definition calculateGapSkills
    (userSkills : option (list Token)) (roleSkills : option (list RoleSkill)) : list Token :=
  match userSkills, roleSkills with
  | Some us, Some rs =>
      let normalizedUserSkills := map canonicalizeSkillName us in
      let normalizedRoleSkills := map (fun s => canonicalizeSkillName (Text (name s))) rs in
      filter (fun skill => skill ∉ normalizedUserSkills) normalizedRoleSkills
  | _, _ => []
  end.

Definition calculateOverlapSkills
    (userSkills : option (list Token)) (roleSkills : option (list RoleSkill)) : list Token :=
  match userSkills, roleSkills with
  | Some us, Some rs =>
      let normalizedUserSkills := map canonicalizeSkillName us in
      let normalizedRoleSkills := map (fun s => canonicalizeSkillName (Text (name s))) rs in
      filter (fun skill => skill ∈ normalizedRoleSkills) normalizedUserSkills
  | _, _ => []
  end.

Definition calculateInterestMatch
    (userInterests : option (list string)) (role : option Role) : R :=
  match userInterests, role with
  | Some interests, Some r =>
      let normalizedInterests := map (fun i => trim (toLowerCase i)) interests in
      let roleText := toLowerCase (sector r ++ " " ++ title r) in
      let hasMatch := existsb (fun interest => includes roleText interest) normalizedInterests in
      if hasMatch then 1%R else 0%R
  | _, _ => 0%R
  end.

Definition calculateEnhancedFitScore
    (userSkills : option (list Token)) (roleSkills : option (list RoleSkill))
    (userInterests : option (list string)) (role : option Role) : option Z :=
  let skillsScore :=
    mul (IZR <$> calculateFitScore userSkills roleSkills) (Some (6 / 10)%R) in
  let overlapScore := (calculateOverlapRatio userSkills roleSkills * 100 * (2 / 10))%R in
  let interestScore := (calculateInterestMatch userInterests role * 100 * (2 / 10))%R in
  Math_round <$> add (add skillsScore (Some overlapScore)) (Some interestScore).

End WithAliases.

End Similarity.

(** ** The fit score on binary64 numbers

    [Similarity] computes in exact arithmetic.  Overflow and rounding are
    properties of the doubles the program computes with; this module is
    [cosineSimilarity] and [calculateFitScore] once more, on binary64
    numbers, with the keys of an object in the order in which [Object.keys]
    lists them, which is the order of the sums. *)

Module Doubles.

Import JsString Canon.
Import PrimFloat SpecFloat FloatOps.

Record RoleSkill := mkRoleSkill { name : string; weight : option float }.

(** The own properties of a vector, in the order of [Object.keys]: the
    array indices in ascending order, then the other keys in the order of
    their creation. *)
Definition vector : Type := list (string * float).

Definition digitValue (c : ascii) : option Z :=
  let n := Z.of_N (N_of_ascii c) in
  if ((48 <=? n) && (n <=? 57))%Z then Some (n - 48)%Z else None.

Fixpoint decimal (digits : list ascii) (acc : Z) : option Z :=
  match digits with
  | [] => Some acc
  | c :: r => d ← digitValue c; decimal r (10 * acc + d)%Z
  end.

(** The array index that a key spells: a canonical decimal numeral below
    [2^32 - 1]. *)
Definition arrayIndex (key : string) : option Z :=
  match chars key with
  | [] => None
  | c :: r =>
      if (Ascii.eqb c "0" && negb (Nat.eqb (List.length r) 0))%bool then None
      else n ← decimal (c :: r) 0; if (n <=? 4294967294)%Z then Some n else None
  end.

Definition own (v : vector) (key : string) : option float :=
  snd <$> List.find (fun entry => String.eqb (fst entry) key) v.

Fixpoint update (v : vector) (key : string) (x : float) : vector :=
  match v with
  | [] => []
  | (k, y) :: r => if String.eqb k key then (k, x) :: r else (k, y) :: update r key x
  end.

(** A new array index goes before the first key that is no array index or
    a greater one. *)
Fixpoint insertIndex (v : vector) (index : Z) (key : string) (x : float) : vector :=
  match v with
  | [] => [(key, x)]
  | (k, y) :: r =>
      match arrayIndex k with
      | Some i => if (i <? index)%Z then (k, y) :: insertIndex r index key x
                  else (key, x) :: v
      | None => (key, x) :: v
      end
  end.

(** [vector[key] = x] for a number [x]. *)
Definition assign (v : vector) (key : string) (x : float) : vector :=
  if String.eqb key "__proto__" then v
  else match own v key with
       | Some _ => update v key x
       | None =>
           match arrayIndex key with
           | Some index => insertIndex v index key x
           | None => v ++ [(key, x)]
           end
       end.

(** A number is falsy when it is a zero or [NaN]. *)
Definition truthy (x : float) : bool := negb (PrimFloat.eqb x 0 || PrimFloat.is_nan x).

(** [vector[key] || 0] as a number: a name that the vector only inherits
    gives a function or an object, which is [NaN] in the products. *)
Definition valueAt (v : vector) (key : string) : float :=
  match own v key with
  | Some x => if truthy x then x else 0%float
  | None => if inherited key then PrimFloat.nan else 0%float
  end.

(** The keys of the [Set]: those of the first vector, then the new ones of
    the second. *)
Definition allKeys (vectorA vectorB : vector) : list string :=
  map fst vectorA
  ++ List.filter (fun key => negb (existsb (String.eqb key) (map fst vectorA)))
                 (map fst vectorB).

Definition accumulate (vectorA vectorB : vector)
    (acc : float * float * float) (key : string) : float * float * float :=
  let '(dotProduct, magnitudeA, magnitudeB) := acc in
  let valueA := valueAt vectorA key in
  let valueB := valueAt vectorB key in
  (PrimFloat.add dotProduct (PrimFloat.mul valueA valueB),
   PrimFloat.add magnitudeA (PrimFloat.mul valueA valueA),
   PrimFloat.add magnitudeB (PrimFloat.mul valueB valueB)).

Definition cosineSimilarity (vectorA vectorB : vector) : float :=
  let '(dotProduct, magnitudeA, magnitudeB) :=
    foldl (accumulate vectorA vectorB) (0, 0, 0)%float (allKeys vectorA vectorB) in
  let magnitudeA := PrimFloat.sqrt magnitudeA in
  let magnitudeB := PrimFloat.sqrt magnitudeB in
  if (PrimFloat.eqb magnitudeA 0 || PrimFloat.eqb magnitudeB 0)%bool then 0%float
  else PrimFloat.div dotProduct (PrimFloat.mul magnitudeA magnitudeB).

(** A whole number of magnitude up to [2^53] as a double. *)
Definition ofZ (n : Z) : float :=
  if (n <? 0)%Z then PrimFloat.opp (PrimFloat.of_uint63 (Uint63.of_Z (- n)))
  else PrimFloat.of_uint63 (Uint63.of_Z n).

(** [Math.round]: the nearest whole number, halves upwards; [NaN], the
    infinities and the whole numbers are left as they are. *)
Definition Math_round (x : float) : float :=
  match Prim2SF x with
  | S754_finite s m e =>
      if (0 <=? e)%Z then x
      else
        let n := ((2 * (if s then Z.neg m else Z.pos m) + 2 ^ (- e)) / 2 ^ (1 - e))%Z in
        if ((n =? 0)%Z && s)%bool then PrimFloat.neg_zero else ofZ n
  | _ => x
  end.

(** [skill.weight || 1.0] *)
Definition weightOrDefault (skill : RoleSkill) : float :=
  match weight skill with
  | Some w => if truthy w then w else 1%float
  | None => 1%float
  end.

Section WithAliases.

Variable skillAliases : gmap string string.

Local Abbreviation canonicalizeSkillName := (Canon.canonicalizeSkillName skillAliases).

Definition normalizeSkills (skills : list Token) : vector :=
  foldl (fun normalized skill =>
           let key := canonicalizeSkillName skill in
           if hasLength key then assign normalized (toKey key) 1%float
           else normalized)
        [] skills.

Definition roleVector (roleSkills : list RoleSkill) : vector :=
  foldl (fun roleSkillsVector skill =>
           let canonical := canonicalizeSkillName (Text (name skill)) in
           assign roleSkillsVector (toKey canonical) (weightOrDefault skill))
        [] roleSkills.

Definition calculateFitScore
    (userSkills : option (list Token)) (roleSkills : option (list RoleSkill)) : float :=
  match userSkills, roleSkills with
  | Some us, Some rs =>
      if ((List.length us =? 0)%nat || (List.length rs =? 0)%nat)%bool then 0%float
      else
        let normalizedUserSkills := normalizeSkills us in
        let roleSkillsVector := roleVector rs in
        let similarity := cosineSimilarity normalizedUserSkills roleSkillsVector in
        Math_round (PrimFloat.mul similarity 100)
  | _, _ => 0%float
  end.

End WithAliases.

End Doubles.

(** ** Role ranker ([getTopRoleMatches]) *)

Module Ranker.

Import Canon Similarity.

(** The fields of a (normalised) profile that the ranking reads. *)
Record Profile := mkProfile {
  profileSkills : list Token;
  profileInterests : list string
}.

(** [{ ...role, score, overlapSkills, gapSkills }]; the score is a whole
    number or [NaN] ([None]). *)
Record RoleMatch := mkRoleMatch {
  role : Role;
  score : option Z;
  overlapSkills : list Token;
  gapSkills : list Token
}.

(** [Array.prototype.sort] is a stable sort; with a comparator that is a
    total preorder the result is the one of a stable insertion sort.
    [compare a b > 0] puts [b] before [a].  For a comparator that is not
    consistent (it answers [NaN], read as 0, for some pairs only) the
    language leaves the order to the implementation; the model follows the
    insertion order there. *)
Section Sort.
Context {A : Type} (compare : A -> A -> Z).

Fixpoint insertSorted (x : A) (l : list A) : list A :=
  match l with
  | [] => [x]
  | y :: r => if (0 <? compare x y)%Z then y :: insertSorted x r else x :: l
  end.

Definition sortBy (l : list A) : list A := foldr insertSorted [] l.
End Sort.

(** [slice(0, count)] for a count that is a natural number. *)
Definition slice0 {A : Type} (count : nat) (l : list A) : list A := firstn count l.

(** [(a, b) => b.score - a.score], with [NaN] read as 0 by the sort. *)
Definition byScore (a b : RoleMatch) : Z :=
  match score b, score a with
  | Some sb, Some sa => (sb - sa)%Z
  | _, _ => 0%Z
  end.

Section WithCatalog.

Variable skillAliases : gmap string string.

(** [calculateEnhancedFitScore], which the service imports from
    [utils.js]: a whole number, or [NaN] ([None]).  The ranking is modelled
    over whatever the function computes, in the arithmetic it computes with;
    [Similarity.calculateEnhancedFitScore] is the function in exact
    arithmetic. *)
Variable calculateEnhancedFitScore :
  option (list Token) -> option (list RoleSkill) -> option (list string) -> option Role
  -> option Z.

(** [Object.values(roles)]: the catalog in its iteration order. *)
Variable roles : list Role.

Local Abbreviation canonicalizeSkillName := (Canon.canonicalizeSkillName skillAliases).

Definition scoreRole (profile : Profile) (r : Role) : RoleMatch :=
  let normalizedRoleSkills := map (fun s => canonicalizeSkillName (Text (name s))) (skills r) in
  let normalizedProfileSkills := map canonicalizeSkillName (profileSkills profile) in
  let overlap := filter (fun skill => skill ∈ normalizedRoleSkills) normalizedProfileSkills in
  let gap := filter (fun skill => skill ∉ normalizedProfileSkills) normalizedRoleSkills in
  let sc := calculateEnhancedFitScore
              (Some (profileSkills profile)) (Some (skills r))
              (Some (profileInterests profile)) (Some r) in
  mkRoleMatch r sc overlap gap.

Definition roleScores (profile : Profile) : list RoleMatch :=
  map (scoreRole profile) roles.

Definition getTopRoleMatches (profile : Profile) (count : nat) : list RoleMatch :=
  slice0 count (sortBy byScore (roleScores profile)).

End WithCatalog.

End Ranker.

(** ** Values of the runtime *)

Module Js.

(** Numbers: the rationals (exact arithmetic) with the three special values
    of the runtime. *)
Inductive number :=
| Finite (q : Q)
| PosInfinity
| NegInfinity
| NaN.

(** A value as [JSON.parse] and object literals build it: a tree without
    sharing.  An array carries, next to its items, the named properties that
    an assignment [a.k = v] adds to it. *)
Inductive value :=
| Undefined
| Null
| Bool (b : bool)
| Num (n : number)
| Str (s : string)
| Arr (items : list value) (named : list (string * value))
| Obj (props : list (string * value)).

Definition object := list (string * value).

Definition ofNat (n : nat) : number := Finite (inject_Z (Z.of_nat n)).
Definition ofZ (z : Z) : number := Finite (inject_Z z).

Fixpoint getOwn (props : object) (key : string) : option value :=
  match props with
  | [] => None
  | (k, v) :: rest => if String.eqb k key then Some v else getOwn rest key
  end.

(** [o[key] = v]: the property keeps its place when it exists and is added
    at the end otherwise. *)
Fixpoint setOwn (props : object) (key : string) (v : value) : object :=
  match props with
  | [] => [(key, v)]
  | (k, w) :: rest =>
      if String.eqb k key then (k, v) :: rest else (k, w) :: setOwn rest key v
  end.

(** [o.key] of an ordinary object, for a key that no prototype defines. *)
Definition prop (props : object) (key : string) : value :=
  match getOwn props key with
  | Some v => v
  | None => Undefined
  end.

Definition leNumber (a b : number) : bool :=
  match a, b with
  | NaN, _ | _, NaN => false
  | NegInfinity, _ => true
  | _, PosInfinity => true
  | Finite p, Finite q => Qle_bool p q
  | _, _ => false
  end.

Definition Math_max (a b : number) : number :=
  match a, b with
  | NaN, _ | _, NaN => NaN
  | _, _ => if leNumber a b then b else a
  end.

Definition Math_min (a b : number) : number :=
  match a, b with
  | NaN, _ | _, NaN => NaN
  | _, _ => if leNumber a b then a else b
  end.

(** [===] on numbers. *)
Definition eqNumber (a b : number) : bool :=
  match a, b with
  | Finite p, Finite q => Qeq_bool p q
  | PosInfinity, PosInfinity => true
  | NegInfinity, NegInfinity => true
  | _, _ => false
  end.

(** [ToBoolean] *)
Definition truthy (v : value) : bool :=
  match v with
  | Undefined | Null => false
  | Bool b => b
  | Num (Finite q) => negb (Qeq_bool q 0)
  | Num NaN => false
  | Num _ => true
  | Str s => negb (String.eqb s EmptyString)
  | Arr _ _ | Obj _ => true
  end.

Definition isArray (v : value) : bool :=
  match v with
  | Arr _ _ => true
  | _ => false
  end.

(** [v.key] for a [key] that is not a property of the built-in prototypes:
    [None] is the [TypeError] of a read on [null] or [undefined]. *)
Definition getMember (v : value) (key : string) : option value :=
  match v with
  | Undefined | Null => None
  | Obj props => Some (prop props key)
  | Arr _ named => Some (prop named key)
  | Bool _ | Num _ | Str _ => Some Undefined
  end.

(** [v.key = x] in non-strict code: a [TypeError] on [null] and
    [undefined], silently dropped on a primitive. *)
Definition setMember (v : value) (key : string) (x : value) : option value :=
  match v with
  | Undefined | Null => None
  | Obj props => Some (Obj (setOwn props key x))
  | Arr items named => Some (Arr items (setOwn named key x))
  | Bool _ | Num _ | Str _ => Some v
  end.

End Js.

(** ** Profile cleaning ([validateAndCleanProfile]) *)

Module ProfileCleaner.

Import Js.

Section WithAliases.

Variable skillAliases : gmap string string.

(** [sanitizeSkill] as [map] applies it to an arbitrary array entry: anything
    but a string gives the empty string; [None] is the [TypeError] that
    [sanitizeSkill] raises on a string. *)
Definition sanitizeSkillValue (skill : value) : option string :=
  match skill with
  | Str s => Canon.sanitizeSkill skillAliases (Canon.Text s)
  | _ => Some EmptyString
  end.

(** [array.map(sanitizeSkill).filter(s => s.length > 0).slice(0, limit)] *)
Definition cleanList (limit : nat) (items : list value) : option (list value) :=
  sanitized ← mapM sanitizeSkillValue items;
  Some (map Str
          (firstn limit (List.filter (fun s => (0 <? JsString.length s)%nat) sanitized))).

Definition cleanArrayField (key : string) (limit : nat) (cleaned : object) : option object :=
  match prop cleaned key with
  | Arr items _ =>
      entries ← cleanList limit items;
      Some (setOwn cleaned key (Arr entries []))
  | _ => Some cleaned
  end.

Definition clampWeeklyTime (cleaned : object) : object :=
  match prop cleaned "weeklyTime" with
  | Num x => setOwn cleaned "weeklyTime" (Num (Math_min (Math_max x (ofZ 1)) (ofZ 40)))
  | _ => cleaned
  end.

(** [valid.includes(v)] for a list of string literals. *)
Definition includesValue (valid : list string) (v : value) : bool :=
  match v with
  | Str s => existsb (String.eqb s) valid
  | _ => false
  end.

Definition coerceEnum (key : string) (valid : list string) (fallback : string)
    (cleaned : object) : object :=
  if includesValue valid (prop cleaned key) then cleaned
  else setOwn cleaned key (Str fallback).

Definition validEducation : list string := ["12th"; "Diploma"; "UG"; "PG"; "Other"].
Definition validBudget : list string := ["free"; "low"; "any"].
Definition validLanguage : list string := ["en"; "hi"].

(** [None] is the [TypeError] raised while an array is cleaned. *)
Definition validateAndCleanProfile (profile : object) : option object :=
  let cleaned := profile in
  cleaned ← cleanArrayField "skills" 20 cleaned;
  cleaned ← cleanArrayField "interests" 10 cleaned;
  let cleaned := clampWeeklyTime cleaned in
  let cleaned := coerceEnum "education" validEducation "Other" cleaned in
  let cleaned := coerceEnum "budget" validBudget "free" cleaned in
  let cleaned := coerceEnum "language" validLanguage "en" cleaned in
  Some cleaned.

End WithAliases.

(** A profile as a client may send it. *)
Definition sampleProfile : object :=
  [("name", Str "Test User");
   ("education", Str "PhD");
   ("skills", Arr [Str "  Python!@#  "; Num (ofZ 7); Str "SQL Server"] []);
   ("weeklyTime", Str "15");
   ("budget", Str "free")].

End ProfileCleaner.

(** ** Classification of a failure of [/api/recommend] *)

Module Http.

Import JsString.

(** The [catch] block of the handler: the status code and the [error] text
    of the response, from [error.message]. *)
Definition classify (message : string) : Z * string :=
  let statusCode := 500%Z in
  let errorMessage := "Internal server error" in
  if includes message "API key" then (500%Z, "AI service configuration error")
  else if includes message "quota" then (429%Z, "Service quota exceeded. Please try again later.")
  else if includes message "timeout" then (408%Z, "Request timeout. Please try again.")
  else (statusCode, errorMessage).

Definition statusCode (message : string) : Z := fst (classify message).

End Http.

(** ** A reference [JSON.parse] *)

Module Json.

Import JsString Js.

Inductive token :=
| TLBrace | TRBrace | TLBracket | TRBracket | TColon | TComma
| TString (s : list ascii)
| TNumber (q : Q)
| TTrue | TFalse | TNull.

Definition digitValue (c : ascii) : Z := Z.of_N (code c) - 48.

Definition hexValue (c : ascii) : option N :=
  if isDigit c then Some (code c - 48)%N
  else if in_range 97 102 c then Some (code c - 87)%N
  else if in_range 65 70 c then Some (code c - 55)%N
  else None.

(** The longest prefix of digits and what follows it. *)
Fixpoint spanDigits (l : list ascii) : list ascii * list ascii :=
  match l with
  | c :: r => if isDigit c then let '(ds, rest) := spanDigits r in (c :: ds, rest) else ([], l)
  | [] => ([], [])
  end.

Definition digitsValue (ds : list ascii) : Z :=
  fold_left (fun acc c => (10 * acc + digitValue c)%Z) ds 0%Z.

(** The characters of a string literal after its opening quote, up to the
    closing quote.  An escape [\uXXXX] above [ÿ] names a code unit
    outside the range of the embedding and is refused. *)
Fixpoint lexString (l : list ascii) : option (list ascii * list ascii) :=
  match l with
  | [] => None
  | "\"%char :: "u"%char :: a :: b :: c :: d :: rest =>
      match hexValue a, hexValue b, hexValue c, hexValue d with
      | Some 0%N, Some 0%N, Some h, Some k =>
          match lexString rest with
          | Some (s, rest') => Some (ascii_of_N (16 * h + k) :: s, rest')
          | None => None
          end
      | _, _, _, _ => None
      end
  | "\"%char :: e :: rest =>
      let unescaped :=
        if Ascii.eqb e dquote then Some dquote
        else if Ascii.eqb e "\" then Some "\"%char
        else if Ascii.eqb e "/" then Some "/"%char
        else if Ascii.eqb e "b" then Some (ascii_of_N 8)
        else if Ascii.eqb e "f" then Some (ascii_of_N 12)
        else if Ascii.eqb e "n" then Some (ascii_of_N 10)
        else if Ascii.eqb e "r" then Some (ascii_of_N 13)
        else if Ascii.eqb e "t" then Some (ascii_of_N 9)
        else None in
      match unescaped, lexString rest with
      | Some c, Some (s, rest') => Some (c :: s, rest')
      | _, _ => None
      end
  | c :: rest =>
      if Ascii.eqb c dquote then Some ([], rest)
      else if (code c <? 32)%N then None
      else match lexString rest with
           | Some (s, rest') => Some (c :: s, rest')
           | None => None
           end
  end.

(** The number grammar: an optional minus sign, an integer part without a
    leading zero, an optional fraction and an optional exponent. *)
Definition lexNumber (l : list ascii) : option (Q * list ascii) :=
  let '(negative, l1) :=
    match l with
    | "-"%char :: r => (true, r)
    | _ => (false, l)
    end in
  let '(ints, l2) := spanDigits l1 in
  match ints with
  | [] => None
  | d :: more =>
      if (Ascii.eqb d "0" && negb (Nat.eqb (List.length more) 0))%bool then None
      else
        let fraction :=
          match l2 with
          | "."%char :: r =>
              let '(fs, l3) := spanDigits r in
              match fs with [] => None | _ => Some (fs, l3) end
          | _ => Some ([], l2)
          end in
        match fraction with
        | None => None
        | Some (fs, l3) =>
            let exponent :=
              match l3 with
              | e :: r =>
                  if (Ascii.eqb e "e" || Ascii.eqb e "E")%bool then
                    let '(sign, r') :=
                      match r with
                      | "+"%char :: t => (1%Z, t)
                      | "-"%char :: t => ((-1)%Z, t)
                      | _ => (1%Z, r)
                      end in
                    let '(es, l4) := spanDigits r' in
                    match es with
                    | [] => None
                    | _ => Some ((sign * digitsValue es)%Z, l4)
                    end
                  else Some (0%Z, l3)
              | [] => Some (0%Z, l3)
              end in
            match exponent with
            | None => None
            | Some (ex, l4) =>
                let mantissa := digitsValue (ints ++ fs) in
                let scale := (ex - Z.of_nat (List.length fs))%Z in
                let magnitude := Qred (inject_Z mantissa * Qpower 10 scale) in
                Some (if negative then Qopp magnitude else magnitude, l4)
            end
        end
  end.

Definition isJsonSpace (c : ascii) : bool :=
  (N.eqb (code c) 32 || N.eqb (code c) 9 || N.eqb (code c) 10 || N.eqb (code c) 13)%bool.

(** One token is read by each step; [fuel] bounds the number of steps by the
    number of characters. *)
Fixpoint lex (fuel : nat) (l : list ascii) : option (list token) :=
  match fuel with
  | O => match l with [] => Some [] | _ => None end
  | S fuel' =>
      match l with
      | [] => Some []
      | c :: r =>
          let continue (t : token) (rest : list ascii) :=
            match lex fuel' rest with
            | Some ts => Some (t :: ts)
            | None => None
            end in
          if isJsonSpace c then lex fuel' r
          else if Ascii.eqb c "{" then continue TLBrace r
          else if Ascii.eqb c "}" then continue TRBrace r
          else if Ascii.eqb c "[" then continue TLBracket r
          else if Ascii.eqb c "]" then continue TRBracket r
          else if Ascii.eqb c ":" then continue TColon r
          else if Ascii.eqb c "," then continue TComma r
          else if Ascii.eqb c dquote then
            match lexString r with
            | Some (s, rest) => continue (TString s) rest
            | None => None
            end
          else if startsWith (chars "true") l then continue TTrue (skipn 4 l)
          else if startsWith (chars "false") l then continue TFalse (skipn 5 l)
          else if startsWith (chars "null") l then continue TNull (skipn 4 l)
          else match lexNumber l with
               | Some (q, rest) => continue (TNumber q) rest
               | None => None
               end
      end
  end.

(** Recursive descent on the tokens.  Two steps of [fuel] read at least one
    token, so [2 * length ts + 2] steps are enough. *)
Fixpoint parseValue (fuel : nat) (ts : list token) : option (value * list token) :=
  match fuel with
  | O => None
  | S fuel' =>
      match ts with
      | TNull :: rest => Some (Null, rest)
      | TTrue :: rest => Some (Bool true, rest)
      | TFalse :: rest => Some (Bool false, rest)
      | TNumber q :: rest => Some (Num (Finite q), rest)
      | TString s :: rest => Some (Str (str s), rest)
      | TLBracket :: TRBracket :: rest => Some (Arr [] [], rest)
      | TLBracket :: rest =>
          match parseItems fuel' rest with
          | Some (items, rest') => Some (Arr items [], rest')
          | None => None
          end
      | TLBrace :: TRBrace :: rest => Some (Obj [], rest)
      | TLBrace :: rest =>
          match parseMembers fuel' [] rest with
          | Some (props, rest') => Some (Obj props, rest')
          | None => None
          end
      | _ => None
      end
  end
with parseItems (fuel : nat) (ts : list token) : option (list value * list token) :=
  match fuel with
  | O => None
  | S fuel' =>
      match parseValue fuel' ts with
      | Some (v, TComma :: rest) =>
          match parseItems fuel' rest with
          | Some (vs, rest') => Some (v :: vs, rest')
          | None => None
          end
      | Some (v, TRBracket :: rest) => Some ([v], rest)
      | _ => None
      end
  end
with parseMembers (fuel : nat) (props : object) (ts : list token)
    : option (object * list token) :=
  match fuel with
  | O => None
  | S fuel' =>
      match ts with
      | TString k :: TColon :: rest =>
          match parseValue fuel' rest with
          | Some (v, TComma :: rest') => parseMembers fuel' (setOwn props (str k) v) rest'
          | Some (v, TRBrace :: rest') => Some (setOwn props (str k) v, rest')
          | _ => None
          end
      | _ => None
      end
  end.

(** [JSON.parse(text)]; [None] is its [SyntaxError]. *)
Definition parse (text : string) : option value :=
  match lex (S (List.length (chars text))) (chars text) with
  | Some ts =>
      match parseValue (2 * List.length ts + 2) ts with
      | Some (v, []) => Some v
      | _ => None
      end
  | None => None
  end.

End Json.

(** ** Plan parser ([parseLearningPlan]) *)

Module PlanParser.

Import JsString Js.

Definition fence : list ascii := chars "```".

(** What follows the captured group: white space and the closing fence. *)
Definition closes (l : list ascii) : bool := startsWith fence (dropSpaces l).

(** The lazy group [([\s\S]*?)]: the shortest prefix after which the rest
    of the pattern matches. *)
Fixpoint lazyCapture (l : list ascii) : option (list ascii) :=
  if closes l then Some []
  else match l with
       | [] => None
       | c :: r => option_map (cons c) (lazyCapture r)
       end.

(** Group 1 of the leftmost match of [opener \s* ([\s\S]*?) \s* ```].  The
    greedy [\s*] after the opener takes the whole run of white space: a
    closing fence cannot start inside the run, so giving characters back
    never turns a failure into a match. *)
Fixpoint matchFenced (opener l : list ascii) : option (list ascii) :=
  let later :=
    match l with
    | [] => None
    | _ :: r => matchFenced opener r
    end in
  if startsWith opener l then
    match lazyCapture (dropSpaces (skipn (List.length opener) l)) with
    | Some group => Some group
    | None => later
    end
  else later.

(** The text handed to [JSON.parse]. *)
Definition extractJson (aiResponse : string) : string :=
  let jsonMatch :=
    match matchFenced (chars "```json") (chars aiResponse) with
    | Some group => Some group
    | None => matchFenced fence (chars aiResponse)
    end in
  let jsonString :=
    match jsonMatch with
    | Some group => str group
    | None =>
        match indexOf aiResponse "{", lastIndexOf aiResponse "}" with
        | Some first, Some last =>
            if (first <? last)%nat then substring aiResponse first (last + 1)
            else aiResponse
        | _, _ => aiResponse
        end
    end in
  trim jsonString.

(** [while (weeks.length < 4) weeks.push({ week: weeks.length + 1 })] *)
Fixpoint padWeeks (missing : nat) (weeks : list value) : list value :=
  match missing with
  | O => weeks
  | S missing' =>
      padWeeks missing' (weeks ++ [Obj [("week", Num (ofNat (List.length weeks + 1)))]])
  end.

Definition fourWeeks (weeks : list value) : list value :=
  if (List.length weeks <? 4)%nat then padWeeks (4 - List.length weeks) weeks
  else if (4 <? List.length weeks)%nat then firstn 4 weeks
  else weeks.

(** [if (!week[key] || !test(week[key])) week[key] = fallback] *)
Definition defaultMember (key : string) (test : value -> bool) (fallback : value)
    (week : value) : option value :=
  current ← getMember week key;
  if (negb (truthy current) || negb (test current))%bool
  then setMember week key fallback
  else Some week.

Definition isWeekNumber (index : nat) (v : value) : bool :=
  match v with
  | Num n => eqNumber n (ofNat (index + 1))
  | _ => false
  end.

(** The callback of [plan.weeks.forEach]. *)
Definition validateWeek (index : nat) (week : value) : option value :=
  week ← defaultMember "week" (isWeekNumber index) (Num (ofNat (index + 1))) week;
  week ← defaultMember "topics" isArray (Arr [Str "Topics to be determined"] []) week;
  week ← defaultMember "practice" isArray
           (Arr [Str "Practice activities to be determined"] []) week;
  week ← defaultMember "assessment" (fun _ => true) (Str "Assessment to be determined") week;
  defaultMember "project" (fun _ => true) (Str "Project to be determined") week.

Fixpoint validateWeeks (index : nat) (weeks : list value) : option (list value) :=
  match weeks with
  | [] => Some []
  | week :: rest =>
      week' ← validateWeek index week;
      rest' ← validateWeeks (S index) rest;
      Some (week' :: rest')
  end.

(** The statements of the [try] block after [JSON.parse]; [None] is an
    exception, thrown by the code or by the runtime. *)
Definition repairPlan (plan : value) : option value :=
  weeks ← getMember plan "weeks";
  match weeks with
  | Arr items named =>
      let kept := if (4 <? List.length items)%nat then [] else named in
      weeks' ← validateWeeks 0 (fourWeeks items);
      setMember plan "weeks" (Arr weeks' kept)
  | _ => None
  end.

Definition fallbackWeek (n : nat) (topic practice assessment project : string) : value :=
  Obj [("week", Num (ofNat n));
       ("topics", Arr [Str topic] []);
       ("practice", Arr [Str practice] []);
       ("assessment", Str assessment);
       ("project", Str project)].

Definition fallbackPlan : value :=
  Obj [("weeks",
        Arr [fallbackWeek 1 "Basic concepts and fundamentals"
               "Hands-on exercises and tutorials"
               "Knowledge check quiz" "Simple introductory project";
             fallbackWeek 2 "Intermediate concepts and techniques"
               "Practical exercises and case studies"
               "Skills assessment" "Intermediate level project";
             fallbackWeek 3 "Advanced concepts and best practices"
               "Complex exercises and real-world scenarios"
               "Advanced skills test" "Advanced level project";
             fallbackWeek 4 "Integration and real-world application"
               "Final project preparation"
               "Final project review" "Capstone project"] [])].

Definition tryParse (aiResponse : string) : option value :=
  plan ← Json.parse (extractJson aiResponse);
  repairPlan plan.

(** [try { ... } catch (error) { return fallback }] *)
Definition parseLearningPlan (aiResponse : string) : value :=
  match tryParse aiResponse with
  | Some plan => plan
  | None => fallbackPlan
  end.

(** The [week] fields of the entries of [plan.weeks], in order. *)
Definition weekFields (plan : value) : option (list value) :=
  weeks ← getMember plan "weeks";
  match weeks with
  | Arr items _ => mapM (fun week => getMember week "week") items
  | _ => None
  end.

(** [week.week === index + 1] *)
Definition numbered (index : nat) (week : value) : bool :=
  match getMember week "week" with
  | Some v => isWeekNumber index v
  | None => false
  end.

Fixpoint allNumbered (index : nat) (weeks : list value) : bool :=
  match weeks with
  | [] => true
  | week :: rest => (numbered index week && allNumbered (S index) rest)%bool
  end.

(** [plan.weeks] is an array of 4 entries whose [week] fields are 1, 2, 3
    and 4. *)
Definition wellNumbered (plan : value) : bool :=
  match getMember plan "weeks" with
  | Some (Arr items _) => ((List.length items =? 4)%nat && allNumbered 0 items)%bool
  | _ => false
  end.

Definition oneToFour : list value :=
  [Num (ofNat 1); Num (ofNat 2); Num (ofNat 3); Num (ofNat 4)].

Definition isPrimitive (v : value) : bool :=
  match v with
  | Bool _ | Num _ | Str _ => true
  | _ => false
  end.

End PlanParser.

(** ** The alphabet of a cleaned skill name *)

Module CanonShape.

Import JsString.

(** A lower-case letter, a digit, [_], [/], [-] or a space. *)
Definition canonicalChar (c : ascii) : bool :=
  (isLower c || isDigit c || N.eqb (code c) 95 || N.eqb (code c) 47
   || N.eqb (code c) 45 || N.eqb (code c) 32)%bool.

Definition canonicalText (s : string) : bool := forallb canonicalChar (chars s).

End CanonShape.

(** ** An entry of a cleaned list *)

Module CleanedShape.

Import Js.

(** A string of 1 to 50 code units. *)
Definition cleanEntry (v : value) : Prop :=
  exists s, v = Str s /\ (1 <= JsString.length s <= 50)%nat.

End CleanedShape.

(** ** Skill recommendations ([generateSkillRecommendations]) *)

Module Recommender.

Import JsString Similarity Ranker.

(** [s.toLowerCase().trim()] *)
Definition normalizeName (s : string) : string := trim (toLowerCase s).

(** What [skillFrequency[name]] reads in the plain object
    [skillFrequency]: an own counter (a number or [NaN]), a property
    inherited from [Object.prototype], or [undefined]. *)
Inductive Reading :=
| Counter (n : option nat)
| Inherited
| Missing.

Definition read (skillFrequency : gmap string (option nat)) (skillName : string) : Reading :=
  match skillFrequency !! skillName with
  | Some n => Counter n
  | None => if Canon.inherited skillName then Inherited else Missing
  end.

(** A counter is truthy when it is a number other than 0; an inherited
    function or object is truthy. *)
Definition truthyReading (r : Reading) : bool :=
  match r with
  | Counter (Some (S _)) => true
  | Inherited => true
  | _ => false
  end.

(** The reading as a number: [None] is [NaN]. *)
Definition readingNumber (r : Reading) : option nat :=
  match r with
  | Counter n => n
  | Inherited | Missing => None
  end.

(** [skillFrequency[name] = n] for a number [n]: the setter of [__proto__]
    ignores it. *)
Definition store (skillFrequency : gmap string (option nat)) (skillName : string)
    (n : option nat) : gmap string (option nat) :=
  if String.eqb skillName "__proto__" then skillFrequency
  else <[skillName := n]> skillFrequency.

(** The body of the inner [forEach]: the Set [allSkills], in insertion
    order, and the counters [skillFrequency]. *)
Definition countSkill (tally : list string * gmap string (option nat)) (skill : RoleSkill)
    : list string * gmap string (option nat) :=
  let '(allSkills, skillFrequency) := tally in
  let skillName := normalizeName (name skill) in
  let allSkills :=
    if decide (skillName ∈ allSkills) then allSkills else allSkills ++ [skillName] in
  let skillFrequency :=
    if truthyReading (read skillFrequency skillName) then skillFrequency
    else store skillFrequency skillName (Some 0%nat) in
  let skillFrequency :=
    store skillFrequency skillName (S <$> readingNumber (read skillFrequency skillName)) in
  (allSkills, skillFrequency).

Definition tallyRoles (roles : list Role) : list string * gmap string (option nat) :=
  foldl (fun tally role => foldl countSkill tally (skills role)) ([], ∅) roles.

(** [(a, b) => skillFrequency[b] - skillFrequency[a]], with [NaN] read as 0
    by the sort. *)
Definition byFrequency (skillFrequency : gmap string (option nat)) (a b : string) : Z :=
  match readingNumber (read skillFrequency b), readingNumber (read skillFrequency a) with
  | Some nb, Some na => (Z.of_nat nb - Z.of_nat na)%Z
  | _, _ => 0%Z
  end.

Definition generateSkillRecommendations
    (userSkills : option (list string)) (roles : option (list Role)) : list string :=
  match userSkills, roles with
  | Some us, Some rs =>
      let normalizedUserSkills := map normalizeName us in
      let '(allSkills, skillFrequency) := tallyRoles rs in
      let missingSkills := filter (fun skill => skill ∉ normalizedUserSkills) allSkills in
      slice0 10 (sortBy (byFrequency skillFrequency) missingSkills)
  | _, _ => []
  end.

(** The normalised names of all role skills, role after role. *)
Definition catalogNames (roles : list Role) : list string :=
  concat (map (fun role => map (fun skill => normalizeName (name skill)) (skills role)) roles).

(** How many role skills carry the name. *)
Definition occurrences (roles : list Role) (skillName : string) : nat :=
  List.length (filter (fun n => n = skillName) (catalogNames roles)).

(** No skill of the catalog is named after a property of
    [Object.prototype]. *)
Definition plainCatalog (roles : list Role) : Prop :=
  forall role skill, role ∈ roles -> skill ∈ skills role ->
    Canon.inherited (normalizeName (name skill)) = false.

Definition sampleCatalog : list Role :=
  [mkRole "data-analyst" "Data Analyst" "Technology"
     [mkRoleSkill "Python" (Some 1%R); mkRoleSkill "SQL" (Some (9 / 10)%R)];
   mkRole "data-engineer" "Data Engineer" "Technology"
     [mkRoleSkill " sql " None; mkRoleSkill "Spark" None]].

End Recommender.

(** ** Request validation and normalisation ([validateRequest],
    [normalizeProfile]) *)

Module RequestValidator.

Import JsString Js.

Definition isString (v : value) : bool :=
  match v with
  | Str _ => true
  | _ => false
  end.

Definition isNumber (v : value) : bool :=
  match v with
  | Num _ => true
  | _ => false
  end.

(** [typeof v === 'object'] *)
Definition isObjectType (v : value) : bool :=
  match v with
  | Null | Arr _ _ | Obj _ => true
  | _ => false
  end.

(** [a < b] on numbers. *)
Definition ltNumber (a b : number) : bool :=
  match a, b with
  | NaN, _ | _, NaN => false
  | Finite p, Finite q => negb (Qle_bool q p)
  | NegInfinity, NegInfinity => false
  | NegInfinity, _ => true
  | Finite _, PosInfinity => true
  | _, _ => false
  end.

(** The named properties of a value that passed
    [v && typeof v === 'object']: an object or an array. *)
Definition fieldsOf (v : value) : object :=
  match v with
  | Obj props => props
  | Arr _ named => named
  | _ => []
  end.

(** [s.trim().length], [a.length] and the number itself, each read only
    after the test of the type that stands before it in the condition. *)
Definition trimmedLength (v : value) : nat :=
  match v with
  | Str s => JsString.length (trim s)
  | _ => 0%nat
  end.

Definition arrayLength (v : value) : nat :=
  match v with
  | Arr items _ => List.length items
  | _ => 0%nat
  end.

Definition numberOf (v : value) : number :=
  match v with
  | Num n => n
  | _ => NaN
  end.

(** [list.includes(v)] for a list of string literals. *)
Definition oneOf (valid : list string) (v : value) : bool :=
  match v with
  | Str s => existsb (String.eqb s) valid
  | _ => false
  end.

(** [if (violated) errors.push(message)] *)
Definition pushIf (violated : bool) (message : string) (errors : list string) : list string :=
  if violated then errors ++ [message] else errors.

Record Validation := mkValidation { isValid : bool; errors : list string }.

Definition educations : list string := ["12th"; "Diploma"; "UG"; "PG"; "Other"].
Definition budgets : list string := ["free"; "low"; "any"].
Definition languages : list string := ["en"; "hi"].

Definition validateRequest (body : object) : Validation :=
  let errors := [] in
  let uid := prop body "uid" in
  let errors :=
    pushIf (negb (truthy uid) || negb (isString uid))
      "uid is required and must be a string" errors in
  if (negb (truthy (prop body "profile")) || negb (isObjectType (prop body "profile")))%bool
  then mkValidation false (errors ++ ["profile is required and must be an object"])
  else
    let profile := fieldsOf (prop body "profile") in
    let name := prop profile "name" in
    let errors :=
      pushIf (negb (truthy name) || negb (isString name) || (trimmedLength name <? 2)%nat)
        "name must be at least 2 characters long" errors in
    let education := prop profile "education" in
    let errors :=
      pushIf (negb (truthy education) || negb (oneOf educations education))
        "education must be one of: 12th, Diploma, UG, PG, Other" errors in
    let skills := prop profile "skills" in
    let errors :=
      pushIf (negb (truthy skills) || negb (isArray skills) || (arrayLength skills =? 0)%nat)
        "skills must be a non-empty array" errors in
    let interests := prop profile "interests" in
    let errors :=
      pushIf (negb (truthy interests) || negb (isArray interests)
              || (arrayLength interests =? 0)%nat)
        "interests must be a non-empty array" errors in
    let weeklyTime := prop profile "weeklyTime" in
    let errors :=
      pushIf (negb (truthy weeklyTime) || negb (isNumber weeklyTime)
              || ltNumber (numberOf weeklyTime) (ofZ 1)
              || ltNumber (ofZ 40) (numberOf weeklyTime))
        "weeklyTime must be a number between 1 and 40" errors in
    let budget := prop profile "budget" in
    let errors :=
      pushIf (negb (truthy budget) || negb (oneOf budgets budget))
        "budget must be one of: free, low, any" errors in
    let language := prop profile "language" in
    let errors :=
      pushIf (negb (truthy language) || negb (oneOf languages language))
        "language must be one of: en, hi" errors in
    mkValidation (List.length errors =? 0)%nat errors.

(** A request as the validator accepts it, field by field. *)
Definition acceptable (body : object) : Prop :=
  (exists uid, prop body "uid" = Str uid /\ uid <> EmptyString) /\
  (exists items fields, prop body "profile" = Obj fields
                        \/ prop body "profile" = Arr items fields) /\
  let profile := fieldsOf (prop body "profile") in
  (exists n, prop profile "name" = Str n /\ (2 <= JsString.length (trim n))%nat) /\
  (exists e, prop profile "education" = Str e /\ e ∈ educations) /\
  (exists items named, prop profile "skills" = Arr items named /\ items <> []) /\
  (exists items named, prop profile "interests" = Arr items named /\ items <> []) /\
  (exists q, prop profile "weeklyTime" = Num (Finite q) /\ (1 <= q <= 40)%Q) /\
  (exists b, prop profile "budget" = Str b /\ b ∈ budgets) /\
  (exists l, prop profile "language" = Str l /\ l ∈ languages).

Section Normalise.

Variable skillAliases : gmap string string.

(** [ToNumber] of a value that is not a number, as [Math.max] applies it;
    [None] is the [TypeError] of an object that cannot be converted to a
    primitive value. *)
Variable toNumberOther : value -> option number.

Definition toNumber (v : value) : option number :=
  match v with
  | Num n => Some n
  | _ => toNumberOther v
  end.

(** [canonicalizeSkillName] on an arbitrary array entry: anything but a
    string gives the empty string. *)
Definition canonicalizeValue (v : value) : Canon.Token :=
  match v with
  | Str s => Canon.canonicalizeSkillName skillAliases (Canon.Text s)
  | _ => Canon.Text EmptyString
  end.

(** [interest.trim().toLowerCase()]; [None] is the [TypeError] of an entry
    that is no string. *)
Definition normalizeInterest (v : value) : option string :=
  match v with
  | Str s => Some (toLowerCase (trim s))
  | _ => None
  end.

Record Normalized := mkNormalized {
  nName : string;
  nEducation : value;
  nSkills : list Canon.Token;
  nInterests : list string;
  nWeeklyTime : number;
  nBudget : value;
  nLanguage : value
}.

Definition nonEmpty (s : string) : bool := (0 <? JsString.length s)%nat.

(** [normalizeProfile(profile)]; [None] is a [TypeError]: a [name] or an
    interest that is no string, [skills] or [interests] that is no array, a
    [weeklyTime] that cannot be converted to a number. *)
Definition normalizeProfile (profile : value) : option Normalized :=
  name ← getMember profile "name";
  name ← match name with Str s => Some (trim s) | _ => None end;
  education ← getMember profile "education";
  skills ← getMember profile "skills";
  skills ← match skills with
           | Arr items _ => Some (List.filter Canon.hasLength (map canonicalizeValue items))
           | _ => None
           end;
  interests ← getMember profile "interests";
  interests ← match interests with
              | Arr items _ => mapM normalizeInterest items
              | _ => None
              end;
  weeklyTime ← getMember profile "weeklyTime";
  weeklyTime ← toNumber weeklyTime;
  budget ← getMember profile "budget";
  language ← getMember profile "language";
  Some (mkNormalized name education skills (List.filter nonEmpty interests)
          (Math_min (Math_max weeklyTime (ofZ 1)) (ofZ 40))
          budget language).

End Normalise.

End RequestValidator.

(** A request body as [/api/recommend] receives it. *)

Module RequestFixtures.

Import Js.

Definition sampleRequest : object :=
  [("uid", Str "user-1");
   ("profile",
    Obj [("name", Str "  Test User ");
         ("education", Str "UG");
         ("skills", Arr [Str "Python"; Str "!!!"; Num (ofZ 7); Str "SQL  Server"] []);
         ("interests", Arr [Str " Data "; Str "Technology"] []);
         ("weeklyTime", Num (ofZ 15));
         ("budget", Str "free");
         ("language", Str "en")])].

End RequestFixtures.

(** ** The AI capability ([callGeminiAPI]) *)

Module Gemini.

Import JsString Js.

(** What a [catch] receives: an [Error] made by the code, with its message,
    or an exception of the runtime or of the HTTP client ([TypeError],
    [SyntaxError], an aborted or failed [fetch]). *)
Inductive Failure :=
| Error (message : string)
| Runtime.

Inductive Body :=
| Json (data : value)
| NotJson.

(** The outcome of one [fetchWithTimeout]: the promise is rejected (network
    failure, or the abort after the timeout), or a response arrives. *)
Inductive FetchResult :=
| Rejected
| Response (status : Z) (body : Body).

(** [response.ok] *)
Definition ok (status : Z) : bool := ((200 <=? status) && (status <=? 299))%Z.

(** [v[0]]; [None] is the [TypeError] of an index into [null] or
    [undefined]. *)
Definition first (v : value) : option value :=
  match v with
  | Undefined | Null => None
  | Arr items _ => Some (match items with x :: _ => x | [] => Undefined end)
  | Str s => Some (match chars s with c :: _ => Str (str [c]) | [] => Undefined end)
  | Obj props => Some (prop props "0")
  | Bool _ | Num _ => Some Undefined
  end.

(** The error thrown for a response that is not [ok]. *)
Definition statusError (status : Z) : Failure :=
  if (status =? 400)%Z then Error "Invalid request to AI service"
  else if (status =? 429)%Z then Error "AI service quota exceeded"
  else if (status =? 500)%Z then Error "AI service internal error"
  else Error ("AI service error: " ++ pretty status).

(** [content.parts[0].text] *)
Definition partText (content : value) : option value :=
  parts ← getMember content "parts";
  part ← first parts;
  getMember part "text".

(** [data.candidates[0].content.parts[0].text] after the three tests. *)
Definition candidateText (data : value) : Failure + value :=
  let invalid := inl (Error "Invalid response from AI service") in
  match getMember data "candidates" with
  | None => inl Runtime
  | Some candidates =>
      if negb (truthy candidates) then invalid
      else match first candidates with
           | None => inl Runtime
           | Some candidate =>
               if negb (truthy candidate) then invalid
               else match getMember candidate "content" with
                    | None => inl Runtime
                    | Some content =>
                        if negb (truthy content) then invalid
                        else match partText content with
                             | Some text => inr text
                             | None => inl Runtime
                             end
                    end
           end
  end.

(** The body of the [try] of one attempt. *)
Definition attemptOnce (r : FetchResult) : Failure + value :=
  match r with
  | Rejected => inl Runtime
  | Response status body =>
      if negb (ok status) then inl (statusError status)
      else match body with
           | NotJson => inl Runtime
           | Json data => candidateText data
           end
  end.

Definition maxRetries : Z := 3.

(** [Math.min(1000 * Math.pow(2, attempt - 1), 8000)] *)
Definition backoff (attempt : Z) : Z := Z.min (1000 * 2 ^ (attempt - 1)) 8000.

Record Call := mkCall {
  outcome : Failure + value;   (* thrown, or returned *)
  next : nat;                  (* the number of the next request *)
  waited : list Z              (* the delays slept, in milliseconds *)
}.

Section Network.

(** The outcome of the requests of the process, in the order in which they
    are made. *)
Variable net : nat -> FetchResult.

(** The [for] loop: [remaining] attempts are left, [attempt] is the loop
    variable, [n] the number of the next request. *)
Fixpoint attempts (remaining : nat) (attempt : Z) (n : nat)
    (lastError : option Failure) (slept : list Z) : Call :=
  match remaining with
  | O =>
      mkCall (inl (match lastError with
                   | Some e => e
                   | None => Error "AI request failed"
                   end)) n slept
  | S remaining' =>
      match attemptOnce (net n) with
      | inr text => mkCall (inr text) (S n) slept
      | inl err =>
          let delay := backoff attempt in
          let slept := if (attempt <? maxRetries)%Z then slept ++ [delay] else slept in
          attempts remaining' (attempt + 1) (S n) (Some err) slept
      end
  end.

Definition callGeminiAPI (n : nat) : Call := attempts 3 1 n None [].

End Network.

End Gemini.

(** ** The orchestrator ([generateRecommendations]) and the handler of
    [/api/recommend]

    The requests to the capability are numbered through the process; the
    prompts are not modelled, since the outcome of a request is given by the
    network and the prompt builders are templates that do not raise on a
    normalised profile.  The handle [admin.firestore()] is taken to be
    available (the application is initialised when the module is loaded);
    a failed read of the [trends] collection is caught where it is made, and
    [saveRecommendationsToFirestore] catches its own failures, so neither
    changes the reply.  The body of the request is an object. *)

Module Orchestrator.

Import JsString Js Similarity Ranker RequestValidator Gemini.

(** [Math.round] on a number. *)
Definition roundNumber (x : number) : number :=
  match x with
  | Finite q => Finite (inject_Z (Qfloor (q + (1 # 2))))
  | _ => x
  end.

(** A read of the [trends] collection: it fails, or gives a snapshot with
    [exists] and [data()]. *)
Inductive TrendRead :=
| ReadFailed
| Snapshot (present : bool) (data : value).

Record Recommendation := mkRecommendation {
  recRoleId : string;
  recTitle : string;
  recFitScore : option Z;
  recDemandScore : option number;
  recWhy : value;
  recOverlapSkills : list Canon.Token;
  recGapSkills : list Canon.Token;
  recPlan : value
}.

(** [parseLearningPlan] on what the capability returned: a value without a
    [match] method raises a [TypeError] inside the [try] of the parser. *)
Definition parseLearningPlanValue (planResponse : value) : value :=
  match planResponse with
  | Str text => PlanParser.parseLearningPlan text
  | _ => PlanParser.fallbackPlan
  end.

(** [skills.join(', ')]: an entry that is no string is converted to one. *)
Fixpoint join (l : list Canon.Token) : string :=
  match l with
  | [] => EmptyString
  | [s] => Canon.toKey s
  | s :: rest => Canon.toKey s ++ ", " ++ join rest
  end.

Definition demandScoreOf (read : TrendRead) : option number :=
  match read with
  | ReadFailed => None
  | Snapshot present data =>
      if (present && truthy data)%bool then
        match getMember data "demandScore" with
        | Some (Num score) => Some (roundNumber score)
        | _ => None
        end
      else None
  end.

Section Service.

Variable skillAliases : gmap string string.

(** [calculateEnhancedFitScore] of [utils.js], as for the ranking. *)
Variable calculateEnhancedFitScore :
  option (list Canon.Token) -> option (list RoleSkill) -> option (list string)
  -> option Role -> option Z.

Variable roles : list Role.
Variable toNumberOther : value -> option number.
Variable net : nat -> FetchResult.

(** The document [trends/role_<roleId>]. *)
Variable trends : string -> TrendRead.

(** The message of the [TypeError] that [normalizeProfile] raises. *)
Variable typeErrorMessage : string.

(** The body of the loop over the top roles; [None] when an exception sent
    the loop to its [catch]. *)
Definition recommendRole (profile : Normalized) (role : RoleMatch) (n : nat)
    : option Recommendation * nat :=
  let explain := callGeminiAPI net n in
  match outcome explain with
  | inl _ => (None, next explain)
  | inr explanation =>
      let planning := callGeminiAPI net (next explain) in
      match outcome planning with
      | inl _ => (None, next planning)
      | inr planResponse =>
          let learningPlan := parseLearningPlanValue planResponse in
          let fitScore :=
            calculateEnhancedFitScore
              (Some (nSkills profile)) (Some (skills (Ranker.role role)))
              (Some (nInterests profile)) (Some (Ranker.role role)) in
          let demandScore := demandScoreOf (trends ("role_" ++ roleId (Ranker.role role))) in
          let why :=
            if truthy explanation then explanation
            else Str ("Good match based on your " ++ join (nSkills profile) ++ " skills.") in
          (Some (mkRecommendation (roleId (Ranker.role role)) (title (Ranker.role role))
                   fitScore demandScore why
                   (overlapSkills role) (gapSkills role) learningPlan),
           next planning)
      end
  end.

(** What one round of the loop makes of a role, as a predicate on the
    recommendation pushed. *)
Definition builtFrom (profile : Normalized) (role : RoleMatch) (r : Recommendation) : Prop :=
  recRoleId r = roleId (Ranker.role role) /\
  recTitle r = title (Ranker.role role) /\
  recFitScore r
  = calculateEnhancedFitScore (Some (nSkills profile))
      (Some (skills (Ranker.role role))) (Some (nInterests profile))
      (Some (Ranker.role role)) /\
  recOverlapSkills r = overlapSkills role /\
  recGapSkills r = gapSkills role /\
  truthy (recWhy r) = true /\
  exists items named,
    getMember (recPlan r) "weeks" = Some (Arr items named) /\ List.length items = 4%nat.

Fixpoint recommendAll (profile : Normalized) (topRoles : list RoleMatch) (n : nat)
    : list Recommendation * nat :=
  match topRoles with
  | [] => ([], n)
  | role :: rest =>
      let '(made, n1) := recommendRole profile role n in
      let '(others, n2) := recommendAll profile rest n1 in
      (match made with Some r => r :: others | None => others end, n2)
  end.

Definition topRolesOf (profile : Normalized) : list RoleMatch :=
  getTopRoleMatches skillAliases calculateEnhancedFitScore roles
    (mkProfile (nSkills profile) (nInterests profile)) 3.

(** Both calls of the round that starts with request [n], the one for the
    explanation and the one for the plan, return a text. *)
Definition answered (n : nat) : bool :=
  match outcome (callGeminiAPI net n) with
  | inl _ => false
  | inr _ =>
      match outcome (callGeminiAPI net (next (callGeminiAPI net n))) with
      | inl _ => false
      | inr _ => true
      end
  end.

Definition generateRecommendations (profile : Normalized) (n : nat)
    : list Recommendation * nat :=
  recommendAll profile (topRolesOf profile) n.

Record Reply := mkReply {
  status : Z;
  error : option string;
  recommendations : list Recommendation
}.

(** The handler of [POST /api/recommend], from the body of the request, the
    result of [getGeminiApiKey()] and the number of the next request. *)
Definition recommend (body : object) (geminiApiKey : option string) (n : nat)
    : Reply * nat :=
  if negb (isValid (validateRequest body))
  then (mkReply 400 (Some "Invalid request") [], n)
  else
    match normalizeProfile skillAliases toNumberOther (prop body "profile") with
    | None =>
        let '(statusCode, errorMessage) := Http.classify typeErrorMessage in
        (mkReply statusCode (Some errorMessage) [], n)
    | Some normalizedProfile =>
        match geminiApiKey with
        | None => (mkReply 500 (Some "AI service not configured") [], n)
        | Some _ =>
            let '(made, n') := generateRecommendations normalizedProfile n in
            if (List.length made =? 0)%nat
            then (mkReply 500 (Some "Failed to generate recommendations") [], n')
            else (mkReply 200 None made, n')
        end
    end.

End Service.

End Orchestrator.

(** ** The shape of a repaired plan *)

Module PlanShape.

Import JsString Js PlanParser.

(** [week[key]] is truthy and passes [test]: the entry is left alone. *)
Definition valid (test : value -> bool) (week : value) (key : string) : bool :=
  match getMember week key with
  | Some current => (truthy current && test current)%bool
  | None => false
  end.

(** The test that the callback of [forEach] makes of a field. *)
Definition testOf (index : nat) (key : string) : value -> bool :=
  if String.eqb key "week" then isWeekNumber index
  else if (String.eqb key "topics" || String.eqb key "practice")%bool then isArray
  else fun _ => true.

Definition weekKeys : list string := ["week"; "topics"; "practice"; "assessment"; "project"].

(** The five fields of a week entry pass their tests. *)
Definition completeWeek (index : nat) (week : value) : bool :=
  forallb (fun key => valid (testOf index key) week key) weekKeys.

End PlanShape.

(** ** The rate limiter of the API client *)

Module RateLimit.

Local Open Scope Z_scope.

(** The times are those of [Date.now()], in milliseconds; the two bounds are
    whole numbers, as the defaults are. *)
Record RateLimiter := mkRateLimiter {
  maxRequests : Z;
  timeWindow : Z;
  requests : list Z
}.

(** [new RateLimiter(maxRequests, timeWindow)] *)
Definition create (maxRequests timeWindow : Z) : RateLimiter :=
  mkRateLimiter maxRequests timeWindow [].

(** [new RateLimiter()] *)
Definition apiRateLimiter : RateLimiter := create 5 60000.

(** [canMakeRequest()] when [Date.now()] gives [now]: the answer and the
    limiter after the call. *)
Definition canMakeRequest (now : Z) (this : RateLimiter) : bool * RateLimiter :=
  let kept := List.filter (fun time => now - time <? timeWindow this) (requests this) in
  if Z.of_nat (List.length kept) <? maxRequests this
  then (true, mkRateLimiter (maxRequests this) (timeWindow this) (kept ++ [now]))
  else (false, mkRateLimiter (maxRequests this) (timeWindow this) kept).

(** [Math.min(...requests)] of an array that is not empty. *)
Definition oldest (first : Z) (rest : list Z) : Z := fold_left Z.min rest first.

(** [getTimeUntilNextRequest()] when [Date.now()] gives [now]. *)
Definition getTimeUntilNextRequest (now : Z) (this : RateLimiter) : Z :=
  match requests this with
  | [] => 0
  | first :: rest => Z.max 0 (timeWindow this - (now - oldest first rest))
  end.

(** The calls of [canMakeRequest] at the times of [clock], one after the
    other: the time and the answer of each, and the limiter at the end. *)
Fixpoint run (clock : list Z) (this : RateLimiter) : list (Z * bool) * RateLimiter :=
  match clock with
  | [] => ([], this)
  | now :: later =>
      let '(answer, this) := canMakeRequest now this in
      let '(answers, this) := run later this in
      ((now, answer) :: answers, this)
  end.

(** The number of calls of the log that were granted at a time from [start]
    on and before [stop]. *)
Definition granted (start stop : Z) (log : list (Z * bool)) : nat :=
  List.length
    (List.filter (fun entry : Z * bool =>
                    (snd entry && (start <=? fst entry) && (fst entry <? stop))%bool) log).

End RateLimit.

(** ** The API client: validation before sending, one request, and the
    retry loop

    What [fetch] and [response.json()] reject with, and what the code
    throws, are error objects with a [name] and a [message]; showing a text
    (by the toast or by [alert]) does not raise. *)

Module Client.

Import JsString Js RequestValidator.

(** [v.length] of a truthy value. *)
Definition lengthOf (v : value) : value :=
  match v with
  | Str s => Num (ofNat (JsString.length s))
  | Arr items _ => Num (ofNat (List.length items))
  | Obj props => prop props "length"
  | _ => Undefined
  end.

(** [v === 0] *)
Definition isZero (v : value) : bool :=
  match v with
  | Num n => eqNumber n (ofZ 0)
  | _ => false
  end.

(** [!name || name.trim().length < 2]; [None] is the [TypeError] of a
    truthy name without a [trim] method. *)
Definition nameTooShort (name : value) : option bool :=
  if negb (truthy name) then Some true
  else match name with
       | Str s => Some (JsString.length (trim s) <? 2)%nat
       | _ => None
       end.

Section Coercion.

(** [ToNumber] of a value that is not a number, as [<] and [>] apply it;
    [None] is the [TypeError] of an object that cannot be converted to a
    primitive value. *)
Variable toNumberOther : value -> option number.

(** [!weeklyTime || weeklyTime < 1 || weeklyTime > 40] *)
Definition outsideHours (weeklyTime : value) : option bool :=
  if negb (truthy weeklyTime) then Some true
  else
    hours ← toNumber toNumberOther weeklyTime;
    if ltNumber hours (ofZ 1) then Some true
    else
      hours ← toNumber toNumberOther weeklyTime;
      Some (ltNumber (ofZ 40) hours).

Definition validateProfileForAPI (profileData : object) : option Validation :=
  let errors := [] in
  tooShort ← nameTooShort (prop profileData "name");
  let errors := pushIf tooShort "Name must be at least 2 characters long" errors in
  let errors :=
    pushIf (negb (truthy (prop profileData "education")))
      "Education level is required" errors in
  let skills := prop profileData "skills" in
  let errors :=
    pushIf (negb (truthy skills) || isZero (lengthOf skills))
      "At least one skill is required" errors in
  let interests := prop profileData "interests" in
  let errors :=
    pushIf (negb (truthy interests) || isZero (lengthOf interests))
      "At least one interest is required" errors in
  outside ← outsideHours (prop profileData "weeklyTime");
  let errors :=
    pushIf outside "Weekly study time must be between 1 and 40 hours" errors in
  let errors :=
    pushIf (negb (truthy (prop profileData "budget")))
      "Budget preference is required" errors in
  let errors :=
    pushIf (negb (truthy (prop profileData "language")))
      "Language preference is required" errors in
  Some (mkValidation (List.length errors =? 0)%nat errors).

End Coercion.

(** An error object: [name] and [message]. *)
Record JsError := mkError { errName : string; errMessage : string }.

(** What is thrown: an error object, or, by [throw lastError] before any
    assignment, a plain value. *)
Inductive Thrown :=
| ThrownError (e : JsError)
| ThrownValue (v : value).

(** The body of a response: [response.json()] resolves or rejects. *)
Inductive Parsed :=
| Data (data : value)
| Unparsable (e : JsError).

(** [fetch] rejects or resolves to a response. *)
Inductive Fetched :=
| Failed (e : JsError)
| Replied (status : Z) (body : Parsed).

(** The [try] block of [getRecommendations]. *)
Definition receive (typeErrorMessage : string) (r : Fetched) : JsError + value :=
  match r with
  | Failed e => inl e
  | Replied status body =>
      if negb (Gemini.ok status)
      then inl (mkError "Error" ("HTTP error! status: " ++ pretty status))
      else match body with
           | Unparsable e => inl e
           | Data data =>
               match getMember data "recommendations" with
               | None => inl (mkError "TypeError" typeErrorMessage)
               | Some recommendations =>
                   if (negb (truthy recommendations) || negb (isArray recommendations))%bool
                   then inl (mkError "Error"
                               "Invalid response format: missing recommendations array")
                   else inr recommendations
               end
           end
  end.

(** The text that the [catch] block shows. *)
Definition failureText (e : JsError) : string :=
  let errorMessage := "Failed to get recommendations. " in
  if (String.eqb (errName e) "TypeError" && includes (errMessage e) "fetch")%bool
  then errorMessage ++ "Please check your internet connection."
  else if includes (errMessage e) "HTTP error! status: 500"
  then errorMessage ++ "Server error. Please try again later."
  else if includes (errMessage e) "HTTP error! status: 429"
  then errorMessage ++ "Too many requests. Please wait a moment and try again."
  else if includes (errMessage e) "HTTP error! status: 400"
  then errorMessage ++ "Invalid request. Please check your profile information."
  else errorMessage ++ "Please try again later.".

(** The page: the texts shown (by the toast or by [alert]), the value of
    [window.currentRecommendations] and the number of requests sent. *)
Record Page := mkPage {
  shown : list string;
  currentRecommendations : option value;
  sent : nat
}.

Section Session.

(** [window.app && window.app.currentUser] *)
Variable authenticated : bool.

(** The message of the [TypeError] of a read on [null]. *)
Variable typeErrorMessage : string.

(** The outcome of the requests to [/api/recommend], in the order in which
    they are sent. *)
Variable net : nat -> Fetched.

(** [getRecommendations(profileData)]: what it throws or returns, and the
    page afterwards. *)
Definition getRecommendations (page : Page) : (Thrown + value) * Page :=
  if negb authenticated then (inr Null, page)
  else
    match receive typeErrorMessage (net (sent page)) with
    | inr recommendations =>
        (inr recommendations,
         mkPage (shown page) (Some recommendations) (S (sent page)))
    | inl e =>
        (inr Null,
         mkPage (shown page ++ [failureText e]) (currentRecommendations page)
           (S (sent page)))
    end.

(** [Math.min(1000 * Math.pow(2, attempt - 1), 10000)] *)
Definition waitTime (attempt : Z) : Z := Z.min (1000 * 2 ^ (attempt - 1)) 10000.

Record Retried := mkRetried {
  result : Thrown + value;
  pageAfter : Page;
  waits : list Z
}.

(** The [for] loop of [getRecommendationsWithRetry]: [remaining] rounds are
    left, [attempt] is the loop variable. *)
Fixpoint rounds (maxRetries : Z) (remaining : nat) (attempt : Z) (page : Page)
    (lastError : option Thrown) (slept : list Z) : Retried :=
  match remaining with
  | O =>
      mkRetried (inl (match lastError with
                      | Some e => e
                      | None => ThrownValue Undefined
                      end)) page slept
  | S remaining' =>
      match getRecommendations page with
      | (inr found, page') =>
          if truthy found then mkRetried (inr found) page' slept
          else rounds maxRetries remaining' (attempt + 1) page' lastError slept
      | (inl error, page') =>
          let slept :=
            if (attempt <? maxRetries)%Z then slept ++ [waitTime attempt] else slept in
          rounds maxRetries remaining' (attempt + 1) page' (Some error) slept
      end
  end.

(** [getRecommendationsWithRetry(profileData, maxRetries)] for a whole
    number of retries. *)
Definition getRecommendationsWithRetry (maxRetries : nat) (page : Page) : Retried :=
  rounds (Z.of_nat maxRetries) maxRetries 1 page None [].

End Session.

End Client.

(** ** The demand score of [/api/trends]

    Exact arithmetic on the rationals, with the special values of the
    runtime. *)

Module Trends.

Import JsString Js RequestValidator.

(** [c * x] for a positive constant [c]. *)
Definition scale (c : Q) (x : number) : number :=
  match x with
  | Finite q => Finite (c * q)
  | _ => x
  end.

(** [a + b] *)
Definition addNumber (a b : number) : number :=
  match a, b with
  | NaN, _ | _, NaN => NaN
  | Finite p, Finite q => Finite (p + q)
  | PosInfinity, NegInfinity | NegInfinity, PosInfinity => NaN
  | PosInfinity, _ | _, PosInfinity => PosInfinity
  | NegInfinity, _ | _, NegInfinity => NegInfinity
  end.

Section Coercion.

(** [Number] of a value that is not a number; [None] is the [TypeError]
    of an object that cannot be converted to a primitive value. *)
Variable toNumberOther : value -> option number.

(** [Number(v || 0)] *)
Definition numberOrZero (v : value) : option number :=
  if truthy v then toNumber toNumberOther v else Some (ofZ 0).

(** [computeDemandScore(d)]; the [catch] turns a [TypeError] (a read on
    [null] or [undefined], a value that cannot be converted) into [null]. *)
Definition computeDemandScore (d : value) : value :=
  let attempt :=
    postingFrequencyNorm ← getMember d "postingFrequencyNorm";
    trendSlopeNorm ← getMember d "trendSlopeNorm";
    salaryIndexNorm ← getMember d "salaryIndexNorm";
    freq ← numberOrZero postingFrequencyNorm;
    trend ← numberOrZero trendSlopeNorm;
    salary ← numberOrZero salaryIndexNorm;
    let score :=
      addNumber (addNumber (scale (45 # 100) freq) (scale (35 # 100) trend))
        (scale (20 # 100) salary) in
    Some (Num (Orchestrator.roundNumber (scale 100 score))) in
  match attempt with
  | Some score => score
  | None => Null
  end.

End Coercion.

(** A normalised indicator: absent (or otherwise falsy), or a number from 0
    to 1. *)
Definition normalised (v : value) : Prop :=
  truthy v = false \/ exists q, v = Num (Finite q) /\ (0 <= q <= 1)%Q.

End Trends.

(** ** Data of [utils.test.js] *)

Module Fixtures.

Import Similarity.

Definition mockUserSkills : list Canon.Token :=
  [Canon.Text "python"; Canon.Text "sql"; Canon.Text "excel"].

Definition mockRoleSkills : list RoleSkill :=
  [mkRoleSkill "python" (Some 1%R); mkRoleSkill "sql" (Some (9 / 10)%R);
   mkRoleSkill "statistics" (Some (8 / 10)%R); mkRoleSkill "tableau" (Some (7 / 10)%R)].

End Fixtures.

(** * Properties *)

(** ** Canonicalisation *)

Module CanonFacts.

Import JsString Canon.

Lemma chars_str (l : list ascii) : chars (str l) = l.
Proof. apply list_ascii_of_string_of_list_ascii. Qed.

Lemma str_chars (s : string) : str (chars s) = s.
Proof. apply string_of_list_ascii_of_string. Qed.

Lemma str_inj (l1 l2 : list ascii) : str l1 = str l2 -> l1 = l2.
Proof. intros H. rewrite <- (chars_str l1), <- (chars_str l2). now rewrite H. Qed.

Lemma lowerChar_idem (c : ascii) : lowerChar (lowerChar c) = lowerChar c.
Proof. destruct c as [[] [] [] [] [] [] [] []]; reflexivity. Qed.

(** After a run of white space has begun, the output does not start with
    white space. *)
Lemma collapseFrom_true_head (l : list ascii) :
  match collapseFrom true l with
  | c :: _ => isSpace c = false
  | [] => True
  end.
Proof.
  induction l as [|c r IH]; simpl; [exact I|].
  destruct (isSpace c) eqn:Hc; [exact IH | exact Hc].
Qed.



Lemma collapseFrom_Forall (P : ascii -> Prop) (inRun : bool) (l : list ascii) :
  P " "%char -> Forall P l -> Forall P (collapseFrom inRun l).
Proof.
  intros Hsp Hl. revert inRun.
  induction Hl as [|c r Hc Hr IH]; intros inRun; simpl; [constructor|].
  destruct (isSpace c); [destruct inRun|]; auto.
Qed.



Lemma stripChars_Forall (P : ascii -> Prop) (l : list ascii) :
  Forall P l -> Forall P (stripChars l).
Proof.
  unfold stripChars. induction 1 as [|c r Hc Hr IH]; simpl; [constructor|].
  destruct (keptChar c); auto.
Qed.


Lemma map_lowerChar_fixed (l : list ascii) :
  Forall (fun c => lowerChar c = c) (map lowerChar l).
Proof. induction l; simpl; constructor; auto using lowerChar_idem. Qed.



(** The texts [a...a !] and [a...a ] under the cleaning steps. *)
Lemma dropSpaces_letter (l : list ascii) : dropSpaces ("a"%char :: l) = "a"%char :: l.
Proof. reflexivity. Qed.

Lemma trimChars_probe (n : nat) :
  trimChars (repeat "a"%char (S n) ++ chars " !") = repeat "a"%char (S n) ++ chars " !".
Proof.
  unfold trimChars. cbn [repeat app]. rewrite dropSpaces_letter.
  change ("a"%char :: repeat "a"%char n ++ chars " !")
    with (repeat "a"%char (S n) ++ chars " !").
  rewrite rev_app_distr. cbn [chars list_ascii_of_string rev app].
  change (dropSpaces ("!"%char :: " "%char :: rev (repeat "a"%char (S n))))
    with ("!"%char :: " "%char :: rev (repeat "a"%char (S n))).
  change ("!"%char :: " "%char :: rev (repeat "a"%char (S n)))
    with (rev [" "%char; "!"%char] ++ rev (repeat "a"%char (S n))).
  now rewrite <- rev_app_distr, rev_involutive.
Qed.

Lemma trimChars_probe_again (n : nat) :
  trimChars (repeat "a"%char (S n) ++ chars " ") = repeat "a"%char (S n).
Proof.
  unfold trimChars. cbn [repeat app]. rewrite dropSpaces_letter.
  change ("a"%char :: repeat "a"%char n ++ chars " ")
    with (repeat "a"%char (S n) ++ chars " ").
  rewrite rev_app_distr, rev_repeat. cbn [chars list_ascii_of_string rev app repeat].
  change (dropSpaces (" "%char :: "a"%char :: repeat "a"%char n))
    with (dropSpaces ("a"%char :: repeat "a"%char n)).
  rewrite dropSpaces_letter.
  change ("a"%char :: repeat "a"%char n) with (repeat "a"%char (S n)).
  apply rev_repeat.
Qed.

Lemma after_trim_letters (n : nat) (tail : list ascii) :
  collapseChars (stripChars (map lowerChar (repeat "a"%char n ++ tail)))
  = repeat "a"%char n ++ collapseChars (stripChars (map lowerChar tail)).
Proof.
  induction n as [|n IH]; [reflexivity|].
  unfold collapseChars, stripChars in *. cbn [repeat app map List.filter].
  change (lowerChar "a") with "a"%char. change (keptChar "a") with true.
  cbn [collapseFrom]. change (isSpace "a") with false. cbv iota.
  f_equal. exact IH.
Qed.

Lemma clean_probe (n : nat) :
  clean (str (repeat "a"%char (S n) ++ chars " !")) = str (repeat "a"%char (S n) ++ chars " ").
Proof.
  unfold clean, cleanChars. rewrite chars_str, trimChars_probe.
  now rewrite after_trim_letters.
Qed.

Lemma clean_probe_again (n : nat) :
  clean (str (repeat "a"%char (S n) ++ chars " ")) = str (repeat "a"%char (S n)).
Proof.
  unfold clean, cleanChars. rewrite chars_str, trimChars_probe_again.
  rewrite <- (app_nil_r (repeat "a"%char (S n))) at 1.
  rewrite after_trim_letters. cbn [map stripChars List.filter collapseChars collapseFrom].
  now rewrite app_nil_r.
Qed.

(** A cleaned text holds no upper-case letter. *)
Lemma cleanChars_lower (l : list ascii) :
  Forall (fun c => lowerChar c = c) (cleanChars l).
Proof.
  unfold cleanChars, collapseChars.
  apply collapseFrom_Forall; [reflexivity|].
  apply stripChars_Forall, map_lowerChar_fixed.
Qed.

Lemma clean_differs (x name : string) :
  forallb (fun c => Ascii.eqb (lowerChar c) c) (chars name) = false ->
  String.eqb (clean x) name = false.
Proof.
  intros Hupper. apply String.eqb_neq. intros Heq.
  assert (Hlower : forallb (fun c => Ascii.eqb (lowerChar c) c) (chars (clean x)) = true).
  { apply List.forallb_forall. intros c Hc. apply Ascii.eqb_eq.
    unfold clean in Hc. rewrite chars_str in Hc.
    pose proof (cleanChars_lower (chars x)) as Hall.
    rewrite List.Forall_forall in Hall. now apply Hall. }
  rewrite Heq in Hlower. congruence.
Qed.

(** Of the names of [Object.prototype] a cleaned text can only be
    [constructor] or [__proto__]. *)
Lemma inherited_clean (x : string) :
  inherited (clean x)
  = (String.eqb (clean x) "constructor" || String.eqb (clean x) "__proto__")%bool.
Proof.
  unfold inherited, objectPrototypeNames. cbn [existsb].
  rewrite (clean_differs x "__defineGetter__"), (clean_differs x "__defineSetter__"),
    (clean_differs x "hasOwnProperty"), (clean_differs x "__lookupGetter__"),
    (clean_differs x "__lookupSetter__"), (clean_differs x "isPrototypeOf"),
    (clean_differs x "propertyIsEnumerable"), (clean_differs x "toString"),
    (clean_differs x "valueOf"), (clean_differs x "toLocaleString") by reflexivity.
  now destruct (String.eqb (clean x) "constructor"), (String.eqb (clean x) "__proto__").
Qed.

(** With a plain alias table a canonical token, used as a key, is no name
    of [Object.prototype]. *)
Lemma toKey_plain (aliases : gmap string string) (t : Token) :
  plainAliases aliases -> inherited (toKey (canonicalizeSkillName aliases t)) = false.
Proof.
  intros Hplain. destruct t as [s| |]; [|reflexivity..].
  cbn [canonicalizeSkillName]. unfold lookupAlias.
  destruct (aliases !! clean s) as [alias|] eqn:Hlook.
  - specialize (Hplain (clean s) alias Hlook).
    now destruct (String.eqb alias EmptyString).
  - destruct (String.eqb (clean s) "constructor") eqn:Hc; [reflexivity|].
    destruct (String.eqb (clean s) "__proto__") eqn:Hp; [reflexivity|].
    cbn [toKey]. now rewrite inherited_clean, Hc, Hp.
Qed.

Lemma length_str (l : list ascii) : String.length (str l) = List.length l.
Proof. induction l as [|c r IH]; simpl; [reflexivity | now rewrite IH]. Qed.

(** A finite table has a longest key. *)
Lemma alias_keys_bounded (aliases : gmap string string) :
  exists bound, forall key, is_Some (aliases !! key) -> (String.length key <= bound)%nat.
Proof.
  induction aliases as [|k v m Hk [bound IH]] using map_ind.
  - exists 0%nat. intros key [w Hw]. now rewrite lookup_empty in Hw.
  - exists (Nat.max bound (String.length k)). intros key Hkey.
    destruct (decide (k = key)) as [<-|Hne]; [lia|].
    rewrite lookup_insert_ne in Hkey by exact Hne. specialize (IH key Hkey). lia.
Qed.

Lemma lookupAlias_fresh (aliases : gmap string string) (n : nat) (tail : list ascii) :
  aliases !! str (repeat "a"%char (S n) ++ tail) = None ->
  lookupAlias aliases (str (repeat "a"%char (S n) ++ tail))
  = Text (str (repeat "a"%char (S n) ++ tail)).
Proof. intros Hfresh. unfold lookupAlias. rewrite Hfresh. reflexivity. Qed.

(** Whatever the alias table holds, some skill name is not canonicalised to
    a fixed point. *)
Lemma canonicalize_never_idempotent (aliases : gmap string string) :
  exists x,
    canonicalizeSkillName aliases (canonicalizeSkillName aliases (Text x))
    <> canonicalizeSkillName aliases (Text x).
Proof.
  destruct (alias_keys_bounded aliases) as [bound Hbound].
  assert (Hfresh : forall tail,
             aliases !! str (repeat "a"%char (S bound) ++ tail) = None).
  { intros tail. destruct (aliases !! _) as [v|] eqn:Hv; [exfalso|reflexivity].
    assert (Hlen : (String.length (str (repeat "a"%char (S bound) ++ tail)) <= bound)%nat)
      by (apply Hbound; eauto).
    rewrite length_str, length_app, repeat_length in Hlen. lia. }
  exists (str (repeat "a"%char (S bound) ++ chars " !")).
  cbn [canonicalizeSkillName].
  rewrite clean_probe, (lookupAlias_fresh aliases bound (chars " ")) by apply Hfresh.
  cbn [canonicalizeSkillName]. rewrite clean_probe_again.
  pose proof (lookupAlias_fresh aliases bound []) as Hbare.
  rewrite app_nil_r in Hbare. rewrite Hbare.
  2:{ pose proof (Hfresh []) as H. now rewrite app_nil_r in H. }
  intros [= Heq%str_inj]. apply (f_equal (@List.length ascii)) in Heq.
  rewrite length_app in Heq. simpl in Heq. lia.
Qed.

(** An alias whose value is itself an alias is resolved one step at a
    time. *)
Lemma canonicalize_alias_chain :
  let aliases : gmap string string := {[ "js" := "ecmascript"; "ecmascript" := "javascript" ]} in
  canonicalizeSkillName aliases (Text "js") = Text "ecmascript" /\
  canonicalizeSkillName aliases (Text "ecmascript") = Text "javascript".
Proof. vm_compute. split; reflexivity. Qed.


(** The names that the alias table inherits: without an alias of its own,
    [constructor] is canonicalised to the function [Object] and [__proto__]
    to [Object.prototype]; neither is a string, and a second call gives the
    empty string. *)
Lemma canonicalize_inherited (aliases : gmap string string) :
  (aliases !! "constructor" = None ->
   canonicalizeSkillName aliases (Text "constructor") = ObjectFunction) /\
  (aliases !! "__proto__" = None ->
   canonicalizeSkillName aliases (Text "__proto__") = ObjectPrototype) /\
  canonicalizeSkillName aliases ObjectFunction = Text EmptyString /\
  canonicalizeSkillName aliases ObjectPrototype = Text EmptyString.
Proof.
  cbn [canonicalizeSkillName]. unfold lookupAlias.
  change (clean "constructor") with "constructor". change (clean "__proto__") with "__proto__".
  refine (conj _ (conj _ (conj eq_refl eq_refl))); intros ->; reflexivity.
Qed.




End CanonFacts.

(** ** Failure classification *)

Module HttpFacts.

Import JsString Http.

(** C8, as stated, fails: a message that names the API key and the quota is
    answered with 500, not with 429. *)
Lemma classify_quota_shadowed :
  includes "API key quota exceeded" "quota" = true /\
  statusCode "API key quota exceeded" <> 429%Z.
Proof. split; [reflexivity|]. vm_compute. discriminate. Qed.

(** C8, amended: the tests are made in the order "API key", "quota",
    "timeout" and the first that succeeds decides: 500 when the message
    contains "API key"; otherwise 429 when it contains "quota"; otherwise 408
    when it contains "timeout"; otherwise 500. *)
Theorem classify_precedence (message : string) :
  (includes message "API key" = true -> statusCode message = 500%Z) /\
  (includes message "API key" = false -> includes message "quota" = true ->
   statusCode message = 429%Z) /\
  (includes message "API key" = false -> includes message "quota" = false ->
   includes message "timeout" = true -> statusCode message = 408%Z) /\
  (includes message "API key" = false -> includes message "quota" = false ->
   includes message "timeout" = false -> statusCode message = 500%Z).
Proof.
  unfold statusCode, classify.
  destruct (includes message "API key"), (includes message "quota"),
    (includes message "timeout"); cbn; repeat split; intros; congruence.
Qed.

Lemma classify_precedence_witness :
  statusCode "Invalid API key" = 500%Z /\
  statusCode "AI service quota exceeded" = 429%Z /\
  statusCode "quota wait timeout" = 429%Z /\
  statusCode "request timeout" = 408%Z /\
  statusCode "AI service internal error" = 500%Z.
Proof.
  refine (conj _ (conj _ (conj _ (conj _ _)))).
  - apply (proj1 (classify_precedence "Invalid API key")). reflexivity.
  - apply (proj1 (proj2 (classify_precedence "AI service quota exceeded"))); reflexivity.
  - apply (proj1 (proj2 (classify_precedence "quota wait timeout"))); reflexivity.
  - apply (proj1 (proj2 (proj2 (classify_precedence "request timeout")))); reflexivity.
  - apply (proj2 (proj2 (proj2 (classify_precedence "AI service internal error"))));
      reflexivity.
Defined.

End HttpFacts.

(** ** Overlap, gap and overlap ratio *)

Module OverlapFacts.

Import Canon Similarity.

Section WithAliases.

Variable skillAliases : gmap string string.

Local Abbreviation canon := (Canon.canonicalizeSkillName skillAliases).

(** C6: the overlap and the gap are disjoint, and together they are the
    canonical skills of the role. *)
Theorem overlap_gap_partition (U : list Token) (R : list RoleSkill) :
  let overlap : gset Token :=
    list_to_set (calculateOverlapSkills skillAliases (Some U) (Some R)) in
  let gap : gset Token :=
    list_to_set (calculateGapSkills skillAliases (Some U) (Some R)) in
  overlap ## gap /\
  overlap ∪ gap = list_to_set (map (fun s => canon (Text (name s))) R).
Proof.
  cbn zeta. unfold calculateOverlapSkills, calculateGapSkills.
  set (us := map canon U). set (rs := map (fun s => canon (Text (name s))) R).
  split.
  - intros x Ho Hg.
    rewrite elem_of_list_to_set, list_elem_of_filter in Ho, Hg. tauto.
  - apply set_eq. intros x.
    rewrite elem_of_union, !elem_of_list_to_set, !list_elem_of_filter.
    destruct (decide (x ∈ us)); tauto.
Qed.

(** The number of user entries found among the role's skills is the size of
    the intersection when the canonical user skills are pairwise distinct,
    and the ratio is then at most 1. *)
Lemma calculateOverlapRatio_distinct (U : list Token) (R : list RoleSkill) :
  U <> [] -> R <> [] ->
  NoDup (map canon U) ->
  let users : gset Token := list_to_set (map canon U) in
  let wanted : gset Token := list_to_set (map (fun s => canon (Text (name s))) R) in
  calculateOverlapRatio skillAliases (Some U) (Some R)
  = (INR (size (users ∩ wanted)) / INR (List.length R))%R /\
  (0 <= calculateOverlapRatio skillAliases (Some U) (Some R) <= 1)%R.
Proof.
  intros HU HR Hnd. cbn zeta. unfold calculateOverlapRatio.
  destruct U as [|u U']; [congruence|]. destruct R as [|r R']; [congruence|].
  cbn [List.length Nat.eqb orb].
  set (us := map canon (u :: U')) in *.
  set (rs := map (fun s => canon (Text (name s))) (r :: R')).
  set (found := filter (fun skill => skill ∈ rs) us).
  assert (Hfound : NoDup found) by (apply NoDup_filter; exact Hnd).
  assert (Hlen : List.length rs = S (List.length R')) by (unfold rs; simpl; now rewrite length_map).
  assert (Hsize : size (list_to_set us ∩ list_to_set rs : gset Token) = List.length found).
  { rewrite <- (size_list_to_set (C := gset Token) found) by exact Hfound.
    f_equal. apply set_eq. intros x.
    rewrite elem_of_intersection, !elem_of_list_to_set.
    unfold found. rewrite list_elem_of_filter. tauto. }
  assert (Hle : (List.length found <= List.length rs)%nat).
  { apply submseteq_length, NoDup_submseteq; [exact Hfound|].
    intros x Hx. unfold found in Hx. apply list_elem_of_filter in Hx. tauto. }
  rewrite Hsize, Hlen. split; [reflexivity|].
  rewrite Hlen in Hle.
  assert (Hpos : (0 < INR (S (List.length R')))%R) by (apply lt_0_INR; lia).
  apply le_INR in Hle. pose proof (pos_INR (List.length found)) as Hnn.
  split.
  - apply Rmult_le_pos; [exact Hnn|]. left. now apply Rinv_0_lt_compat.
  - apply (Rmult_le_reg_r (INR (S (List.length R')))); [exact Hpos|].
    unfold Rdiv. rewrite Rmult_assoc, Rinv_l by lra. lra.
Qed.

(** C3 fails at a user list that names a skill twice: each occurrence is
    counted, and the ratio exceeds 1. *)
Theorem calculateOverlapRatio_duplicates :
  calculateOverlapRatio skillAliases
    (Some [Text "python"; Text "python"]) (Some [mkRoleSkill "python" (Some 1%R)])
  = 2%R.
Proof.
  unfold calculateOverlapRatio. cbn [List.length Nat.eqb orb map name].
  set (t := canon (Text "python")).
  rewrite !filter_cons_True by apply list_elem_of_here.
  rewrite filter_nil. simpl. lra.
Qed.

End WithAliases.

End OverlapFacts.

(** ** Cosine similarity and fit score *)

Module SimilarityFacts.

Import Canon Similarity.

Local Open Scope R_scope.

(** Cauchy-Schwarz, carried through the loop. *)
Lemma cauchy_schwarz_step (d a b x y : R) :
  0 <= a -> 0 <= b -> d * d <= a * b ->
  (d + x * y) * (d + x * y) <= (a + x * x) * (b + y * y).
Proof.
  intros Ha Hb Hd.
  set (p := a * (y * y) + b * (x * x)).
  set (q := 2 * d * (x * y)).
  assert (Hp : 0 <= p).
  { unfold p. apply Rplus_le_le_0_compat; apply Rmult_le_pos;
      auto using Rle_0_sqr. all: apply Rle_0_sqr. }
  assert (Hcross : q <= p).
  { destruct (Rle_lt_dec q p) as [H|H]; [exact H|exfalso].
    assert (H1 : p * p < q * q) by (apply Rmult_le_0_lt_compat; lra).
    assert (H2 : 0 <= (a * (y * y) - b * (x * x)) * (a * (y * y) - b * (x * x)))
      by apply Rle_0_sqr.
    assert (H3 : 0 <= (a * b - d * d) * ((x * y) * (x * y))).
    { apply Rmult_le_pos; [lra | apply Rle_0_sqr]. }
    assert (E1 : p * p
                 = (a * (y * y) - b * (x * x)) * (a * (y * y) - b * (x * x))
                   + 4 * (a * b * ((x * y) * (x * y)))) by (unfold p; ring).
    assert (E2 : q * q
                 = 4 * (a * b * ((x * y) * (x * y)))
                   - 4 * ((a * b - d * d) * ((x * y) * (x * y)))) by (unfold q; ring).
    lra. }
  replace ((d + x * y) * (d + x * y))
    with (d * d + q + (x * y) * (x * y)) by (unfold q; ring).
  replace ((a + x * x) * (b + y * y))
    with (a * b + p + (x * y) * (x * y)) by (unfold p; ring).
  lra.
Qed.

Lemma isZero_Some (x : R) : isZero (Some x) = true <-> x = 0.
Proof. cbn. destruct (Req_dec_T x 0); split; intros; congruence. Qed.


Section Loop.

Variables vectorA vectorB : gmap string R.

Local Abbreviation run := (foldl (accumulate vectorA vectorB)).

(** Every key of the list has a number in both vectors. *)
Local Abbreviation numbers keys :=
  (forall key, key ∈ keys ->
     exists x y, valueAt vectorA key = Some x /\ valueAt vectorB key = Some y).

Lemma accumulate_numbers (d a b x y : R) (key : string) :
  valueAt vectorA key = Some x -> valueAt vectorB key = Some y ->
  accumulate vectorA vectorB (Some d, Some a, Some b) key
  = (Some (d + x * y), Some (a + x * x), Some (b + y * y)).
Proof. intros Hx Hy. unfold accumulate. now rewrite Hx, Hy. Qed.

(** When every key has a number in both vectors the three sums are numbers,
    and an invariant of the loop body holds of them. *)
Lemma loop_real (P : R * R * R -> Prop) (keys : list string) :
  numbers keys ->
  (forall d a b key x y,
     key ∈ keys -> valueAt vectorA key = Some x -> valueAt vectorB key = Some y ->
     P (d, a, b) -> P (d + x * y, a + x * x, b + y * y)) ->
  forall d a b, P (d, a, b) ->
  exists d' a' b',
    run (Some d, Some a, Some b) keys = (Some d', Some a', Some b') /\ P (d', a', b').
Proof.
  induction keys as [|k r IH]; intros Hnum Hstep d a b Hacc.
  - exists d, a, b. split; [reflexivity | exact Hacc].
  - destruct (Hnum k) as (x & y & Hx & Hy); [left|].
    cbn [foldl]. rewrite (accumulate_numbers d a b x y k Hx Hy).
    apply IH.
    + intros key Hin. apply Hnum. now right.
    + intros d0 a0 b0 key x0 y0 Hin. apply Hstep. now right.
    + apply (Hstep d a b k x y); [left | exact Hx | exact Hy | exact Hacc].
Qed.


End Loop.


(** A vector with plain keys has a number at every name that is no name of
    [Object.prototype]. *)
Lemma valueAt_plain (vector : gmap string R) (key : string) :
  inherited key = false -> exists x, valueAt vector key = Some x.
Proof.
  intros Hkey. unfold valueAt. destruct (vector !! key) as [v|]; [eauto|].
  rewrite Hkey. eauto.
Qed.

Lemma allKeys_plain (vectorA vectorB : gmap string R) (key : string) :
  plainKeys vectorA -> plainKeys vectorB ->
  key ∈ allKeys vectorA vectorB ->
  exists x y, valueAt vectorA key = Some x /\ valueAt vectorB key = Some y.
Proof.
  intros HA HB Hin. unfold allKeys in Hin.
  apply elem_of_elements, elem_of_union in Hin.
  assert (Hkey : inherited key = false).
  { destruct Hin as [Hin|Hin]; apply elem_of_dom in Hin; [now apply HA | now apply HB]. }
  destruct (valueAt_plain vectorA key Hkey) as [x Hx].
  destruct (valueAt_plain vectorB key Hkey) as [y Hy]. eauto.
Qed.


(** The value of the similarity from the three sums, when they are
    numbers. *)
Lemma cosineSimilarity_sums (vectorA vectorB : gmap string R) (d a b : R) :
  sums vectorA vectorB = (Some d, Some a, Some b) ->
  cosineSimilarity vectorA vectorB
  = if (isZero (Some (sqrt a)) || isZero (Some (sqrt b)))%bool then Some 0
    else Some (d / (sqrt a * sqrt b)).
Proof.
  intros Hsums.
  unfold cosineSimilarity, cosineOutcome, magnitudeA, magnitudeB, dotProduct.
  rewrite Hsums. cbn [fst snd fmap option_fmap option_map].
  now destruct (isZero (Some (sqrt a)) || isZero (Some (sqrt b)))%bool.
Qed.





(** With plain keys and non-negative weights the similarity is a number
    between 0 and 1. *)
Lemma cosineSimilarity_unit_interval (vectorA vectorB : gmap string R) :
  plainKeys vectorA -> plainKeys vectorB ->
  (forall key v, vectorA !! key = Some v -> 0 <= v) ->
  (forall key v, vectorB !! key = Some v -> 0 <= v) ->
  exists c, cosineSimilarity vectorA vectorB = Some c /\ 0 <= c <= 1.
Proof.
  intros HA HB HposA HposB.
  assert (Hnonneg : forall (vector : gmap string R) key x,
            (forall k v, vector !! k = Some v -> 0 <= v) ->
            valueAt vector key = Some x -> 0 <= x).
  { intros vector key x Hpos. unfold valueAt.
    destruct (vector !! key) as [v|] eqn:E.
    - intros [= <-]. eauto.
    - destruct (inherited key); [discriminate|]. intros [= <-]. lra. }
  destruct (loop_real vectorA vectorB
              (fun '(d, a, b) => 0 <= a /\ 0 <= b /\ d * d <= a * b /\ 0 <= d)
              (allKeys vectorA vectorB) (fun key => allKeys_plain _ _ key HA HB))
    with (d := 0) (a := 0) (b := 0) as (d & a & b & Hrun & Ha & Hb & Hcs & Hd).
  { intros d a b key x y _ Hx Hy (Ha & Hb & Hcs & Hd).
    pose proof (Hnonneg _ _ _ HposA Hx). pose proof (Hnonneg _ _ _ HposB Hy).
    repeat split; [nra | nra | now apply cauchy_schwarz_step | nra]. }
  { lra. }
  rewrite (cosineSimilarity_sums vectorA vectorB d a b Hrun). cbn [isZero].
  destruct (Req_dec_T (sqrt a) 0) as [|HmA]; [exists 0; split; [reflexivity|lra]|].
  destruct (Req_dec_T (sqrt b) 0) as [|HmB]; [exists 0; split; [reflexivity|lra]|].
  cbn [orb]. eexists. split; [reflexivity|].
  assert (HsA : 0 < sqrt a) by (pose proof (sqrt_pos a); lra).
  assert (HsB : 0 < sqrt b) by (pose proof (sqrt_pos b); lra).
  assert (Hdiv : 0 < sqrt a * sqrt b) by now apply Rmult_lt_0_compat.
  assert (Hle : d <= sqrt a * sqrt b).
  { rewrite <- sqrt_mult by assumption.
    rewrite <- (sqrt_square d) by assumption.
    now apply sqrt_le_1_alt. }
  split.
  - apply Rmult_le_pos; [exact Hd|]. left. now apply Rinv_0_lt_compat.
  - apply (Rmult_le_reg_r (sqrt a * sqrt b)); [exact Hdiv|].
    unfold Rdiv. rewrite Rmult_assoc, Rinv_l by lra. lra.
Qed.

Lemma Math_round_bounds (x : R) (lo hi : Z) :
  IZR lo <= x <= IZR hi -> (lo <= Math_round x <= hi)%Z.
Proof.
  intros [Hlo Hhi]. unfold Math_round.
  destruct (base_Int_part (x + / 2)) as [Hfloor Hfrac].
  split.
  - assert (H : IZR (lo - 1) < IZR (Int_part (x + / 2))).
    { rewrite minus_IZR. lra. }
    apply lt_IZR in H. lia.
  - assert (H : IZR (Int_part (x + / 2)) < IZR (hi + 1)).
    { rewrite plus_IZR. lra. }
    apply lt_IZR in H. lia.
Qed.

Lemma foldl_preserves {A B : Type} (P : A -> Prop) (f : A -> B -> A) (l : list B) :
  (forall a x, x ∈ l -> P a -> P (f a x)) -> forall a, P a -> P (foldl f a l).
Proof.
  induction l as [|x r IH]; intros Hf a Ha; simpl; [exact Ha|].
  apply IH.
  - intros a' y Hy. apply Hf. now right.
  - apply Hf; [left | exact Ha].
Qed.

(** What an assignment leaves at a key. *)
Lemma assign_lookup (vector : gmap string R) (k key : string) (v w : R) :
  assign vector k v !! key = Some w ->
  (k = key /\ w = v /\ k <> "__proto__") \/ vector !! key = Some w.
Proof.
  unfold assign. destruct (String.eqb k "__proto__") eqn:E; [now right|].
  apply String.eqb_neq in E. rewrite lookup_insert. case_decide.
  - intros [= <-]. left. auto.
  - now right.
Qed.

Section WithAliases.

Variable skillAliases : gmap string string.

Hypothesis plain : plainAliases skillAliases.

Lemma normalizeSkills_entries (skills : list Token) (key : string) (v : R) :
  normalizeSkills skillAliases skills !! key = Some v ->
  inherited key = false /\ v = 1.
Proof.
  unfold normalizeSkills. revert key v.
  apply (foldl_preserves
           (fun m : gmap string R =>
              forall key v, m !! key = Some v -> inherited key = false /\ v = 1)).
  - intros m skill _ Hm key v.
    destruct (hasLength _); [|apply Hm].
    intros [(<- & -> & _) | H]%assign_lookup; [|now apply Hm].
    split; [now apply CanonFacts.toKey_plain | reflexivity].
  - intros key v. now rewrite lookup_empty.
Qed.

Lemma roleVector_entries (roleSkills : list RoleSkill) (key : string) (v : R) :
  (forall skill w, skill ∈ roleSkills -> weight skill = Some w -> 0 <= w) ->
  roleVector skillAliases roleSkills !! key = Some v ->
  inherited key = false /\ 0 <= v.
Proof.
  intros Hw. unfold roleVector. revert key v.
  apply (foldl_preserves
           (fun m : gmap string R =>
              forall key v, m !! key = Some v -> inherited key = false /\ 0 <= v)).
  - intros m skill Hin Hm key v.
    intros [(<- & -> & _) | H]%assign_lookup; [|now apply Hm].
    split; [now apply CanonFacts.toKey_plain|].
    unfold weightOrDefault. destruct (weight skill) as [w|] eqn:Hweight; [|lra].
    destruct (Req_dec_T w 0); [lra|]. eapply Hw; eauto.
  - intros key v. now rewrite lookup_empty.
Qed.





(** The similarity inside [calculateFitScore] is a number between 0 and 1
    when no role weight is negative. *)
Lemma fit_similarity (us : list Token) (rs : list RoleSkill) :
  (forall skill w, skill ∈ rs -> weight skill = Some w -> 0 <= w) ->
  exists c,
    cosineSimilarity (normalizeSkills skillAliases us) (roleVector skillAliases rs) = Some c
    /\ 0 <= c <= 1.
Proof.
  intros Hw. apply cosineSimilarity_unit_interval.
  - intros key [v Hv]. now apply normalizeSkills_entries in Hv.
  - intros key [v Hv]. now apply (roleVector_entries rs key v Hw) in Hv.
  - intros key v Hv. apply normalizeSkills_entries in Hv as [_ ->]. lra.
  - intros key v Hv. now apply (roleVector_entries rs key v Hw) in Hv.
Qed.

(** In exact arithmetic, with a plain alias table and no negative role
    weight, the fit score is a whole number between 0 and 100. *)
Lemma calculateFitScore_percent
    (userSkills : option (list Token)) (roleSkills : option (list RoleSkill)) :
  (forall rs skill w,
     roleSkills = Some rs -> skill ∈ rs -> weight skill = Some w -> 0 <= w) ->
  exists fit, calculateFitScore skillAliases userSkills roleSkills = Some fit
              /\ (0 <= fit <= 100)%Z.
Proof.
  intros Hweights. unfold calculateFitScore.
  destruct userSkills as [us|]; [|exists 0%Z; split; [reflexivity|lia]].
  destruct roleSkills as [rs|]; [|exists 0%Z; split; [reflexivity|lia]].
  destruct (_ || _)%bool; [exists 0%Z; split; [reflexivity|lia]|].
  destruct (fit_similarity us rs) as (c & -> & Hc).
  { intros skill w. now apply Hweights. }
  cbn. eexists. split; [reflexivity|]. apply Math_round_bounds. lra.
Qed.

End WithAliases.

(** Whatever the alias table and the weights, the fit score is 0 when
    either list is empty or absent. *)
Lemma calculateFitScore_empty (aliases : gmap string string)
    (userSkills : option (list Token)) (roleSkills : option (list RoleSkill)) :
  userSkills = None \/ userSkills = Some [] \/
  roleSkills = None \/ roleSkills = Some [] ->
  calculateFitScore aliases userSkills roleSkills = Some 0%Z.
Proof.
  unfold calculateFitScore.
  intros [-> | [-> | [-> | ->]]]; try reflexivity.
  - now destruct roleSkills.
  - now destruct userSkills.
  - destruct userSkills as [us|]; [|reflexivity].
    destruct (List.length us =? 0)%nat; reflexivity.
Qed.

(** Two vectors on one and the same key. *)
Lemma cosineSimilarity_single (key : string) (a b : R) :
  a <> 0 -> b <> 0 ->
  cosineSimilarity {[ key := a ]} {[ key := b ]}
  = Some (a * b / (sqrt (a * a) * sqrt (b * b))).
Proof.
  intros Ha Hb.
  assert (Hsums : sums {[ key := a ]} {[ key := b ]}
                  = (Some (0 + a * b), Some (0 + a * a), Some (0 + b * b))).
  { unfold sums, allKeys.
    rewrite !dom_singleton_L, union_idemp_L, elements_singleton.
    cbn [foldl accumulate]. unfold valueAt. rewrite !lookup_singleton_eq. reflexivity. }
  rewrite (cosineSimilarity_sums _ _ _ _ _ Hsums). rewrite !Rplus_0_l.
  assert (HsA : sqrt (a * a) <> 0).
  { intros H%sqrt_eq_0; [|apply Rle_0_sqr]. apply Rmult_integral in H. tauto. }
  assert (HsB : sqrt (b * b) <> 0).
  { intros H%sqrt_eq_0; [|apply Rle_0_sqr]. apply Rmult_integral in H. tauto. }
  cbn [isZero].
  destruct (Req_dec_T (sqrt (a * a)) 0); [tauto|].
  destruct (Req_dec_T (sqrt (b * b)) 0); [tauto|].
  reflexivity.
Qed.

(** C9: the similarity of the vectors [{constructor: 1}] and [{python: 1}],
    which have no common key, is [NaN] and not 0: the loop reads
    [Object.prototype.constructor] as the second vector's value at
    [constructor]. *)
Theorem cosineSimilarity_inherited_key :
  dom ({[ "constructor" := 1 ]} : gmap string R) ## dom ({[ "python" := 1 ]} : gmap string R) /\
  cosineSimilarity {[ "constructor" := 1 ]} {[ "python" := 1 ]} = NaN.
Proof.
  split.
  - rewrite !dom_singleton_L. apply disjoint_singleton_l.
    rewrite elem_of_singleton. discriminate.
  - assert (HA1 : valueAt {[ "constructor" := 1 ]} "constructor" = Some 1).
    { unfold valueAt. now rewrite lookup_singleton_eq. }
    assert (HA2 : valueAt {[ "constructor" := 1 ]} "python" = Some 0).
    { unfold valueAt. now rewrite lookup_singleton_ne. }
    assert (HB1 : valueAt {[ "python" := 1 ]} "constructor" = NaN).
    { unfold valueAt. now rewrite lookup_singleton_ne. }
    assert (HB2 : valueAt {[ "python" := 1 ]} "python" = Some 1).
    { unfold valueAt. now rewrite lookup_singleton_eq. }
    assert (Hkeys : allKeys {[ "constructor" := 1 ]} {[ "python" := 1 ]}
                    = ["constructor"; "python"]) by (vm_compute; reflexivity).
    unfold cosineSimilarity, cosineOutcome, magnitudeA, magnitudeB, dotProduct, sums.
    rewrite Hkeys. cbn [foldl accumulate]. rewrite HA1, HA2, HB1, HB2.
    cbn. destruct (Req_dec_T (sqrt (0 + 1 * 1 + 0 * 0)) 0) as [Hz|_]; [|reflexivity].
    exfalso. replace (0 + 1 * 1 + 0 * 0) with 1 in Hz by lra. rewrite sqrt_1 in Hz. lra.
Qed.

(** In exact arithmetic too a role skill of negative weight gives the
    similarity -1 and the score -100. *)
Lemma calculateFitScore_negative_weight :
  calculateFitScore ∅ (Some [Text "python"]) (Some [mkRoleSkill "python" (Some (-1))])
  = Some (-100)%Z.
Proof.
  unfold calculateFitScore, normalizeSkills, roleVector, weightOrDefault.
  cbn [List.length Nat.eqb orb foldl name weight].
  change (Canon.canonicalizeSkillName ∅ (Text "python")) with (Text "python").
  change (hasLength (Text "python")) with true. cbv iota.
  destruct (Req_dec_T (-1) 0) as [Hz|_]; [lra|].
  change (assign ∅ (toKey (Text "python")) 1) with ({[ "python" := 1 ]} : gmap string R).
  change (assign ∅ (toKey (Text "python")) (-1)) with ({[ "python" := -1 ]} : gmap string R).
  rewrite cosineSimilarity_single by lra.
  replace (1 * 1) with 1 by lra. replace (-1 * -1) with 1 by lra. rewrite sqrt_1.
  cbn. f_equal. unfold Math_round. symmetry. apply Int_part_spec. simpl. lra.
Qed.

End SimilarityFacts.

(** ** The fit score on binary64 numbers *)

Module DoublesFacts.

Import Canon Doubles.
Import PrimFloat.

(** C5: with the two role weights 1e308 (the double nearest to it) the dot
    product and the role's magnitude overflow to infinity, their quotient is
    [NaN], and so is the fit score; with the role weight -1 the score is
    -100.  (With weights 1 and 0.5 the same function gives 63.) *)
Theorem calculateFitScore_out_of_range :
  let huge := 0x1.1ccf385ebc8ap+1023%float in
  PrimFloat.is_nan
    (calculateFitScore ∅ (Some [Text "python"; Text "sql"])
       (Some [mkRoleSkill "python" (Some huge); mkRoleSkill "sql" (Some huge)])) = true /\
  calculateFitScore ∅ (Some [Text "python"])
    (Some [mkRoleSkill "python" (Some (-1)%float)]) = (-100)%float /\
  calculateFitScore ∅ (Some [Text "python"; Text "excel"])
    (Some [mkRoleSkill "python" (Some 1%float); mkRoleSkill "sql" (Some 0.5%float)])
  = 63%float.
Proof. vm_compute. repeat split. Qed.

End DoublesFacts.

(** ** The stable sort *)

Module SortFacts.

Import Ranker.

Local Open Scope Z_scope.

Lemma insertSorted_perm {A : Type} (compare : A -> A -> Z) (x : A) (l : list A) :
  insertSorted compare x l ≡ₚ x :: l.
Proof.
  induction l as [|y r IH]; simpl; [reflexivity|].
  destruct (0 <? compare x y); [|reflexivity].
  rewrite IH. apply perm_swap.
Qed.

Lemma sortBy_perm {A : Type} (compare : A -> A -> Z) (l : list A) :
  sortBy compare l ≡ₚ l.
Proof.
  induction l as [|x r IH]; simpl; [reflexivity|].
  rewrite insertSorted_perm. now rewrite IH.
Qed.

(** The sort only asks the comparator about elements of the list. *)
Lemma insertSorted_ext {A : Type} (c1 c2 : A -> A -> Z) (x : A) (l : list A) :
  (forall y, y ∈ l -> c1 x y = c2 x y) -> insertSorted c1 x l = insertSorted c2 x l.
Proof.
  induction l as [|y r IH]; intros Hc; simpl; [reflexivity|].
  rewrite (Hc y) by left. rewrite IH; [reflexivity|].
  intros z Hz. apply Hc. now right.
Qed.

Lemma sortBy_ext {A : Type} (c1 c2 : A -> A -> Z) (l : list A) :
  (forall x y, x ∈ l -> y ∈ l -> c1 x y = c2 x y) -> sortBy c1 l = sortBy c2 l.
Proof.
  induction l as [|x r IH]; intros Hc; simpl; [reflexivity|].
  rewrite IH by (intros a b Ha Hb; apply Hc; now right).
  apply insertSorted_ext. intros y Hy.
  apply Hc; [left|]. right. now rewrite sortBy_perm in Hy.
Qed.

Section ByKey.

Context {A : Type} (key : A -> Z).

Local Abbreviation byKey := (fun a b : A => key b - key a).
Local Abbreviation keyDescending := (fun a b : A => key b <= key a).

Lemma insertSorted_key_sorted (x : A) (l : list A) :
  StronglySorted keyDescending l -> StronglySorted keyDescending (insertSorted byKey x l).
Proof.
  induction 1 as [|y r Hr IH Hy]; simpl.
  - repeat constructor.
  - destruct (0 <? key y - key x) eqn:Hcmp.
    + apply Z.ltb_lt in Hcmp. constructor; [exact IH|].
      rewrite insertSorted_perm. constructor; [lia | exact Hy].
    + apply Z.ltb_ge in Hcmp. constructor; [now constructor|].
      constructor; [lia|].
      eapply Forall_impl; [exact Hy|]. cbn. intros z Hz. lia.
Qed.

Lemma sortBy_key_sorted (l : list A) : StronglySorted keyDescending (sortBy byKey l).
Proof.
  induction l as [|x r IH]; simpl; [constructor|]. now apply insertSorted_key_sorted.
Qed.

Lemma sorted_split (l1 l2 : list A) :
  StronglySorted keyDescending (l1 ++ l2) ->
  StronglySorted keyDescending l1 /\
  forall x y, x ∈ l1 -> y ∈ l2 -> key y <= key x.
Proof.
  induction l1 as [|x r IH]; simpl; intros Hs.
  - split; [constructor|]. intros x y Hx. now apply not_elem_of_nil in Hx.
  - apply StronglySorted_inv in Hs as [Hr Hx].
    destruct (IH Hr) as [Hr1 Hr2].
    apply Forall_app in Hx as [Hx1 Hx2].
    split; [now constructor|].
    intros a b Ha Hb. apply elem_of_cons in Ha as [->|Ha]; [|now apply Hr2].
    rewrite Forall_forall in Hx2. now apply Hx2.
Qed.



End ByKey.

End SortFacts.

(** ** Ranking *)

Module RankerFacts.

Import Canon Similarity Ranker.

Local Open Scope Z_scope.

Local Abbreviation value := (fun m : RoleMatch => default 0 (score m)).
Local Abbreviation byValue := (fun a b : RoleMatch => value b - value a).
Local Abbreviation scored s := (fun m : RoleMatch => score m = Some s).
Local Abbreviation descending :=
  (fun a b : RoleMatch =>
     exists sa sb, score a = Some sa /\ score b = Some sb /\ sb <= sa).
Local Abbreviation numbers l := (Forall (fun m : RoleMatch => is_Some (score m)) l).




Section WithScore.

Variable skillAliases : gmap string string.
Variable calculateEnhancedFitScore :
  option (list Token) -> option (list RoleSkill) -> option (list string) -> option Role
  -> option Z.
Variable roles : list Role.

Local Abbreviation roleScores := (roleScores skillAliases calculateEnhancedFitScore roles).
Local Abbreviation getTopRoleMatches :=
  (getTopRoleMatches skillAliases calculateEnhancedFitScore roles).

(** Every candidate is the match that the loop body builds for a role of
    the catalog. *)
Lemma roleScores_elem (profile : Profile) (m : RoleMatch) :
  m ∈ roleScores profile ->
  role m ∈ roles /\
  score m = calculateEnhancedFitScore
              (Some (profileSkills profile)) (Some (skills (role m)))
              (Some (profileInterests profile)) (Some (role m)) /\
  overlapSkills m = calculateOverlapSkills skillAliases
                      (Some (profileSkills profile)) (Some (skills (role m))) /\
  gapSkills m = calculateGapSkills skillAliases
                  (Some (profileSkills profile)) (Some (skills (role m))).
Proof.
  unfold Ranker.roleScores. intros (r & -> & Hr)%list_elem_of_fmap.
  cbn. auto.
Qed.


End WithScore.


End RankerFacts.

(** ** Profile cleaning *)

Module ProfileFacts.

Import Js ProfileCleaner.

Lemma getOwn_setOwn_eq (o : object) (key : string) (v : value) :
  getOwn (setOwn o key v) key = Some v.
Proof.
  induction o as [|[k w] rest IH]; simpl.
  - now rewrite String.eqb_refl.
  - destruct (String.eqb k key) eqn:Hk; simpl; rewrite Hk; [reflexivity | exact IH].
Qed.

Lemma getOwn_setOwn_ne (o : object) (key key' : string) (v : value) :
  key <> key' -> getOwn (setOwn o key v) key' = getOwn o key'.
Proof.
  intros Hne. induction o as [|[k w] rest IH]; simpl.
  - apply String.eqb_neq in Hne. now rewrite Hne.
  - destruct (String.eqb k key) eqn:Hk; simpl.
    + apply String.eqb_eq in Hk. subst k.
      apply String.eqb_neq in Hne. now rewrite Hne.
    + destruct (String.eqb k key'); [reflexivity | exact IH].
Qed.

Lemma prop_setOwn_eq (o : object) (key : string) (v : value) :
  prop (setOwn o key v) key = v.
Proof. unfold prop. now rewrite getOwn_setOwn_eq. Qed.

Lemma prop_getOwn (o o' : object) (key : string) :
  getOwn o key = getOwn o' key -> prop o key = prop o' key.
Proof. unfold prop. now intros ->. Qed.

Section WithAliases.

Variable skillAliases : gmap string string.

Lemma cleanList_length (limit : nat) (items entries : list value) :
  cleanList skillAliases limit items = Some entries -> (List.length entries <= limit)%nat.
Proof.
  unfold cleanList. destruct (mapM _ items) as [sanitized|]; [|discriminate].
  intros [= <-]. rewrite length_map. apply firstn_le_length.
Qed.

(** The three kinds of step, away from their own key. *)
Lemma cleanArrayField_other (key key' : string) (limit : nat) (o o' : object) :
  key <> key' -> cleanArrayField skillAliases key limit o = Some o' ->
  getOwn o' key' = getOwn o key'.
Proof.
  intros Hne. unfold cleanArrayField.
  destruct (prop o key); try (now intros [= <-]).
  destruct (cleanList _ _ _) as [entries|]; [|discriminate].
  intros [= <-]. now apply getOwn_setOwn_ne.
Qed.

Lemma clampWeeklyTime_other (key' : string) (o : object) :
  "weeklyTime" <> key' -> getOwn (clampWeeklyTime o) key' = getOwn o key'.
Proof.
  intros Hne. unfold clampWeeklyTime.
  destruct (prop o "weeklyTime"); try reflexivity. now apply getOwn_setOwn_ne.
Qed.

Lemma coerceEnum_other (key key' : string) (valid : list string) (fallback : string)
    (o : object) :
  key <> key' -> getOwn (coerceEnum key valid fallback o) key' = getOwn o key'.
Proof.
  intros Hne. unfold coerceEnum.
  destruct (includesValue valid (prop o key)); [reflexivity|]. now apply getOwn_setOwn_ne.
Qed.

(** The same steps at their own key. *)
Lemma cleanArrayField_own (key : string) (limit : nat) (o o' : object) :
  cleanArrayField skillAliases key limit o = Some o' ->
  (exists items named entries,
     prop o key = Arr items named /\
     cleanList skillAliases limit items = Some entries /\
     prop o' key = Arr entries []) \/
  ((forall items named, prop o key <> Arr items named) /\ o' = o).
Proof.
  unfold cleanArrayField.
  destruct (prop o key) eqn:Hp;
    try (intros [= <-]; right; split; [congruence | reflexivity]).
  destruct (cleanList _ _ _) as [entries|] eqn:Hclean; [|discriminate].
  intros [= <-]. left. eexists _, _, _.
  split; [reflexivity|]. split; [exact Hclean|]. apply prop_setOwn_eq.
Qed.

Lemma includesValue_member (valid : list string) (v : value) :
  includesValue valid v = true -> exists s, v = Str s /\ s ∈ valid.
Proof.
  destruct v; try discriminate. cbn. intros H.
  apply existsb_exists in H as (x & Hx & Heq). apply String.eqb_eq in Heq. subst x.
  exists s. split; [reflexivity|]. now apply list_elem_of_In.
Qed.

Lemma coerceEnum_own (key : string) (valid : list string) (fallback : string) (o : object) :
  fallback ∈ valid ->
  (exists s, prop (coerceEnum key valid fallback o) key = Str s /\ s ∈ valid) /\
  (includesValue valid (prop o key) = false ->
   prop (coerceEnum key valid fallback o) key = Str fallback) /\
  (includesValue valid (prop o key) = true -> coerceEnum key valid fallback o = o).
Proof.
  intros Hfb. unfold coerceEnum.
  destruct (includesValue valid (prop o key)) eqn:Hinc.
  - repeat split; try discriminate. now apply includesValue_member.
  - rewrite prop_setOwn_eq. repeat split; try discriminate. eauto.
Qed.

(** A run that returns went through the two array steps. *)
Lemma validateAndCleanProfile_steps (profile cleaned : object) :
  validateAndCleanProfile skillAliases profile = Some cleaned ->
  exists p1 p2,
    cleanArrayField skillAliases "skills" 20 profile = Some p1 /\
    cleanArrayField skillAliases "interests" 10 p1 = Some p2 /\
    cleaned = coerceEnum "language" validLanguage "en"
                (coerceEnum "budget" validBudget "free"
                   (coerceEnum "education" validEducation "Other"
                      (clampWeeklyTime p2))).
Proof.
  unfold validateAndCleanProfile.
  destruct (cleanArrayField skillAliases "skills" 20 profile) as [p1|]; [|discriminate].
  cbn [mbind option_bind].
  destruct (cleanArrayField skillAliases "interests" 10 p1) as [p2|] eqn:H2; [|discriminate].
  cbn [mbind option_bind]. intros [= <-]. exists p1, p2. auto.
Qed.

(** The entries of an array that the cleaning accepts: no string among
    them has a canonical form that is no string. *)
Lemma cleanList_returns (limit : nat) (items : list value) :
  (forall s, Str s ∈ items ->
     exists canonical, Canon.canonicalizeSkillName skillAliases (Canon.Text s)
                       = Canon.Text canonical) ->
  is_Some (cleanList skillAliases limit items).
Proof.
  intros Hitems. unfold cleanList.
  assert (Hsome : is_Some (mapM (sanitizeSkillValue skillAliases) items)).
  { apply mapM_is_Some, Forall_forall. intros v Hv.
    destruct v; try (cbn; eauto; fail).
    destruct (Hitems s Hv) as [canonical Hc].
    cbn [compose sanitizeSkillValue]. unfold Canon.sanitizeSkill. rewrite Hc. eauto. }
  destruct Hsome as [sanitized ->]. cbn. eauto.
Qed.

Lemma cleanArrayField_returns (key : string) (limit : nat) (o : object) :
  (forall items named s,
     prop o key = Arr items named -> Str s ∈ items ->
     exists canonical, Canon.canonicalizeSkillName skillAliases (Canon.Text s)
                       = Canon.Text canonical) ->
  is_Some (cleanArrayField skillAliases key limit o).
Proof.
  intros Hitems. unfold cleanArrayField.
  destruct (prop o key) eqn:Hp; eauto.
  destruct (cleanList_returns limit items) as [entries ->]; [|cbn; eauto].
  intros s Hs. eapply Hitems; eauto.
Qed.

Ltac other_steps :=
  repeat first
    [ rewrite coerceEnum_other by discriminate
    | rewrite clampWeeklyTime_other by discriminate ].

(** X32: whenever the cleaning returns: at most 20 skills and 10 interests,
    and the three enumerated fields hold a member of their enumeration, the
    documented default when the input was no member.  It returns when no
    string of the two arrays has a canonical form that is no string. *)
Theorem validateAndCleanProfile_bounds (profile : object) :
  ((forall key items named s,
      key ∈ ["skills"; "interests"] ->
      prop profile key = Arr items named -> Str s ∈ items ->
      exists canonical, Canon.canonicalizeSkillName skillAliases (Canon.Text s)
                        = Canon.Text canonical) ->
   is_Some (validateAndCleanProfile skillAliases profile)) /\
  forall cleaned,
    validateAndCleanProfile skillAliases profile = Some cleaned ->
    (forall items named,
       prop cleaned "skills" = Arr items named -> (List.length items <= 20)%nat) /\
    (forall items named,
       prop cleaned "interests" = Arr items named -> (List.length items <= 10)%nat) /\
    (exists e, prop cleaned "education" = Str e /\ e ∈ validEducation) /\
    (exists b, prop cleaned "budget" = Str b /\ b ∈ validBudget) /\
    (exists l, prop cleaned "language" = Str l /\ l ∈ validLanguage) /\
    (includesValue validEducation (prop profile "education") = false ->
     prop cleaned "education" = Str "Other") /\
    (includesValue validBudget (prop profile "budget") = false ->
     prop cleaned "budget" = Str "free") /\
    (includesValue validLanguage (prop profile "language") = false ->
     prop cleaned "language" = Str "en").
Proof.
  split.
  - intros Hitems. unfold validateAndCleanProfile.
    destruct (cleanArrayField_returns "skills" 20 profile) as [p1 H1].
    { intros items named s. apply Hitems. left. }
    rewrite H1. cbn [mbind option_bind].
    destruct (cleanArrayField_returns "interests" 10 p1) as [p2 H2].
    { intros items named s Hp. apply (Hitems "interests" items named s).
      - right. left.
      - rewrite <- Hp. apply prop_getOwn. symmetry.
        now apply (cleanArrayField_other "skills" "interests" 20 profile p1). }
    rewrite H2. cbn. eauto.
  - intros cleaned (p1 & p2 & H1 & H2 & ->)%validateAndCleanProfile_steps.
    set (p3 := clampWeeklyTime p2).
    set (p4 := coerceEnum "education" validEducation "Other" p3).
    set (p5 := coerceEnum "budget" validBudget "free" p4).
    set (p6 := coerceEnum "language" validLanguage "en" p5).
    pose proof (fun key' Hne => cleanArrayField_other "skills" key' 20 profile p1 Hne H1) as HS.
    pose proof (fun key' Hne => cleanArrayField_other "interests" key' 10 p1 p2 Hne H2) as HI.
    assert (Hskills : prop p6 "skills" = prop p1 "skills").
    { apply prop_getOwn. subst p6 p5 p4 p3. other_steps. now apply HI. }
    assert (Hinterests : prop p6 "interests" = prop p2 "interests").
    { apply prop_getOwn. subst p6 p5 p4 p3. now other_steps. }
    assert (Heducation : prop p6 "education" = prop p4 "education").
    { apply prop_getOwn. subst p6 p5. now other_steps. }
    assert (Hbudget : prop p6 "budget" = prop p5 "budget").
    { apply prop_getOwn. subst p6. now other_steps. }
    assert (Hedu0 : prop p3 "education" = prop profile "education").
    { apply prop_getOwn. subst p3. other_steps. rewrite HI, HS by discriminate. reflexivity. }
    assert (Hbud0 : prop p4 "budget" = prop profile "budget").
    { apply prop_getOwn. subst p4 p3. other_steps. rewrite HI, HS by discriminate. reflexivity. }
    assert (Hlang0 : prop p5 "language" = prop profile "language").
    { apply prop_getOwn. subst p5 p4 p3. other_steps.
      rewrite HI, HS by discriminate. reflexivity. }
    rewrite Hskills, Hinterests, Heducation, Hbudget.
    destruct (coerceEnum_own "education" validEducation "Other" p3) as (He1 & He2 & _);
      [repeat constructor|].
    destruct (coerceEnum_own "budget" validBudget "free" p4) as (Hb1 & Hb2 & _);
      [repeat constructor|].
    destruct (coerceEnum_own "language" validLanguage "en" p5) as (Hl1 & Hl2 & _);
      [repeat constructor|].
    rewrite Hedu0 in He2. rewrite Hbud0 in Hb2. rewrite Hlang0 in Hl2.
    refine (conj _ (conj _ (conj He1 (conj Hb1 (conj Hl1 (conj He2 (conj Hb2 Hl2))))))).
    + intros items named Hp.
      destruct (cleanArrayField_own "skills" 20 profile p1 H1)
        as [(items0 & named0 & entries & _ & Hclean & Hc) | (Hnot & ->)].
      * rewrite Hc in Hp. injection Hp as <- _. eapply cleanList_length, Hclean.
      * now apply Hnot in Hp.
    + intros items named Hp.
      destruct (cleanArrayField_own "interests" 10 p1 p2 H2)
        as [(items0 & named0 & entries & _ & Hclean & Hc) | (Hnot & ->)].
      * rewrite Hc in Hp. injection Hp as <- _. eapply cleanList_length, Hclean.
      * now apply Hnot in Hp.
Qed.

Lemma clamp_range (q : Q) :
  exists q', Math_min (Math_max (Finite q) (ofZ 1)) (ofZ 40) = Finite q' /\
             (1 <= q' <= 40)%Q.
Proof.
  unfold Math_max, Math_min, ofZ, leNumber.
  destruct (Qle_bool q (inject_Z 1)) eqn:H1.
  - exists (inject_Z 1). split; [reflexivity|]. split; discriminate.
  - destruct (Qle_bool q (inject_Z 40)) eqn:H40.
    + exists q. split; [reflexivity|].
      apply Qle_bool_iff in H40. split; [|exact H40].
      destruct (Qlt_le_dec q (inject_Z 1)) as [Hlt|Hle]; [|exact Hle].
      apply Qlt_le_weak, Qle_bool_iff in Hlt. congruence.
    + exists (inject_Z 40). split; [reflexivity|]. split; discriminate.
Qed.

(** X33: whenever the cleaning returns: the fields other than the six
    cleaned ones keep their value; [weeklyTime] is clamped when it is a
    number, into [1, 40] when the number is finite, and is left as it is
    otherwise. *)
Theorem validateAndCleanProfile_frame (profile cleaned : object) :
  validateAndCleanProfile skillAliases profile = Some cleaned ->
  (forall key,
     key ∉ ["skills"; "interests"; "weeklyTime"; "education"; "budget"; "language"] ->
     getOwn cleaned key = getOwn profile key) /\
  (forall x, prop profile "weeklyTime" = Num x ->
     prop cleaned "weeklyTime" = Num (Math_min (Math_max x (ofZ 1)) (ofZ 40))) /\
  (forall q, prop profile "weeklyTime" = Num (Finite q) ->
     exists q', prop cleaned "weeklyTime" = Num (Finite q') /\ (1 <= q' <= 40)%Q) /\
  ((forall x, prop profile "weeklyTime" <> Num x) ->
   getOwn cleaned "weeklyTime" = getOwn profile "weeklyTime").
Proof.
  intros (p1 & p2 & H1 & H2 & ->)%validateAndCleanProfile_steps.
  pose proof (fun key' Hne => cleanArrayField_other "skills" key' 20 profile p1 Hne H1) as HS.
  pose proof (fun key' Hne => cleanArrayField_other "interests" key' 10 p1 p2 Hne H2) as HI.
  assert (Hbefore : getOwn p2 "weeklyTime" = getOwn profile "weeklyTime").
  { rewrite HI, HS by discriminate. reflexivity. }
  assert (Hclamped : forall x, prop profile "weeklyTime" = Num x ->
            prop (coerceEnum "language" validLanguage "en"
                    (coerceEnum "budget" validBudget "free"
                       (coerceEnum "education" validEducation "Other"
                          (clampWeeklyTime p2)))) "weeklyTime"
            = Num (Math_min (Math_max x (ofZ 1)) (ofZ 40))).
  { intros x Hx. rewrite <- (prop_getOwn _ _ _ Hbefore) in Hx.
    transitivity (prop (clampWeeklyTime p2) "weeklyTime").
    - apply prop_getOwn. now other_steps.
    - unfold clampWeeklyTime. rewrite Hx. apply prop_setOwn_eq. }
  refine (conj _ (conj Hclamped (conj _ _))).
  - intros key Hkey.
    assert (Hne : "skills" <> key /\ "interests" <> key /\ "weeklyTime" <> key /\
                  "education" <> key /\ "budget" <> key /\ "language" <> key).
    { repeat split; intros <-; apply Hkey; repeat first [left; fail | right]; left. }
    destruct Hne as (N1 & N2 & N3 & N4 & N5 & N6).
    rewrite !coerceEnum_other, clampWeeklyTime_other, HI, HS by assumption.
    reflexivity.
  - intros q Hq. rewrite (Hclamped _ Hq).
    destruct (clamp_range q) as (q' & -> & Hrange). eauto.
  - intros Hnot. rewrite <- Hbefore.
    rewrite !coerceEnum_other by discriminate.
    unfold clampWeeklyTime.
    destruct (prop p2 "weeklyTime") eqn:Hp; try reflexivity.
    exfalso. apply (Hnot n). rewrite <- Hp. symmetry. now apply prop_getOwn.
Qed.

(** C7: for the profile [{skills: ['constructor']}] the cleaning raises a
    [TypeError] and yields no profile, when the alias table has no entry
    for [constructor]: the canonical form is then the function [Object],
    which has no [substring]. *)
Theorem validateAndCleanProfile_raises :
  skillAliases !! "constructor" = None ->
  validateAndCleanProfile skillAliases [("skills", Arr [Str "constructor"] [])] = None.
Proof.
  intros Hkey. unfold validateAndCleanProfile, cleanArrayField, cleanList.
  cbn [prop getOwn String.eqb Ascii.eqb Bool.eqb mapM sanitizeSkillValue].
  unfold Canon.sanitizeSkill.
  rewrite (proj1 (CanonFacts.canonicalize_inherited skillAliases) Hkey). reflexivity.
Qed.


End WithAliases.

Lemma validateAndCleanProfile_bounds_witness :
  exists cleaned,
    validateAndCleanProfile ∅ sampleProfile = Some cleaned /\
    prop cleaned "education" = Str "Other" /\
    prop cleaned "language" = Str "en".
Proof.
  pose proof (validateAndCleanProfile_bounds ∅ sampleProfile) as [_ H].
  eexists. split; [reflexivity|].
  specialize (H _ eq_refl).
  destruct H as (_ & _ & _ & _ & _ & Hedu & _ & Hlang).
  split; [apply Hedu | apply Hlang]; reflexivity.
Defined.

Lemma validateAndCleanProfile_frame_witness :
  exists cleaned,
    validateAndCleanProfile ∅ sampleProfile = Some cleaned /\
    getOwn cleaned "name" = Some (Str "Test User") /\
    getOwn cleaned "weeklyTime" = Some (Str "15").
Proof.
  eexists. split; [reflexivity|].
  pose proof (validateAndCleanProfile_frame ∅ sampleProfile _ eq_refl) as H.
  destruct H as (Hframe & _ & _ & Hkeep).
  split.
  - rewrite Hframe; [reflexivity|].
    intros Hin. repeat (apply elem_of_cons in Hin as [Hin|Hin]; [discriminate|]).
    now apply not_elem_of_nil in Hin.
  - rewrite Hkeep; [reflexivity|]. intros x. discriminate.
Defined.

Lemma validateAndCleanProfile_raises_witness :
  validateAndCleanProfile {[ "js" := "javascript" ]}
    [("skills", Arr [Str "constructor"] [])] = None.
Proof. apply (validateAndCleanProfile_raises {[ "js" := "javascript" ]}). reflexivity. Defined.


End ProfileFacts.

(** ** Plan parsing *)

Module PlanFacts.

Import JsString Js PlanParser.

Lemma getMember_setMember_eq (v v' x : value) (key : string) :
  isPrimitive v = false -> setMember v key x = Some v' -> getMember v' key = Some x.
Proof.
  destruct v; try discriminate; intros _ [= <-]; cbn;
    now rewrite ProfileFacts.prop_setOwn_eq.
Qed.

Lemma getMember_setMember_ne (v v' x : value) (key key' : string) :
  key <> key' -> setMember v key x = Some v' -> getMember v' key' = getMember v key'.
Proof.
  intros Hne. destruct v; try discriminate; intros [= <-]; try reflexivity; cbn;
    f_equal; apply ProfileFacts.prop_getOwn; now apply ProfileFacts.getOwn_setOwn_ne.
Qed.

Lemma setMember_primitive (v v' x : value) (key : string) :
  setMember v key x = Some v' -> isPrimitive v' = isPrimitive v.
Proof. destruct v; try discriminate; now intros [= <-]. Qed.

Lemma setMember_primitive_same (v v' x : value) (key : string) :
  isPrimitive v = true -> setMember v key x = Some v' -> v' = v.
Proof. destruct v; try discriminate; now intros _ [= <-]. Qed.

Lemma defaultMember_cases (key : string) (test : value -> bool) (fallback week week' : value) :
  defaultMember key test fallback week = Some week' ->
  (week' = week /\ exists current, getMember week key = Some current /\
                     truthy current = true /\ test current = true) \/
  setMember week key fallback = Some week'.
Proof.
  unfold defaultMember. destruct (getMember week key) as [current|] eqn:Hget; [|discriminate].
  cbn. destruct (truthy current) eqn:Ht, (test current) eqn:Hc; cbn; auto.
  intros [= <-]. left. eauto.
Qed.

Lemma defaultMember_other (key key' : string) (test : value -> bool)
    (fallback week week' : value) :
  key <> key' -> defaultMember key test fallback week = Some week' ->
  getMember week' key' = getMember week key'.
Proof.
  intros Hne [(-> & _)|Hset]%defaultMember_cases; [reflexivity|].
  now apply (getMember_setMember_ne week week' fallback key key').
Qed.

Lemma defaultMember_primitive (key : string) (test : value -> bool)
    (fallback week week' : value) :
  defaultMember key test fallback week = Some week' ->
  isPrimitive week' = isPrimitive week /\ (isPrimitive week = true -> week' = week).
Proof.
  intros [(-> & _)|Hset]%defaultMember_cases; [auto|].
  split; [now apply setMember_primitive in Hset|].
  intros Hp. now apply (setMember_primitive_same week week' fallback key).
Qed.

Lemma isWeekNumber_own (index : nat) : isWeekNumber index (Num (ofNat (index + 1))) = true.
Proof. cbn. apply Qeq_bool_iff. reflexivity. Qed.

(** The callback leaves a primitive entry as it is and numbers any other
    entry by its position. *)
Lemma validateWeek_result (index : nat) (week week' : value) :
  validateWeek index week = Some week' ->
  (isPrimitive week = true /\ week' = week) \/ numbered index week' = true.
Proof.
  unfold validateWeek.
  destruct (defaultMember "week" _ _ week) as [w1|] eqn:H1; [cbn|discriminate].
  destruct (defaultMember "topics" _ _ w1) as [w2|] eqn:H2; [cbn|discriminate].
  destruct (defaultMember "practice" _ _ w2) as [w3|] eqn:H3; [cbn|discriminate].
  destruct (defaultMember "assessment" _ _ w3) as [w4|] eqn:H4; [cbn|discriminate].
  intros H5.
  destruct (isPrimitive week) eqn:Hprim.
  - left. split; [reflexivity|].
    destruct (defaultMember_primitive _ _ _ _ _ H1) as [P1 E1]. rewrite Hprim in P1.
    destruct (defaultMember_primitive _ _ _ _ _ H2) as [P2 E2]. rewrite P1 in P2.
    destruct (defaultMember_primitive _ _ _ _ _ H3) as [P3 E3]. rewrite P2 in P3.
    destruct (defaultMember_primitive _ _ _ _ _ H4) as [P4 E4]. rewrite P3 in P4.
    destruct (defaultMember_primitive _ _ _ _ _ H5) as [P5 E5].
    rewrite E5, E4, E3, E2, E1 by assumption. reflexivity.
  - right. unfold numbered.
    rewrite (defaultMember_other "project" "week" _ _ _ _ ltac:(discriminate) H5).
    rewrite (defaultMember_other "assessment" "week" _ _ _ _ ltac:(discriminate) H4).
    rewrite (defaultMember_other "practice" "week" _ _ _ _ ltac:(discriminate) H3).
    rewrite (defaultMember_other "topics" "week" _ _ _ _ ltac:(discriminate) H2).
    apply defaultMember_cases in H1 as [(-> & current & -> & _ & Htest)|Hset].
    + exact Htest.
    + rewrite (getMember_setMember_eq week w1 _ "week" Hprim Hset).
      apply isWeekNumber_own.
Qed.

Lemma validateWeeks_result (weeks : list value) :
  forall (index : nat) (weeks' : list value),
  validateWeeks index weeks = Some weeks' ->
  List.length weeks' = List.length weeks /\
  forall i week', weeks' !! i = Some week' ->
    isPrimitive week' = true \/ numbered (index + i) week' = true.
Proof.
  induction weeks as [|week rest IH]; intros index weeks'; simpl.
  - intros [= <-]. split; [reflexivity|]. intros i week' Hi. discriminate.
  - destruct (validateWeek index week) as [w|] eqn:Hw; [cbn|discriminate].
    destruct (validateWeeks (S index) rest) as [r|] eqn:Hr; [cbn|discriminate].
    intros [= <-]. destruct (IH _ _ Hr) as [Hlen Hrest].
    split; [simpl; now rewrite Hlen|].
    intros [|i] week' Hi; simpl in Hi.
    + injection Hi as <-. rewrite Nat.add_0_r.
      apply validateWeek_result in Hw as [[Hp ->]|Hn]; auto.
    + replace (index + S i)%nat with (S index + i)%nat by lia. now apply Hrest.
Qed.

Lemma padWeeks_length (missing : nat) (weeks : list value) :
  List.length (padWeeks missing weeks) = (missing + List.length weeks)%nat.
Proof.
  revert weeks. induction missing as [|n IH]; intros weeks; simpl; [reflexivity|].
  rewrite IH, length_app. simpl. lia.
Qed.

Lemma fourWeeks_length (weeks : list value) : List.length (fourWeeks weeks) = 4%nat.
Proof.
  unfold fourWeeks.
  destruct (List.length weeks <? 4)%nat eqn:Hlt.
  - apply Nat.ltb_lt in Hlt. rewrite padWeeks_length. lia.
  - apply Nat.ltb_ge in Hlt. destruct (4 <? List.length weeks)%nat eqn:Hgt.
    + apply Nat.ltb_lt in Hgt. rewrite length_firstn. lia.
    + apply Nat.ltb_ge in Hgt. lia.
Qed.

(** What holds of the result for every response text: [weeks] is an array
    of exactly 4 entries, and an entry that is not a boolean, a number or a
    string carries the number of its position. *)
Lemma parseLearningPlan_weeks (aiResponse : string) :
  exists items named,
    getMember (parseLearningPlan aiResponse) "weeks" = Some (Arr items named) /\
    List.length items = 4%nat /\
    forall i week, items !! i = Some week ->
      isPrimitive week = true \/ numbered i week = true.
Proof.
  unfold parseLearningPlan.
  destruct (tryParse aiResponse) as [plan'|] eqn:Htry.
  - unfold tryParse in Htry.
    destruct (Json.parse (extractJson aiResponse)) as [plan|]; [cbn in Htry|discriminate].
    unfold repairPlan in Htry.
    destruct (getMember plan "weeks") as [weeks|] eqn:Hweeks; [cbn in Htry|discriminate].
    destruct weeks as [| | | | |items named|]; try discriminate.
    destruct (validateWeeks 0 (fourWeeks items)) as [weeks'|] eqn:Hval;
      [cbn in Htry|discriminate].
    apply validateWeeks_result in Hval as [Hlen Hnum].
    rewrite fourWeeks_length in Hlen.
    eexists weeks', _. split; [|split; [exact Hlen | exact Hnum]].
    apply (getMember_setMember_eq plan plan' _ "weeks"); [|exact Htry].
    destruct plan; try discriminate; reflexivity.
  - eexists _, _. split; [reflexivity|]. split; [reflexivity|].
    intros i week Hi. right.
    do 4 (destruct i as [|i]; [injection Hi as <-; reflexivity|]). discriminate.
Qed.

(** C1 fails at a response whose [weeks] entries are numbers: the callback
    cannot store a [week] field on them, no exception is raised, and the
    entries are returned as they came. *)
Theorem parseLearningPlan_primitive_weeks :
  let aiResponse := ("{" ++ quoted "weeks" ++ ":[1,2,3,4]}")%string in
  parseLearningPlan aiResponse
  = Obj [("weeks", Arr [Num (ofNat 1); Num (ofNat 2); Num (ofNat 3); Num (ofNat 4)] [])] /\
  weekFields (parseLearningPlan aiResponse)
  = Some [Undefined; Undefined; Undefined; Undefined] /\
  wellNumbered (parseLearningPlan aiResponse) = false.
Proof. vm_compute. repeat split. Qed.

End PlanFacts.

(** ** The cases of [utils.test.js] and the examples of the specification *)

Module Examples.

Import JsString Js Canon Similarity Fixtures.

Example sanitizeSkill_cases :
  Canon.sanitizeSkill ∅ (Text "  Python!@#  ") = Some "python" /\
  Canon.sanitizeSkill ∅ (Text "SQL Server") = Some "sql server" /\
  Canon.sanitizeSkill ∅ (Text "C++") = Some "c" /\
  Canon.sanitizeSkill ∅ (Text EmptyString) = Some EmptyString /\
  Canon.sanitizeSkill ∅ (Text (str (repeat "a"%char 100))) = Some (str (repeat "a"%char 50)) /\
  Canon.sanitizeSkill ∅ (Text "Constructor") = None.
Proof. vm_compute. repeat split. Qed.

Example overlap_and_gap :
  calculateOverlapSkills ∅ (Some mockUserSkills) (Some mockRoleSkills)
  = [Text "python"; Text "sql"] /\
  calculateGapSkills ∅ (Some mockUserSkills) (Some mockRoleSkills)
  = [Text "statistics"; Text "tableau"].
Proof. vm_compute. repeat split. Qed.

Example overlap_ratio :
  calculateOverlapRatio ∅ (Some mockUserSkills) (Some mockRoleSkills) = (1 / 2)%R.
Proof.
  unfold calculateOverlapRatio, mockUserSkills, mockRoleSkills.
  cbn [List.length Nat.eqb orb map name].
  change (Canon.canonicalizeSkillName ∅ (Text "python")) with (Text "python").
  change (Canon.canonicalizeSkillName ∅ (Text "sql")) with (Text "sql").
  change (Canon.canonicalizeSkillName ∅ (Text "excel")) with (Text "excel").
  change (Canon.canonicalizeSkillName ∅ (Text "statistics")) with (Text "statistics").
  change (Canon.canonicalizeSkillName ∅ (Text "tableau")) with (Text "tableau").
  match goal with
  | |- (INR (List.length ?l) / _)%R = _ =>
      let l' := eval vm_compute in l in change l with l'
  end.
  simpl. lra.
Qed.

Example two_weeks_repaired :
  let newline := String (ascii_of_N 10) EmptyString in
  let aiResponse :=
    ("Here is the plan:" ++ newline ++ "```json" ++ newline
     ++ "{" ++ quoted "weeks" ++ ": [{" ++ quoted "week" ++ ": 1, "
     ++ quoted "topics" ++ ": [" ++ quoted "SQL" ++ "]}, {}]}"
     ++ newline ++ "```")%string in
  PlanParser.wellNumbered (PlanParser.parseLearningPlan aiResponse) = true /\
  PlanParser.weekFields (PlanParser.parseLearningPlan aiResponse)
  = Some PlanParser.oneToFour.
Proof. vm_compute. repeat split. Qed.

Example unparsable_falls_back :
  PlanParser.parseLearningPlan "Sorry, I cannot help with that." = PlanParser.fallbackPlan /\
  PlanParser.parseLearningPlan ("{" ++ quoted "weeks" ++ ": [null]}") = PlanParser.fallbackPlan.
Proof. vm_compute. repeat split. Qed.

End Examples.

(** * Further properties *)

(** ** The shape of canonical names *)

Module CanonShapeFacts.

Import JsString Canon CanonShape CanonFacts.

Lemma kept_lower_shape (c : ascii) :
  keptChar (lowerChar c) = true ->
  isSpace (lowerChar c) = true \/ canonicalChar (lowerChar c) = true.
Proof.
  destruct c as [[] [] [] [] [] [] [] []]; vm_compute; intros H;
    first [discriminate H | now left | now right].
Qed.

Lemma collapseFrom_canonical (inRun : bool) (l : list ascii) :
  Forall (fun c => isSpace c = true \/ canonicalChar c = true) l ->
  Forall (fun c => canonicalChar c = true) (collapseFrom inRun l).
Proof.
  intros Hl. revert inRun.
  induction Hl as [|c r Hc Hr IH]; intros inRun; simpl; [constructor|].
  destruct (isSpace c) eqn:Hsp.
  - destruct inRun; [apply IH|]. constructor; [reflexivity | apply IH].
  - constructor; [|apply IH]. destruct Hc as [Hc|Hc]; [congruence | exact Hc].
Qed.

Lemma cleanChars_canonical (l : list ascii) :
  Forall (fun c => canonicalChar c = true) (cleanChars l).
Proof.
  unfold cleanChars, collapseChars. apply collapseFrom_canonical.
  apply List.Forall_forall. intros c Hc.
  unfold stripChars in Hc. apply List.filter_In in Hc as [Hin Hkept].
  apply List.in_map_iff in Hin as (c0 & <- & _). now apply kept_lower_shape.
Qed.

Lemma collapseFrom_single_spaces (inRun : bool) (l : list ascii) :
  indexOfChars (chars "  ") (collapseFrom inRun l) = None.
Proof.
  revert inRun. induction l as [|c r IH]; intros inRun; [reflexivity|].
  cbn [collapseFrom]. destruct (isSpace c) eqn:Hsp.
  - destruct inRun; [apply IH|].
    pose proof (collapseFrom_true_head r) as Hhead.
    cbn [indexOfChars chars list_ascii_of_string startsWith].
    specialize (IH true). cbn [chars list_ascii_of_string] in IH.
    destruct (collapseFrom true r) as [|x rest] eqn:Hout.
    + reflexivity.
    + cbn [startsWith]. destruct (Ascii.eqb " " x) eqn:Hx.
      * apply Ascii.eqb_eq in Hx. subst x. discriminate Hhead.
      * rewrite Bool.andb_false_r. cbn [andb]. now rewrite IH.
  - cbn [indexOfChars chars list_ascii_of_string startsWith].
    destruct (Ascii.eqb " " c) eqn:Hc.
    + apply Ascii.eqb_eq in Hc. subst c. discriminate Hsp.
    + cbn [andb]. specialize (IH false). cbn [chars list_ascii_of_string] in IH.
      now rewrite IH.
Qed.

(** X1: the canonical form of a string is a non-empty value of the alias
    table; or, for the names [constructor] and [__proto__] without an entry
    of the table, the function [Object] or the object [Object.prototype]; or
    else the cleaned text, which holds lower-case letters, digits, [_], [/],
    [-] and spaces only and never two spaces in a row. *)
Theorem canonicalizeSkillName_shape (aliases : gmap string string) (x : string) :
  (exists alias, aliases !! clean x = Some alias /\ alias <> EmptyString /\
                 canonicalizeSkillName aliases (Text x) = Text alias) \/
  (aliases !! clean x = None /\ clean x = "constructor" /\
   canonicalizeSkillName aliases (Text x) = ObjectFunction) \/
  (aliases !! clean x = None /\ clean x = "__proto__" /\
   canonicalizeSkillName aliases (Text x) = ObjectPrototype) \/
  (canonicalizeSkillName aliases (Text x) = Text (clean x) /\
   canonicalText (clean x) = true /\
   includes (clean x) "  " = false).
Proof.
  assert (Hshape : canonicalText (clean x) = true /\ includes (clean x) "  " = false).
  { unfold canonicalText, includes, indexOf, clean. rewrite chars_str. split.
    - apply forallb_forall. intros c Hc.
      pose proof (cleanChars_canonical (chars x)) as Hall.
      rewrite List.Forall_forall in Hall. now apply Hall.
    - unfold cleanChars, collapseChars. now rewrite collapseFrom_single_spaces. }
  cbn [canonicalizeSkillName]. unfold lookupAlias.
  destruct (aliases !! clean x) as [alias|] eqn:Hlook.
  - destruct (String.eqb alias EmptyString) eqn:Hempty; [right; right; right; tauto|].
    left. exists alias. repeat split. intros ->. discriminate.
  - destruct (String.eqb (clean x) "constructor") eqn:Hc.
    { apply String.eqb_eq in Hc. right. left. auto. }
    destruct (String.eqb (clean x) "__proto__") eqn:Hp.
    { apply String.eqb_eq in Hp. right. right. left. auto. }
    right. right. right. tauto.
Qed.

Lemma isSpace_lowerChar (c : ascii) : isSpace (lowerChar c) = isSpace c.
Proof. destruct c as [[] [] [] [] [] [] [] []]; reflexivity. Qed.

Lemma dropSpaces_map_lower (l : list ascii) :
  dropSpaces (map lowerChar l) = map lowerChar (dropSpaces l).
Proof.
  induction l as [|c r IH]; [reflexivity|]. cbn [map dropSpaces].
  rewrite isSpace_lowerChar. destruct (isSpace c); [exact IH | reflexivity].
Qed.

Lemma trimChars_map_lower (l : list ascii) :
  trimChars (map lowerChar l) = map lowerChar (trimChars l).
Proof.
  unfold trimChars.
  now rewrite dropSpaces_map_lower, <- map_rev, dropSpaces_map_lower, <- map_rev.
Qed.

Lemma dropSpaces_idem (l : list ascii) : dropSpaces (dropSpaces l) = dropSpaces l.
Proof.
  induction l as [|c r IH]; [reflexivity|]. cbn [dropSpaces].
  destruct (isSpace c) eqn:Hc; [exact IH|]. cbn [dropSpaces]. now rewrite Hc.
Qed.

(** Dropping white space at the end keeps a start that is no white space. *)
Lemma dropSpaces_rev_start (l : list ascii) :
  dropSpaces l = l -> dropSpaces (rev (dropSpaces (rev l))) = rev (dropSpaces (rev l)).
Proof.
  intros Hl. induction l as [|c r IH] using rev_ind; [reflexivity|].
  rewrite rev_app_distr. cbn [rev app dropSpaces].
  destruct (isSpace c) eqn:Hc.
  - apply IH.
    destruct r as [|a r']; [reflexivity|].
    cbn [app dropSpaces] in Hl |- *.
    destruct (isSpace a) eqn:Ha; [|reflexivity].
    exfalso. apply (f_equal (@List.length ascii)) in Hl.
    assert (Hle : forall k, (List.length (dropSpaces k) <= List.length k)%nat).
    { clear. induction k as [|x k IHk]; simpl; [lia|]. destruct (isSpace x); simpl; lia. }
    specialize (Hle (r' ++ [c])). simpl in Hl. lia.
  - cbn [rev]. rewrite rev_involutive. exact Hl.
Qed.

Lemma trimChars_idem (l : list ascii) : trimChars (trimChars l) = trimChars l.
Proof.
  unfold trimChars.
  rewrite (dropSpaces_rev_start (dropSpaces l)) by apply dropSpaces_idem.
  now rewrite rev_involutive, dropSpaces_idem.
Qed.

(** X2: the canonical name does not depend on the letter case of the input
    nor on white space around it. *)
Theorem canonicalizeSkillName_insensitive (aliases : gmap string string) (x : string) :
  canonicalizeSkillName aliases (Text (toLowerCase x)) = canonicalizeSkillName aliases (Text x) /\
  canonicalizeSkillName aliases (Text (trim x)) = canonicalizeSkillName aliases (Text x).
Proof.
  assert (Hlower : clean (toLowerCase x) = clean x).
  { unfold clean, toLowerCase, cleanChars. rewrite chars_str, trimChars_map_lower.
    do 3 f_equal. rewrite List.map_map. apply List.map_ext. apply lowerChar_idem. }
  assert (Htrim : clean (trim x) = clean x).
  { unfold clean, trim, cleanChars. now rewrite chars_str, trimChars_idem. }
  cbn [canonicalizeSkillName]. now rewrite Hlower, Htrim.
Qed.

Lemma sanitizeSkill_length (aliases : gmap string string) (skill : Token) (s : string) :
  sanitizeSkill aliases skill = Some s -> (JsString.length s <= 50)%nat.
Proof.
  unfold sanitizeSkill. destruct skill as [x| |]; try (intros [= <-]; cbn; lia).
  destruct (canonicalizeSkillName aliases (Text x)) as [canonical| |]; try discriminate.
  intros [= <-]. unfold substring, JsString.length. rewrite chars_str.
  apply firstn_le_length.
Qed.

(** [sanitizeSkill] raises a [TypeError] on a string exactly when the
    cleaned text is [constructor] or [__proto__] and the alias table has no
    entry for it; otherwise it returns the first 50 code units of the
    canonical name (all of it when it has at most 50); anything but a string
    gives the empty string. *)
Theorem sanitizeSkill_bounded (aliases : gmap string string) (x : string) :
  (sanitizeSkill aliases (Text x) = None <->
   aliases !! clean x = None /\ (clean x = "constructor" \/ clean x = "__proto__")) /\
  (forall s, sanitizeSkill aliases (Text x) = Some s ->
     (JsString.length s <= 50)%nat /\
     exists canonical,
       canonicalizeSkillName aliases (Text x) = Text canonical /\
       (exists rest, chars canonical = chars s ++ rest) /\
       ((JsString.length canonical <= 50)%nat -> s = canonical)) /\
  sanitizeSkill aliases ObjectFunction = Some EmptyString /\
  sanitizeSkill aliases ObjectPrototype = Some EmptyString.
Proof.
  refine (conj _ (conj _ (conj eq_refl eq_refl))).
  - unfold sanitizeSkill. cbn [canonicalizeSkillName]. unfold lookupAlias.
    destruct (aliases !! clean x) as [alias|] eqn:Hlook.
    + destruct (String.eqb alias EmptyString); split; try discriminate;
        intros [? _]; discriminate.
    + destruct (String.eqb (clean x) "constructor") eqn:Hc.
      { apply String.eqb_eq in Hc. tauto. }
      destruct (String.eqb (clean x) "__proto__") eqn:Hp.
      { apply String.eqb_eq in Hp. tauto. }
      apply String.eqb_neq in Hc, Hp. split; [discriminate | tauto].
  - intros s Hs. split; [eapply sanitizeSkill_length, Hs|].
    unfold sanitizeSkill in Hs.
    destruct (canonicalizeSkillName aliases (Text x)) as [canonical| |]; try discriminate.
    injection Hs as <-. exists canonical. split; [reflexivity|].
    unfold substring, JsString.length. rewrite chars_str. cbn [skipn Nat.sub]. split.
    + exists (skipn 50 (chars canonical)). now rewrite firstn_skipn.
    + intros Hle. rewrite firstn_all2 by exact Hle. apply str_chars.
Qed.

Lemma sanitizeSkill_bounded_witness :
  (exists canonical, canonicalizeSkillName ∅ (Text "SQL Server") = Text canonical) /\
  sanitizeSkill ∅ (Text " Constructor ") = None.
Proof.
  split.
  - assert (Hs : sanitizeSkill ∅ (Text "SQL Server") = Some "sql server")
      by (vm_compute; reflexivity).
    destruct (proj1 (proj2 (sanitizeSkill_bounded ∅ "SQL Server")) "sql server" Hs)
      as (_ & canonical & Hcanonical & _ & _).
    exists canonical. exact Hcanonical.
  - apply (proj1 (sanitizeSkill_bounded ∅ " Constructor ")).
    split; [reflexivity | left; reflexivity].
Defined.

End CanonShapeFacts.

(** ** More on the similarity engine *)

Module SimilarityMore.

Import JsString Canon Similarity CanonFacts SimilarityFacts.

Local Open Scope R_scope.

Section WithAliases.

Variable skillAliases : gmap string string.

Local Abbreviation canon := (Canon.canonicalizeSkillName skillAliases).

Lemma normalizeSkills_keys (skills : list Token) (key : string) (w : R) :
  normalizeSkills skillAliases skills !! key = Some w <->
  w = 1 /\ key <> "__proto__" /\
  exists t, t ∈ map canon skills /\ hasLength t = true /\ toKey t = key.
Proof.
  unfold normalizeSkills.
  induction skills as [|skill rest IH] using rev_ind.
  - cbn. rewrite lookup_empty. split; [discriminate|].
    intros (_ & _ & t & Hin & _). now apply not_elem_of_nil in Hin.
  - rewrite foldl_snoc, map_app. cbn [map].
    assert (Hsplit : forall P : Token -> Prop,
              (exists t, t ∈ map canon rest ++ [canon skill] /\ P t) <->
              (exists t, t ∈ map canon rest /\ P t) \/ P (canon skill)).
    { intros P. split.
      - intros (t & [Hin|Hin]%elem_of_app & HP); [left; eauto|].
        apply list_elem_of_singleton in Hin. subst t. now right.
      - intros [(t & Hin & HP) | HP].
        + exists t. split; [apply elem_of_app; now left | exact HP].
        + exists (canon skill). split; [|exact HP].
          apply elem_of_app. right. now apply list_elem_of_singleton. }
    rewrite (Hsplit (fun t => hasLength t = true /\ toKey t = key)).
    destruct (hasLength (canon skill)) eqn:Hlen.
    + unfold assign. destruct (String.eqb (toKey (canon skill)) "__proto__") eqn:Hproto.
      * apply String.eqb_eq in Hproto. rewrite IH. split; [tauto|].
        intros (? & ? & [? | [_ ?]]); [tauto | congruence].
      * rewrite lookup_insert. case_decide as Hkey.
        -- apply String.eqb_neq in Hproto. subst key.
           split; [intros [= <-]; tauto | intros (-> & _); reflexivity].
        -- rewrite IH. split; [tauto|].
           intros (? & ? & [? | [_ ?]]); [tauto | congruence].
    + rewrite IH. split; [tauto|].
      intros (? & ? & [? | [? _]]); [tauto | congruence].
Qed.

(** X4: the keys of the user vector are exactly the keys that the canonical
    names of non-zero length spell ([__proto__] apart, whose assignment is
    ignored), and every weight in it is 1. *)
Theorem normalizeSkills_lookup (skills : list Token) :
  (forall key, key ∈ dom (normalizeSkills skillAliases skills) <->
               key <> "__proto__" /\
               exists t, t ∈ map canon skills /\ hasLength t = true /\ toKey t = key) /\
  (forall key w, normalizeSkills skillAliases skills !! key = Some w -> w = 1).
Proof.
  split.
  - intros key. rewrite elem_of_dom. split.
    + intros [w Hw]. apply normalizeSkills_keys in Hw. tauto.
    + intros [Hkey Hin]. exists 1. apply normalizeSkills_keys. tauto.
  - intros key w Hw. apply normalizeSkills_keys in Hw. tauto.
Qed.

Lemma normalizeSkills_ext (us us' : list Token) :
  (forall t, t ∈ map canon us <-> t ∈ map canon us') ->
  normalizeSkills skillAliases us = normalizeSkills skillAliases us'.
Proof.
  intros Hsame.
  assert (Hiff : forall key w,
            normalizeSkills skillAliases us !! key = Some w <->
            normalizeSkills skillAliases us' !! key = Some w).
  { intros key w. rewrite !normalizeSkills_keys.
    split; intros (Hw & Hkey & t & Hin & Ht); (split; [exact Hw|]; split; [exact Hkey|]);
      exists t; (split; [now apply Hsame | exact Ht]). }
  apply map_eq. intros key.
  destruct (normalizeSkills skillAliases us !! key) as [w|] eqn:H1.
  - symmetry. now apply Hiff.
  - destruct (normalizeSkills skillAliases us' !! key) as [w|] eqn:H2; [|reflexivity].
    apply Hiff in H2. congruence.
Qed.

(** A skill whose canonical name an earlier skill of the list already has
    does not change the fit score. *)
Theorem calculateFitScore_repeated (before after : list Token) (skill : Token)
    (roleSkills : option (list RoleSkill)) :
  canon skill ∈ map canon before ->
  calculateFitScore skillAliases (Some (before ++ skill :: after)) roleSkills
  = calculateFitScore skillAliases (Some (before ++ after)) roleSkills.
Proof.
  intros Hin.
  assert (Hext : forall t, t ∈ map canon (before ++ skill :: after)
                           <-> t ∈ map canon (before ++ after)).
  { intros t. rewrite !map_app. cbn [map]. rewrite !elem_of_app, elem_of_cons.
    split; [|tauto]. intros [H | [-> | H]]; tauto. }
  unfold calculateFitScore.
  destruct roleSkills as [rs|]; [|reflexivity].
  rewrite (normalizeSkills_ext _ _ Hext).
  destruct before as [|first before']; [now apply not_elem_of_nil in Hin|].
  reflexivity.
Qed.

(** X8: the overlap keeps the order of the user's skills and the gap the
    order of the role's; the gap is empty exactly when the user has every
    skill of the role; an absent list gives two empty results. *)
Theorem overlap_gap_order (U : list Token) (R : list RoleSkill) :
  calculateOverlapSkills skillAliases (Some U) (Some R) `sublist_of` map canon U /\
  calculateGapSkills skillAliases (Some U) (Some R)
    `sublist_of` map (fun s => canon (Text (name s))) R /\
  (calculateGapSkills skillAliases (Some U) (Some R) = [] <->
   forall s, s ∈ R -> canon (Text (name s)) ∈ map canon U) /\
  calculateGapSkills skillAliases None (Some R) = [] /\
  calculateOverlapSkills skillAliases (Some U) None = [].
Proof.
  unfold calculateOverlapSkills, calculateGapSkills.
  refine (conj _ (conj _ (conj _ (conj eq_refl eq_refl)))); try apply sublist_filter.
  split.
  - intros Hnil s Hs.
    destruct (decide (canon (Text (name s)) ∈ map canon U)) as [Hin|Hout]; [exact Hin|].
    exfalso. eapply (filter_nil_not_elem_of _ _ (canon (Text (name s))) Hnil Hout).
    apply list_elem_of_fmap. exists s. auto.
  - intros Hall.
    induction R as [|r R' IH]; [reflexivity|]. cbn [map].
    rewrite filter_cons_False.
    + apply IH. intros s Hs. apply Hall. now right.
    + intros Hout. apply Hout, Hall. left.
Qed.

End WithAliases.

Lemma calculateFitScore_repeated_witness :
  calculateFitScore ∅ (Some [Text "python"; Text "sql"; Text " Python "])
    (Some Fixtures.mockRoleSkills)
  = calculateFitScore ∅ (Some [Text "python"; Text "sql"]) (Some Fixtures.mockRoleSkills).
Proof.
  apply (calculateFitScore_repeated ∅ [Text "python"; Text "sql"] [] (Text " Python ")).
  vm_compute. left.
Defined.

Lemma mul_comm (x y : num) : mul x y = mul y x.
Proof. destruct x, y; cbn; try reflexivity. f_equal. apply Rmult_comm. Qed.

(** The two sides of the loop exchanged. *)
Lemma sums_swap (vectorA vectorB : gmap string R) (keys : list string) :
  forall d a b : option R,
  foldl (accumulate vectorB vectorA) (d, b, a) keys
  = (let '(d', a', b') := foldl (accumulate vectorA vectorB) (d, a, b) keys in (d', b', a')).
Proof.
  induction keys as [|key rest IH]; intros d a b; [reflexivity|].
  cbn [foldl accumulate]. rewrite <- IH.
  now rewrite (mul_comm (valueAt vectorB key) (valueAt vectorA key)).
Qed.

Lemma cosineSimilarity_comm (vectorA vectorB : gmap string R) :
  cosineSimilarity vectorA vectorB = cosineSimilarity vectorB vectorA.
Proof.
  pose proof (sums_swap vectorA vectorB (allKeys vectorA vectorB)
                (Some 0) (Some 0) (Some 0)) as Hswap.
  assert (Hkeys : allKeys vectorB vectorA = allKeys vectorA vectorB).
  { unfold allKeys. f_equal. apply union_comm_L. }
  unfold cosineSimilarity, cosineOutcome, magnitudeA, magnitudeB, dotProduct, sums.
  rewrite Hkeys, Hswap.
  destruct (foldl (accumulate vectorA vectorB) (Some 0, Some 0, Some 0)
              (allKeys vectorA vectorB)) as [[d a] b].
  cbn [fst snd]. rewrite (orb_comm (isZero (sqrt <$> b))).
  destruct (_ || _)%bool; [reflexivity|]. cbn [outcomeValue].
  now rewrite (mul_comm (sqrt <$> b)).
Qed.

Lemma square_bound (x y : R) : 0 <= y -> x * x <= y * y -> - y <= x <= y.
Proof. intros Hy Hxy. split; nra. Qed.

(** X6: in exact arithmetic the similarity is symmetric, and for two
    vectors none of whose keys is a name of [Object.prototype] it is a number
    between -1 and 1. *)
Theorem cosineSimilarity_symmetric_bounded (vectorA vectorB : gmap string R) :
  cosineSimilarity vectorA vectorB = cosineSimilarity vectorB vectorA /\
  (plainKeys vectorA -> plainKeys vectorB ->
   exists c, cosineSimilarity vectorA vectorB = Some c /\ -1 <= c <= 1).
Proof.
  split; [apply cosineSimilarity_comm|]. intros HA HB.
  destruct (loop_real vectorA vectorB
              (fun '(d, a, b) => 0 <= a /\ 0 <= b /\ d * d <= a * b)
              (allKeys vectorA vectorB) (fun key => allKeys_plain _ _ key HA HB))
    with (d := 0) (a := 0) (b := 0) as (d & a & b & Hrun & Ha & Hb & Hcs).
  { intros d a b key x y _ Hx Hy (Ha & Hb & Hcs).
    repeat split; [nra | nra | now apply cauchy_schwarz_step]. }
  { lra. }
  rewrite (cosineSimilarity_sums vectorA vectorB d a b Hrun). cbn [isZero].
  destruct (Req_dec_T (sqrt a) 0) as [|HnA]; [exists 0; split; [reflexivity|lra]|].
  destruct (Req_dec_T (sqrt b) 0) as [|HnB]; [exists 0; split; [reflexivity|lra]|].
  cbn [orb]. eexists. split; [reflexivity|].
  assert (HsA : 0 < sqrt a) by (pose proof (sqrt_pos a); lra).
  assert (HsB : 0 < sqrt b) by (pose proof (sqrt_pos b); lra).
  assert (Hdiv : 0 < sqrt a * sqrt b) by now apply Rmult_lt_0_compat.
  assert (Hsq : d * d <= (sqrt a * sqrt b) * (sqrt a * sqrt b)).
  { replace ((sqrt a * sqrt b) * (sqrt a * sqrt b))
      with ((sqrt a * sqrt a) * (sqrt b * sqrt b)) by ring.
    now rewrite !sqrt_sqrt by assumption. }
  apply square_bound in Hsq; [|lra].
  split.
  - apply (Rmult_le_reg_r (sqrt a * sqrt b)); [exact Hdiv|].
    unfold Rdiv. rewrite Rmult_assoc, Rinv_l by lra. lra.
  - apply (Rmult_le_reg_r (sqrt a * sqrt b)); [exact Hdiv|].
    unfold Rdiv. rewrite Rmult_assoc, Rinv_l by lra. lra.
Qed.

Lemma cosineSimilarity_symmetric_bounded_witness :
  exists c, cosineSimilarity {[ "python" := 1 ]} {[ "python" := -2; "sql" := 3 ]} = Some c
            /\ -1 <= c <= 1.
Proof.
  apply (cosineSimilarity_symmetric_bounded {[ "python" := 1 ]} {[ "python" := -2; "sql" := 3 ]}).
  - intros key [v Hv]. apply lookup_singleton_Some in Hv as [<- _]. reflexivity.
  - intros key [v Hv]. apply lookup_insert_Some in Hv as [[<- _] | [_ Hv]]; [reflexivity|].
    apply lookup_singleton_Some in Hv as [<- _]. reflexivity.
Defined.



End SimilarityMore.

(** ** Interest match, blended score and cleaned entries *)

Module ScoreFacts.

Import JsString Js Canon Similarity CanonFacts SimilarityFacts.

Local Open Scope R_scope.

Lemma includes_empty (s : string) : includes s EmptyString = true.
Proof. unfold includes, indexOf. cbn. now destruct (chars s). Qed.

(** X9: the interest match is 1 when the lower-cased, trimmed text of some
    interest occurs in the lower-cased "sector title" of the role and 0
    otherwise; a blank interest matches every role, no interest matches
    none, and an absent list or role gives 0. *)
Theorem calculateInterestMatch_spec (interests : list string) (r : Role) :
  let roleText := toLowerCase (sector r ++ " " ++ title r) in
  (calculateInterestMatch (Some interests) (Some r) = 1 <->
   exists i, i ∈ interests /\ includes roleText (trim (toLowerCase i)) = true) /\
  (calculateInterestMatch (Some interests) (Some r) = 0 <->
   forall i, i ∈ interests -> includes roleText (trim (toLowerCase i)) = false) /\
  ((exists i, i ∈ interests /\ trim (toLowerCase i) = EmptyString) ->
   calculateInterestMatch (Some interests) (Some r) = 1) /\
  calculateInterestMatch (Some []) (Some r) = 0 /\
  calculateInterestMatch None (Some r) = 0 /\
  calculateInterestMatch (Some interests) None = 0.
Proof.
  cbn zeta. unfold calculateInterestMatch.
  set (roleText := toLowerCase (sector r ++ " " ++ title r)).
  set (normalized := map (fun i => trim (toLowerCase i)) interests).
  assert (Hex : existsb (fun interest => includes roleText interest) normalized = true <->
                exists i, i ∈ interests /\ includes roleText (trim (toLowerCase i)) = true).
  { rewrite existsb_exists. unfold normalized. split.
    - intros (x & Hx & Hinc). apply List.in_map_iff in Hx as (i & <- & Hi).
      exists i. split; [now apply list_elem_of_In | exact Hinc].
    - intros (i & Hi & Hinc). exists (trim (toLowerCase i)). split; [|exact Hinc].
      apply List.in_map_iff. exists i. split; [reflexivity | now apply list_elem_of_In]. }
  remember (existsb (fun interest => includes roleText interest) normalized) as found.
  refine (conj _ (conj _ (conj _ (conj _ (conj eq_refl eq_refl))))).
  - rewrite <- Hex. destruct found; split; intros H;
      first [reflexivity | lra | discriminate H].
  - destruct found.
    + split; [intros H; lra|]. intros Hall. exfalso.
      destruct (proj1 Hex eq_refl) as (i & Hi & Hinc).
      rewrite (Hall i Hi) in Hinc. discriminate.
    + split; [|reflexivity]. intros _ i Hi.
      destruct (includes roleText (trim (toLowerCase i))) eqn:Hinc; [|reflexivity].
      assert (Htrue : false = true) by (apply Hex; eauto).
      discriminate.
  - intros (i & Hi & Hblank).
    assert (Htrue : found = true).
    { apply Hex. exists i. split; [exact Hi|]. rewrite Hblank. apply includes_empty. }
    now rewrite Htrue.
  - reflexivity.
Qed.

Lemma calculateInterestMatch_unit (userInterests : option (list string)) (r : option Role) :
  0 <= calculateInterestMatch userInterests r <= 1.
Proof.
  unfold calculateInterestMatch. destruct userInterests, r; try lra.
  destruct (existsb _ _); lra.
Qed.

Section WithAliases.

Variable skillAliases : gmap string string.

Local Abbreviation canon := (Canon.canonicalizeSkillName skillAliases).

Lemma calculateOverlapRatio_unit
    (userSkills : option (list Token)) (roleSkills : option (list RoleSkill)) :
  (forall us, userSkills = Some us -> NoDup (map canon us)) ->
  0 <= calculateOverlapRatio skillAliases userSkills roleSkills <= 1.
Proof.
  intros Hnd. destruct userSkills as [us|]; [|cbn; lra].
  destruct roleSkills as [rs|]; [|cbn; lra].
  destruct us as [|u us0]; [cbn; lra|]. destruct rs as [|r rs0]; [cbn; lra|].
  apply OverlapFacts.calculateOverlapRatio_distinct; [discriminate | discriminate |].
  now apply Hnd.
Qed.

(** X30: whatever the alias table and the weights, the fit score is 0 when
    either list is empty or absent; and in exact arithmetic, with an alias
    table that names no property of [Object.prototype] and no negative role
    weight, it is a whole number between 0 and 100. *)
Theorem calculateFitScore_range
    (userSkills : option (list Token)) (roleSkills : option (list RoleSkill)) :
  (userSkills = None \/ userSkills = Some [] \/
   roleSkills = None \/ roleSkills = Some [] ->
   calculateFitScore skillAliases userSkills roleSkills = Some 0%Z) /\
  (plainAliases skillAliases ->
   (forall rs skill w,
      roleSkills = Some rs -> skill ∈ rs -> weight skill = Some w -> 0 <= w) ->
   exists fit, calculateFitScore skillAliases userSkills roleSkills = Some fit
               /\ (0 <= fit <= 100)%Z).
Proof.
  split.
  - apply calculateFitScore_empty.
  - intros Hplain. now apply calculateFitScore_percent.
Qed.

(** X10: in exact arithmetic, with an alias table that names no property of
    [Object.prototype], no negative role weight and pairwise distinct
    canonical user skills, the blended score is a whole number between 0 and
    100. *)
Theorem calculateEnhancedFitScore_range
    (userSkills : option (list Token)) (roleSkills : option (list RoleSkill))
    (userInterests : option (list string)) (r : option Role) :
  plainAliases skillAliases ->
  (forall rs skill w,
     roleSkills = Some rs -> skill ∈ rs -> weight skill = Some w -> 0 <= w) ->
  (forall us, userSkills = Some us -> NoDup (map canon us)) ->
  exists total,
    calculateEnhancedFitScore skillAliases userSkills roleSkills userInterests r
    = Some total /\ (0 <= total <= 100)%Z.
Proof.
  intros Hplain Hweights Hnd. unfold calculateEnhancedFitScore.
  destruct (calculateFitScore_percent skillAliases Hplain userSkills roleSkills Hweights)
    as (fit & -> & Hfit0 & Hfit1).
  cbn. eexists. split; [reflexivity|].
  apply Math_round_bounds.
  apply IZR_le in Hfit0, Hfit1.
  pose proof (calculateOverlapRatio_unit userSkills roleSkills Hnd) as Hratio.
  pose proof (calculateInterestMatch_unit userInterests r) as Hinterest.
  split; lra.
Qed.

End WithAliases.

Lemma mockRoleSkills_weights (rs : list RoleSkill) (skill : RoleSkill) (w : R) :
  Some Fixtures.mockRoleSkills = Some rs -> skill ∈ rs -> weight skill = Some w -> 0 <= w.
Proof.
  intros [= <-] Hin Hw. unfold Fixtures.mockRoleSkills in Hin.
  repeat (apply elem_of_cons in Hin as [->|Hin];
          [cbn in Hw; injection Hw as <-; lra|]).
  now apply not_elem_of_nil in Hin.
Qed.

Lemma plainAliases_empty : plainAliases ∅.
Proof. intros key alias Hlook. now rewrite lookup_empty in Hlook. Qed.

Lemma calculateFitScore_range_witness :
  calculateFitScore ∅ (Some []) (Some Fixtures.mockRoleSkills) = Some 0%Z /\
  exists fit, calculateFitScore ∅ (Some Fixtures.mockUserSkills) (Some Fixtures.mockRoleSkills)
              = Some fit /\ (0 <= fit <= 100)%Z.
Proof.
  split.
  - apply (proj1 (calculateFitScore_range ∅ (Some []) (Some Fixtures.mockRoleSkills))).
    right. left. reflexivity.
  - apply (proj2 (calculateFitScore_range ∅ (Some Fixtures.mockUserSkills)
                    (Some Fixtures.mockRoleSkills))).
    + exact plainAliases_empty.
    + exact mockRoleSkills_weights.
Defined.

Lemma calculateEnhancedFitScore_range_witness :
  exists total,
    calculateEnhancedFitScore ∅ (Some Fixtures.mockUserSkills)
      (Some Fixtures.mockRoleSkills) (Some ["data"; "technology"])
      (Some (mkRole "data-analyst" "Data Analyst" "Technology" Fixtures.mockRoleSkills))
    = Some total /\ (0 <= total <= 100)%Z.
Proof.
  apply calculateEnhancedFitScore_range.
  - exact plainAliases_empty.
  - exact mockRoleSkills_weights.
  - intros us [= <-].
    change (map (Canon.canonicalizeSkillName ∅) Fixtures.mockUserSkills)
      with [Text "python"; Text "sql"; Text "excel"].
    repeat apply NoDup_cons_2; try apply NoDup_nil_2;
      rewrite ?elem_of_cons, ?elem_of_nil; intuition discriminate.
Defined.

End ScoreFacts.

Module CleanedEntries.

Import JsString Js ProfileCleaner ProfileFacts CleanedShape.

Section WithAliases.

Variable skillAliases : gmap string string.

Lemma cleanList_entries (limit : nat) (items entries : list value) :
  cleanList skillAliases limit items = Some entries -> Forall cleanEntry entries.
Proof.
  unfold cleanList.
  destruct (mapM (sanitizeSkillValue skillAliases) items) as [sanitized|] eqn:Hmap;
    [|discriminate].
  intros [= <-]. apply mapM_Some in Hmap.
  apply List.Forall_forall. intros v Hv.
  apply List.in_map_iff in Hv as (s & <- & Hs).
  apply list_elem_of_In in Hs. apply subseteq_take in Hs.
  apply list_elem_of_In in Hs.
  apply List.filter_In in Hs as [Hin Hlen]. apply Nat.ltb_lt in Hlen.
  exists s. split; [reflexivity|]. split; [lia|].
  apply list_elem_of_In, list_elem_of_lookup in Hin as [i Hi].
  destruct (Forall2_lookup_r _ _ _ _ _ Hmap Hi) as (item & _ & Hitem).
  destruct item; cbn [sanitizeSkillValue] in Hitem;
    try (injection Hitem as <-; cbn in Hlen; lia).
  eapply CanonShapeFacts.sanitizeSkill_length, Hitem.
Qed.

(** X11: when the cleaning returns a profile that holds a [skills] or an
    [interests] array, the array has no named properties and each entry is a
    string of 1 to 50 code units. *)
Theorem validateAndCleanProfile_entries (profile cleaned : object) (key : string) :
  validateAndCleanProfile skillAliases profile = Some cleaned ->
  key = "skills" \/ key = "interests" ->
  forall items named,
    prop cleaned key = Arr items named ->
    named = [] /\ Forall cleanEntry items.
Proof.
  intros (p1 & p2 & H1 & H2 & ->)%validateAndCleanProfile_steps Hkey items named.
  assert (Hafter : forall k, k = "skills" \/ k = "interests" ->
            prop (coerceEnum "language" validLanguage "en"
                    (coerceEnum "budget" validBudget "free"
                       (coerceEnum "education" validEducation "Other"
                          (clampWeeklyTime p2)))) k = prop p2 k).
  { intros k [-> | ->]; apply prop_getOwn;
      rewrite !coerceEnum_other, clampWeeklyTime_other by discriminate; reflexivity. }
  rewrite (Hafter key Hkey). destruct Hkey as [-> | ->].
  - assert (Hskills : prop p2 "skills" = prop p1 "skills").
    { apply prop_getOwn.
      now apply (cleanArrayField_other skillAliases "interests" "skills" 10 p1 p2). }
    rewrite Hskills. intros Hp.
    destruct (cleanArrayField_own skillAliases "skills" 20 profile p1 H1)
      as [(items0 & named0 & entries & _ & Hclean & Hc) | (Hnot & ->)].
    + rewrite Hc in Hp. injection Hp as <- <-.
      split; [reflexivity | eapply cleanList_entries, Hclean].
    + now apply Hnot in Hp.
  - intros Hp.
    destruct (cleanArrayField_own skillAliases "interests" 10 p1 p2 H2)
      as [(items0 & named0 & entries & _ & Hclean & Hc) | (Hnot & ->)].
    + rewrite Hc in Hp. injection Hp as <- <-.
      split; [reflexivity | eapply cleanList_entries, Hclean].
    + now apply Hnot in Hp.
Qed.

End WithAliases.

Lemma validateAndCleanProfile_entries_witness :
  Forall cleanEntry [Str "python"; Str "sql server"].
Proof.
  eapply (validateAndCleanProfile_entries ∅ sampleProfile _ "skills");
    [reflexivity | left; reflexivity | reflexivity].
Defined.

End CleanedEntries.

(** ** Skill recommendations *)

Module RecommenderFacts.

Import JsString Similarity Ranker Recommender.

Lemma tallyRoles_flat (roles : list Role) (tally : list string * gmap string (option nat)) :
  foldl (fun tally role => foldl countSkill tally (skills role)) tally roles
  = foldl (fun tally skillName =>
             countSkill tally (mkRoleSkill skillName None)) tally
          (concat (map (fun role => map name (skills role)) roles)).
Proof.
  revert tally. induction roles as [|role rest IH]; intros tally; [reflexivity|].
  cbn [foldl map concat]. rewrite foldl_app, <- IH. f_equal.
  generalize (skills role). clear. intros l. revert tally.
  induction l as [|skill l IH]; intros tally; [reflexivity|].
  cbn [foldl map]. rewrite <- IH. f_equal.
Qed.

Lemma count_snoc (names : list string) (x s : string) :
  List.length (filter (fun n => n = s) (names ++ [x]))
  = (List.length (filter (fun n => n = s) names) + if decide (x = s) then 1 else 0)%nat.
Proof.
  rewrite filter_app, length_app. f_equal.
  rewrite filter_cons, filter_nil. now case_decide.
Qed.

(** An own counter, or none yet, of a name that [Object.prototype] does
    not have. *)
Local Abbreviation counts skillFrequency s n :=
  (read skillFrequency s = (match n with O => Missing | S _ => Counter (Some n) end)).

Lemma store_plain (skillFrequency : gmap string (option nat)) (k : string) (n : option nat) :
  Canon.inherited k = false -> store skillFrequency k n = <[k := n]> skillFrequency.
Proof.
  intros Hk. unfold store. destruct (String.eqb k "__proto__") eqn:E; [|reflexivity].
  apply String.eqb_eq in E. subst k. discriminate.
Qed.

(** The tally after the names [raw] have been counted, when none of them is
    a name of [Object.prototype]: the Set holds each normalised name once,
    and a counter is the number of occurrences of its name. *)
Lemma tally_invariant (raw : list string) :
  Forall (fun x => Canon.inherited (normalizeName x) = false) raw ->
  let '(allSkills, skillFrequency) :=
    foldl (fun tally skillName => countSkill tally (mkRoleSkill skillName None))
          ([], ∅) raw in
  NoDup allSkills /\
  (forall s, s ∈ allSkills <-> s ∈ map normalizeName raw) /\
  (forall s, Canon.inherited s = false ->
     counts skillFrequency s
       (List.length (filter (fun n => n = s) (map normalizeName raw)))).
Proof.
  induction raw as [|x rest IH] using rev_ind; intros Hplain.
  - cbn [foldl map]. split; [constructor|]. split; [reflexivity|]. intros s Hs.
    unfold read. now rewrite lookup_empty, Hs.
  - apply Forall_app in Hplain as [Hrest Hx]. apply Forall_inv in Hx.
    specialize (IH Hrest). rewrite foldl_snoc.
    destruct (foldl _ ([], ∅) rest) as [allSkills skillFrequency].
    destruct IH as (Hnd & Hmem & Hfreq).
    unfold countSkill. cbn [name]. set (k := normalizeName x) in *.
    rewrite map_app. cbn [map]. fold k.
    refine (conj _ (conj _ _)).
    + case_decide as Hin; [exact Hnd|].
      apply NoDup_app. split; [exact Hnd|]. split; [|apply NoDup_singleton].
      intros y Hy Hy'. apply list_elem_of_singleton in Hy'. now subst y.
    + intros s. rewrite elem_of_app, list_elem_of_singleton, <- Hmem.
      case_decide as Hin.
      * split; [tauto|]. intros [Hs | ->]; assumption.
      * now rewrite elem_of_app, list_elem_of_singleton.
    + intros s Hs. rewrite count_snoc.
      pose proof (Hfreq k Hx) as Hk. pose proof (Hfreq s Hs) as Hs'.
      set (nk := List.length (filter (fun n => n = k) (map normalizeName rest))) in *.
      set (ns := List.length (filter (fun n => n = s) (map normalizeName rest))) in *.
      assert (Hafter : forall (sf : gmap string (option nat)) (v : option nat) (key : string),
                read (<[k := v]> sf) key
                = if decide (k = key) then Counter v else read sf key).
      { intros sf v key. unfold read. rewrite lookup_insert. now case_decide. }
      assert (Hgoal : forall sf : gmap string (option nat),
                read sf s = (if decide (k = s) then Counter (Some (S nk)) else read skillFrequency s) ->
                counts sf s (ns + (if decide (k = s) then 1 else 0))).
      { intros sf ->. destruct (decide (k = s)) as [Heq|Hne].
        - subst s. replace (ns + 1)%nat with (S nk) by (subst ns nk; lia). reflexivity.
        - rewrite Nat.add_0_r. exact Hs'. }
      apply Hgoal. rewrite Hk. destruct nk as [|nk'].
      * cbn [truthyReading]. rewrite !store_plain by exact Hx.
        rewrite !Hafter. destruct (decide (k = k)) as [_|Hne]; [|congruence].
        now destruct (decide (k = s)).
      * cbn [truthyReading]. rewrite store_plain by exact Hx.
        rewrite Hk, Hafter. reflexivity.
Qed.

Lemma catalogNames_flat (roles : list Role) :
  map normalizeName (concat (map (fun role => map name (skills role)) roles))
  = catalogNames roles.
Proof.
  unfold catalogNames. induction roles as [|role rest IH]; [reflexivity|].
  cbn [map concat]. rewrite map_app, IH. f_equal. apply List.map_map.
Qed.

Lemma elem_of_catalogNames (roles : list Role) (s : string) :
  s ∈ catalogNames roles <->
  exists role skill, role ∈ roles /\ skill ∈ skills role /\ normalizeName (name skill) = s.
Proof.
  unfold catalogNames. induction roles as [|r rest IH]; cbn [map concat].
  - split; [intros H; now apply not_elem_of_nil in H|].
    intros (role & _ & Hrole & _). now apply not_elem_of_nil in Hrole.
  - rewrite elem_of_app, IH. split.
    + intros [Hs|(role & skill & Hrole & Hskill & Heq)].
      * apply list_elem_of_fmap in Hs as (skill & -> & Hskill).
        exists r, skill. split; [left | auto].
      * exists role, skill. split; [now right | auto].
    + intros (role & skill & Hrole & Hskill & <-).
      apply elem_of_cons in Hrole as [->|Hrole].
      * left. apply list_elem_of_fmap. eauto.
      * right. eauto.
Qed.

Lemma tallyRoles_spec (roles : list Role) :
  plainCatalog roles ->
  let '(allSkills, skillFrequency) := tallyRoles roles in
  NoDup allSkills /\
  (forall s, s ∈ allSkills <-> s ∈ catalogNames roles) /\
  (forall s, s ∈ catalogNames roles ->
     readingNumber (read skillFrequency s) = Some (occurrences roles s)).
Proof.
  intros Hplain.
  assert (Hnames : Forall (fun s => Canon.inherited s = false) (catalogNames roles)).
  { apply Forall_forall. intros s (role & skill & Hrole & Hskill & <-)%elem_of_catalogNames.
    now apply (Hplain role skill). }
  unfold tallyRoles, occurrences. rewrite tallyRoles_flat.
  rewrite <- catalogNames_flat in Hnames |- *.
  pose proof (tally_invariant (concat (map (fun role => map name (skills role)) roles)))
    as Hinv.
  destruct (foldl _ ([], ∅) _) as [allSkills skillFrequency].
  destruct Hinv as (Hnd & Hmem & Hfreq).
  { now apply Forall_fmap in Hnames. }
  refine (conj Hnd (conj Hmem _)). intros s Hs.
  rewrite Forall_forall in Hnames. specialize (Hfreq s (Hnames s Hs)).
  rewrite Hfreq.
  destruct (List.length _) eqn:Hcount; [|reflexivity].
  exfalso. apply length_zero_iff_nil in Hcount.
  eapply (filter_nil_not_elem_of _ _ s Hcount); [|exact Hs]. tauto.
Qed.

Lemma sorted_weaken {A : Type} (R R' : A -> A -> Prop) (l : list A) :
  (forall a b, R a b -> R' a b) -> StronglySorted R l -> StronglySorted R' l.
Proof.
  intros Himp. induction 1 as [|a l Hl IH Ha]; constructor; [exact IH|].
  eapply Forall_impl; [exact Ha|]. cbn. auto.
Qed.

(** X12: when no skill of the catalog is named [constructor] or
    [__proto__] (a name of [Object.prototype]), the recommendations are at
    most 10 distinct skill names of the catalog that the user does not have,
    ordered by falling number of occurrences in the catalog; a skill of the
    catalog that is left out is one the user has or one that occurs no more
    often than each of the 10 that are returned. *)
Theorem generateSkillRecommendations_spec (userSkills : list string) (roles : list Role) :
  plainCatalog roles ->
  let result := generateSkillRecommendations (Some userSkills) (Some roles) in
  (List.length result <= 10)%nat /\
  NoDup result /\
  (forall s, s ∈ result ->
     (s ∉ map normalizeName userSkills) /\
     exists role skill,
       role ∈ roles /\ skill ∈ skills role /\ normalizeName (name skill) = s) /\
  StronglySorted (fun a b => (occurrences roles b <= occurrences roles a)%nat) result /\
  (forall s, s ∈ catalogNames roles -> s ∉ map normalizeName userSkills -> s ∉ result ->
     List.length result = 10%nat /\
     forall t, t ∈ result -> (occurrences roles s <= occurrences roles t)%nat).
Proof.
  intros Hplain. cbn zeta. unfold generateSkillRecommendations, slice0.
  pose proof (tallyRoles_spec roles Hplain) as Hspec.
  destruct (tallyRoles roles) as [allSkills skillFrequency].
  destruct Hspec as (Hnd & Hmem & Hfreq).
  set (missing := filter (fun skill => skill ∉ map normalizeName userSkills) allSkills).
  set (key := fun s : string => Z.of_nat (occurrences roles s)).
  assert (Hcompare : sortBy (byFrequency skillFrequency) missing
                     = sortBy (fun a b => (key b - key a)%Z) missing).
  { apply SortFacts.sortBy_ext. intros a b Ha Hb.
    unfold missing in Ha, Hb. apply list_elem_of_filter in Ha as [_ Ha], Hb as [_ Hb].
    apply Hmem in Ha, Hb. unfold byFrequency. now rewrite (Hfreq a Ha), (Hfreq b Hb). }
  rewrite Hcompare.
  set (sorted := sortBy (fun a b => (key b - key a)%Z) missing).
  assert (Hperm : sorted ≡ₚ missing) by apply SortFacts.sortBy_perm.
  assert (Hmissing : forall s, s ∈ sorted <->
            s ∈ catalogNames roles /\ s ∉ map normalizeName userSkills).
  { intros s. rewrite Hperm. unfold missing. rewrite list_elem_of_filter, Hmem. tauto. }
  assert (Hsorted : StronglySorted (fun a b => (key b <= key a)%Z) sorted)
    by apply SortFacts.sortBy_key_sorted.
  rewrite <- (firstn_skipn 10 sorted) in Hsorted.
  apply SortFacts.sorted_split in Hsorted as [Hhead Htail].
  assert (Hin : forall s, s ∈ firstn 10 sorted -> s ∈ sorted).
  { intros s Hs. rewrite <- (firstn_skipn 10 sorted). apply elem_of_app. now left. }
  refine (conj _ (conj _ (conj _ (conj _ _)))).
  - apply firstn_le_length.
  - apply (sublist_NoDup _ sorted); [|apply sublist_take].
    rewrite Hperm. now apply NoDup_filter.
  - intros s Hs. apply Hin, Hmissing in Hs as [Hcat Huser].
    split; [exact Huser | now apply elem_of_catalogNames].
  - eapply sorted_weaken; [|exact Hhead].
    intros a b. unfold key. lia.
  - intros s Hcat Huser Hout.
    assert (Hs : s ∈ sorted) by (apply Hmissing; tauto).
    rewrite <- (firstn_skipn 10 sorted) in Hs. apply elem_of_app in Hs as [Hs|Hs]; [tauto|].
    split.
    + rewrite length_firstn. apply Nat.min_l.
      destruct (le_lt_dec 10 (List.length sorted)) as [Hle|Hlt]; [exact Hle|].
      rewrite skipn_all2 in Hs by lia. now apply not_elem_of_nil in Hs.
    + intros t Ht. specialize (Htail t s Ht Hs). unfold key in Htail. lia.
Qed.

Lemma sampleCatalog_plain : plainCatalog sampleCatalog.
Proof.
  intros role skill Hrole Hskill. unfold sampleCatalog in Hrole.
  repeat (apply elem_of_cons in Hrole as [->|Hrole];
          [cbn [skills] in Hskill;
           repeat (apply elem_of_cons in Hskill as [->|Hskill]; [reflexivity|]);
           now apply not_elem_of_nil in Hskill|]).
  now apply not_elem_of_nil in Hrole.
Qed.

Lemma generateSkillRecommendations_spec_witness :
  NoDup (generateSkillRecommendations (Some ["python"]) (Some sampleCatalog)) /\
  generateSkillRecommendations (Some ["python"]) (Some sampleCatalog) = ["sql"; "spark"].
Proof.
  split.
  - apply (generateSkillRecommendations_spec ["python"] sampleCatalog sampleCatalog_plain).
  - vm_compute. reflexivity.
Defined.

End RecommenderFacts.

(** ** Request validation *)

Module RequestFacts.

Import JsString Js RequestValidator.

Lemma pushIf_nil (violated : bool) (message : string) (errors : list string) :
  pushIf violated message errors = [] <-> violated = false /\ errors = [].
Proof.
  unfold pushIf. destruct violated.
  - split; [|intros [H _]; discriminate H]. intros H. now apply app_eq_nil in H as [_ H].
  - tauto.
Qed.

Lemma pushIf_length (violated : bool) (message : string) (errors : list string) :
  (List.length errors <= List.length (pushIf violated message errors)
   <= S (List.length errors))%nat.
Proof. unfold pushIf. destruct violated; rewrite ?length_app; simpl; lia. Qed.

Lemma pushIf_bound (violated : bool) (message : string) (errors : list string) (n : nat) :
  (List.length errors <= n)%nat -> (List.length (pushIf violated message errors) <= S n)%nat.
Proof. pose proof (pushIf_length violated message errors). lia. Qed.

Lemma oneOf_member (valid : list string) (v : value) :
  oneOf valid v = true <-> exists s, v = Str s /\ s ∈ valid.
Proof.
  split.
  - destruct v; try discriminate. cbn. intros H.
    apply existsb_exists in H as (x & Hx & Heq). apply String.eqb_eq in Heq. subst x.
    exists s. split; [reflexivity | now apply list_elem_of_In].
  - intros (s & -> & Hs). cbn. apply existsb_exists. exists s.
    split; [now apply list_elem_of_In | apply String.eqb_refl].
Qed.

Lemma enum_check (valid : list string) (v : value) :
  EmptyString ∉ valid ->
  (negb (truthy v) || negb (oneOf valid v))%bool = false <->
  exists s, v = Str s /\ s ∈ valid.
Proof.
  intros Hne. rewrite <- oneOf_member. split.
  - intros H. apply Bool.orb_false_elim in H as [_ H]. now apply Bool.negb_false_iff.
  - intros H. rewrite H. destruct (oneOf_member valid v) as [Hm _].
    destruct (Hm H) as (s & -> & Hs). cbn.
    destruct (String.eqb s EmptyString) eqn:Hempty; [|reflexivity].
    apply String.eqb_eq in Hempty. subst s. contradiction.
Qed.

Lemma name_check (v : value) :
  (negb (truthy v) || negb (isString v) || (trimmedLength v <? 2)%nat)%bool = false <->
  exists n, v = Str n /\ (2 <= JsString.length (trim n))%nat.
Proof.
  split.
  - intros H. apply Bool.orb_false_elim in H as [H Hlen].
    apply Bool.orb_false_elim in H as [_ Hstr].
    destruct v; try discriminate. exists s. split; [reflexivity|].
    unfold trimmedLength in Hlen. apply Nat.ltb_ge in Hlen. exact Hlen.
  - intros (n & -> & Hlen). cbn [truthy isString trimmedLength].
    destruct (String.eqb n EmptyString) eqn:Hempty.
    + apply String.eqb_eq in Hempty. subst n. cbn in Hlen. lia.
    + cbn [negb orb]. apply Nat.ltb_ge. exact Hlen.
Qed.

Lemma array_check (v : value) :
  (negb (truthy v) || negb (isArray v) || (arrayLength v =? 0)%nat)%bool = false <->
  exists items named, v = Arr items named /\ items <> [].
Proof.
  split.
  - intros H. apply Bool.orb_false_elim in H as [H Hlen].
    apply Bool.orb_false_elim in H as [_ Harr].
    destruct v; try discriminate. exists items, named. split; [reflexivity|].
    cbn in Hlen. apply Nat.eqb_neq in Hlen. intros ->. now apply Hlen.
  - intros (items & named & -> & Hne). cbn. apply Nat.eqb_neq.
    destruct items; [congruence | discriminate].
Qed.

Lemma weeklyTime_check (v : value) :
  (negb (truthy v) || negb (isNumber v) || ltNumber (numberOf v) (ofZ 1)
   || ltNumber (ofZ 40) (numberOf v))%bool = false <->
  exists q, v = Num (Finite q) /\ (1 <= q <= 40)%Q.
Proof.
  split.
  - intros H. apply Bool.orb_false_elim in H as [H Hhi].
    apply Bool.orb_false_elim in H as [H Hlo].
    apply Bool.orb_false_elim in H as [Ht Hnum].
    destruct v as [| | |n| | |]; try discriminate.
    destruct n as [q| | |]; try discriminate. exists q. split; [reflexivity|].
    cbn in Hlo, Hhi. apply Bool.negb_false_iff in Hlo, Hhi.
    apply Qle_bool_iff in Hlo, Hhi. split; assumption.
  - intros (q & -> & Hlo & Hhi). cbn.
    assert (Hz : Qeq_bool q 0 = false).
    { destruct (Qeq_bool q 0) eqn:Hq; [|reflexivity].
      apply Qeq_bool_iff in Hq. rewrite Hq in Hlo. now apply Qle_bool_iff in Hlo. }
    rewrite Hz. cbn.
    apply Qle_bool_iff in Hlo, Hhi. unfold ofZ, inject_Z in *. now rewrite Hlo, Hhi.
Qed.

Lemma uid_check (v : value) :
  (negb (truthy v) || negb (isString v))%bool = false <->
  exists uid, v = Str uid /\ uid <> EmptyString.
Proof.
  split.
  - intros H. apply Bool.orb_false_elim in H as [Ht Hs].
    destruct v; try discriminate. exists s. split; [reflexivity|].
    cbn in Ht. apply Bool.negb_false_iff, Bool.negb_true_iff in Ht.
    intros ->. discriminate.
  - intros (uid & -> & Hne). cbn. apply String.eqb_neq in Hne. now rewrite Hne.
Qed.

Lemma profile_check (v : value) :
  (negb (truthy v) || negb (isObjectType v))%bool = false <->
  exists items fields, v = Obj fields \/ v = Arr items fields.
Proof.
  split.
  - intros H. apply Bool.orb_false_elim in H as [Ht Ho].
    destruct v; try discriminate.
    + exists items, named. now right.
    + exists [], props. now left.
  - intros (items & fields & [-> | ->]); reflexivity.
Qed.

Lemma no_empty_literal :
  (EmptyString ∉ educations) /\ (EmptyString ∉ budgets) /\ (EmptyString ∉ languages).
Proof.
  repeat split; intros H; repeat (apply elem_of_cons in H as [H|H]; [discriminate H|]);
    now apply not_elem_of_nil in H.
Qed.

(** X13: a request is accepted exactly when [uid] is a non-empty string and
    [profile] an object with a name of two characters or more once trimmed,
    education, budget and language from their enumerations, non-empty
    [skills] and [interests] arrays and a finite [weeklyTime] from 1 to 40. *)
Theorem validateRequest_accepts (body : object) :
  isValid (validateRequest body) = true <-> acceptable body.
Proof.
  destruct no_empty_literal as (He & Hb & Hl).
  unfold validateRequest, acceptable.
  rewrite <- uid_check, <- profile_check.
  destruct (negb (truthy (prop body "profile")) || negb (isObjectType (prop body "profile")))%bool
    eqn:Hprofile.
  - cbn [isValid]. split; [discriminate|]. intros (_ & H & _). discriminate H.
  - cbn zeta. cbn [isValid].
    rewrite <- name_check, <- (enum_check educations) by exact He.
    rewrite <- !array_check, <- weeklyTime_check.
    rewrite <- (enum_check budgets) by exact Hb.
    rewrite <- (enum_check languages) by exact Hl.
    rewrite Nat.eqb_eq, length_zero_iff_nil, !pushIf_nil. tauto.
Qed.

Lemma validateRequest_acceptable (body : object) :
  isValid (validateRequest body) = true -> acceptable body.
Proof.
  destruct no_empty_literal as (He & Hb & Hl).
  unfold validateRequest, acceptable.
  rewrite <- uid_check, <- profile_check.
  destruct (negb (truthy (prop body "profile")) || negb (isObjectType (prop body "profile")))%bool
    eqn:Hprofile; [discriminate|].
  cbn zeta. cbn [isValid].
  rewrite <- name_check, <- (enum_check educations) by exact He.
  rewrite <- !array_check, <- weeklyTime_check.
  rewrite <- (enum_check budgets) by exact Hb.
  rewrite <- (enum_check languages) by exact Hl.
  rewrite Nat.eqb_eq, length_zero_iff_nil, !pushIf_nil. tauto.
Qed.

(** X14: the verdict is positive exactly when no error is reported; at most
    8 errors are reported; and without a [profile] object the only errors are
    the one about [uid], if any, and the one about [profile]. *)
Theorem validateRequest_errors (body : object) :
  (isValid (validateRequest body) = true <-> errors (validateRequest body) = []) /\
  (List.length (errors (validateRequest body)) <= 8)%nat /\
  ((negb (truthy (prop body "profile")) || negb (isObjectType (prop body "profile")))%bool
   = true ->
   isValid (validateRequest body) = false /\
   exists before,
     errors (validateRequest body)
     = before ++ ["profile is required and must be an object"] /\
     (before = [] \/ before = ["uid is required and must be a string"])).
Proof.
  unfold validateRequest.
  set (uidViolated := (negb (truthy (prop body "uid")) || negb (isString (prop body "uid")))%bool).
  destruct (negb (truthy (prop body "profile")) || negb (isObjectType (prop body "profile")))%bool.
  - cbn [isValid errors]. refine (conj _ (conj _ _)).
    + split; [discriminate|]. intros H. now apply app_eq_nil in H as [_ H].
    + unfold pushIf. destruct uidViolated; cbn; lia.
    + intros _. split; [reflexivity|]. eexists. split; [reflexivity|].
      unfold pushIf. destruct uidViolated; auto.
  - cbn zeta. cbn [isValid errors]. refine (conj _ (conj _ _)).
    + now rewrite Nat.eqb_eq, length_zero_iff_nil.
    + do 8 apply pushIf_bound. reflexivity.
    + discriminate.
Qed.

End RequestFacts.

(** ** Normalisation of an accepted request *)

Module NormaliseFacts.

Import JsString Js RequestValidator RequestFacts.

Lemma clamp_accepted (q : Q) :
  (1 <= q <= 40)%Q ->
  eqNumber (Math_min (Math_max (Finite q) (ofZ 1)) (ofZ 40)) (Finite q) = true.
Proof.
  intros [Hlo Hhi]. unfold Math_max, Math_min, ofZ, leNumber.
  destruct (Qle_bool q (inject_Z 1)) eqn:H1.
  - cbn. apply Qeq_bool_iff. apply Qle_bool_iff in H1. now apply Qle_antisym.
  - destruct (Qle_bool q (inject_Z 40)) eqn:H40.
    + cbn. apply Qeq_bool_iff. reflexivity.
    + apply Qle_bool_iff in Hhi. unfold inject_Z in H40. congruence.
Qed.

Lemma filter_nonEmpty (l : list string) :
  Forall (fun s => s <> EmptyString) (List.filter nonEmpty l).
Proof.
  apply List.Forall_forall. intros s Hs. apply List.filter_In in Hs as [_ Hs].
  unfold nonEmpty in Hs. apply Nat.ltb_lt in Hs. intros ->. cbn in Hs. lia.
Qed.

Lemma fieldsOf_member (profile : value) (items : list value) (fields : object) (key : string) :
  profile = Obj fields \/ profile = Arr items fields ->
  fieldsOf profile = fields /\ getMember profile key = Some (prop fields key).
Proof. intros [-> | ->]; split; reflexivity. Qed.

Section WithRuntime.

Variable skillAliases : gmap string string.
Variable toNumberOther : value -> option number.

Local Abbreviation normalize := (normalizeProfile skillAliases toNumberOther).

(** X15: for a request that [validateRequest] accepts, [normalizeProfile]
    fails (with a [TypeError]) exactly when some interest is not a string;
    when it succeeds, the name is the trimmed name, the weekly time is the
    submitted number, education, budget and language are passed on, no skill
    and no interest is empty (every skill has a non-zero length), and there
    are no more skills than submitted. *)
Theorem normalizeProfile_accepted (body : object) :
  isValid (validateRequest body) = true ->
  let profile := fieldsOf (prop body "profile") in
  (is_Some (normalize (prop body "profile")) <->
   forall items named, prop profile "interests" = Arr items named ->
                       Forall (fun v => isString v = true) items) /\
  forall n, normalize (prop body "profile") = Some n ->
    (exists s, prop profile "name" = Str s /\ nName n = trim s) /\
    (exists x, prop profile "weeklyTime" = Num x /\ eqNumber (nWeeklyTime n) x = true) /\
    nEducation n = prop profile "education" /\
    nBudget n = prop profile "budget" /\
    nLanguage n = prop profile "language" /\
    Forall (fun t => Canon.hasLength t = true /\ t <> Canon.Text EmptyString) (nSkills n) /\
    Forall (fun s => s <> EmptyString) (nInterests n) /\
    (List.length (nSkills n) <= arrayLength (prop profile "skills"))%nat.
Proof.
  intros Hvalid. apply validateRequest_acceptable in Hvalid.
  destruct Hvalid as (_ & (pitems & fields & Hshape) & Hfields). cbn zeta in *.
  pose proof (fun key => proj2 (fieldsOf_member _ pitems fields key Hshape)) as Hget.
  rewrite (proj1 (fieldsOf_member _ pitems fields "name" Hshape)) in *.
  destruct Hfields as ((name & Hname & _) & _ & (skills & snamed & Hskills & _)
                       & (interests & inamed & Hinterests & _)
                       & (q & Hweekly & Hrange) & _ & _).
  unfold normalizeProfile. rewrite !Hget, Hname, Hskills, Hinterests, Hweekly.
  cbn [mbind option_bind toNumber].
  split.
  - split.
    + intros [n Hn] items named [= <- <-].
      destruct (mapM (normalizeInterest) interests) as [l|] eqn:Hmap; [|discriminate Hn].
      assert (Hsome : is_Some (mapM normalizeInterest interests)) by eauto.
      apply mapM_is_Some in Hsome. eapply Forall_impl; [exact Hsome|].
      intros v [s Hs]. destruct v; try discriminate Hs. reflexivity.
    + intros Hall. specialize (Hall interests inamed eq_refl).
      assert (Hsome : is_Some (mapM normalizeInterest interests)).
      { apply mapM_is_Some. eapply Forall_impl; [exact Hall|].
        intros v Hv. destruct v; try discriminate Hv. cbn. eauto. }
      destruct Hsome as [l ->]. cbn. eauto.
  - intros n Hn.
    destruct (mapM normalizeInterest interests) as [l|]; [|discriminate Hn].
    cbn in Hn. injection Hn as <-. cbn [nName nWeeklyTime nEducation nBudget nLanguage
                                         nSkills nInterests].
    refine (conj _ (conj _ (conj eq_refl (conj eq_refl (conj eq_refl
             (conj _ (conj _ _))))))).
    + exists name. auto.
    + exists (Finite q). split; [reflexivity | now apply clamp_accepted].
    + apply List.Forall_forall. intros t Ht. apply List.filter_In in Ht as [_ Ht].
      split; [exact Ht|]. intros ->. discriminate Ht.
    + apply filter_nonEmpty.
    + cbn [arrayLength]. rewrite <- (length_map (canonicalizeValue skillAliases) skills).
      generalize (map (canonicalizeValue skillAliases) skills). clear.
      intros names. induction names as [|s names IH]; cbn [List.filter List.length]; [lia|].
      destruct (Canon.hasLength s); cbn [List.length]; lia.
Qed.

End WithRuntime.

Lemma normalizeProfile_accepted_witness :
  is_Some (normalizeProfile ∅ (fun _ => Some NaN)
             (prop RequestFixtures.sampleRequest "profile")).
Proof.
  apply (normalizeProfile_accepted ∅ (fun _ => Some NaN) RequestFixtures.sampleRequest).
  - reflexivity.
  - intros items named [= <- <-]. repeat constructor.
Defined.

End NormaliseFacts.

(** ** The retry loop of the AI capability *)

Module GeminiFacts.

Import JsString Js Gemini.

Section Network.

Variable net : nat -> FetchResult.

Lemma callGeminiAPI_next (n : nat) :
  (n < next (callGeminiAPI net n) <= n + 3)%nat.
Proof.
  unfold callGeminiAPI. cbn [attempts].
  destruct (attemptOnce (net n)); [|cbn; lia].
  destruct (attemptOnce (net (S n))); [|cbn; lia].
  destruct (attemptOnce (net (S (S n)))); cbn; lia.
Qed.

(** X16: a call makes one, two or three requests.  It returns the text of
    the first attempt that succeeds, after sleeping 1000 ms and then 2000 ms
    between the attempts made; when the three attempts fail it throws the
    error of the third, having slept 1000 and 2000 ms and no more. *)
Theorem callGeminiAPI_retries (n : nat) :
  let call := callGeminiAPI net n in
  (n < next call <= n + 3)%nat /\
  (forall text, outcome call = inr text ->
     exists k, (k < 3)%nat /\ attemptOnce (net (n + k)) = inr text /\
               (forall j, (j < k)%nat -> exists e, attemptOnce (net (n + j)) = inl e) /\
               next call = (n + k + 1)%nat /\
               waited call = firstn k [1000; 2000]%Z) /\
  (forall e, outcome call = inl e ->
     attemptOnce (net (n + 2)) = inl e /\
     (forall j, (j < 3)%nat -> exists e', attemptOnce (net (n + j)) = inl e') /\
     next call = (n + 3)%nat /\
     waited call = [1000; 2000]%Z).
Proof.
  cbn zeta. unfold callGeminiAPI. cbn [attempts].
  replace (n + 2)%nat with (S (S n)) by lia.
  destruct (attemptOnce (net n)) as [e0|t0] eqn:H0.
  2:{ cbn. refine (conj _ (conj _ _)); [lia| |discriminate].
      intros text [= <-]. exists 0%nat. rewrite Nat.add_0_r.
      refine (conj _ (conj H0 (conj _ (conj _ eq_refl)))); [lia | | lia].
      intros j Hj. lia. }
  destruct (attemptOnce (net (S n))) as [e1|t1] eqn:H1.
  2:{ cbn. refine (conj _ (conj _ _)); [lia| |discriminate].
      intros text [= <-]. exists 1%nat. replace (n + 1)%nat with (S n) by lia.
      refine (conj _ (conj H1 (conj _ (conj _ eq_refl)))); [lia | | lia].
      intros j Hj. assert (j = 0)%nat as -> by lia. rewrite Nat.add_0_r. eauto. }
  destruct (attemptOnce (net (S (S n)))) as [e2|t2] eqn:H2.
  2:{ cbn. refine (conj _ (conj _ _)); [lia| |discriminate].
      intros text [= <-]. exists 2%nat. replace (n + 2)%nat with (S (S n)) by lia.
      refine (conj _ (conj H2 (conj _ (conj _ eq_refl)))); [lia | | lia].
      intros j Hj. destruct j as [|[|j]]; [| |lia].
      - rewrite Nat.add_0_r. eauto.
      - replace (n + 1)%nat with (S n) by lia. eauto. }
  cbn. refine (conj _ (conj _ _)); [lia|discriminate|].
  intros e [= <-]. refine (conj eq_refl (conj _ (conj _ eq_refl))); [|lia].
  intros j Hj. destruct j as [|[|[|j]]]; [| | |lia].
  - rewrite Nat.add_0_r. eauto.
  - replace (n + 1)%nat with (S n) by lia. eauto.
  - replace (n + 2)%nat with (S (S n)) by lia. eauto.
Qed.

Lemma callGeminiAPI_all_fail (n : nat) :
  (forall k, exists e, attemptOnce (net k) = inl e) ->
  exists e, outcome (callGeminiAPI net n) = inl e /\ next (callGeminiAPI net n) = (n + 3)%nat.
Proof.
  intros Hfail. unfold callGeminiAPI. cbn [attempts].
  destruct (Hfail n) as [e0 ->]. destruct (Hfail (S n)) as [e1 ->].
  destruct (Hfail (S (S n))) as [e2 ->]. cbn. exists e2. split; [reflexivity | lia].
Qed.

End Network.

(** X17: a response outside 200..299 fails the attempt, whatever its body
    holds, and so do a rejected request and a body that is not JSON; the
    back-off grows from 1000 ms by doubling and never exceeds 8000 ms. *)
Theorem attempt_failures (status : Z) (body : Body) (attempt : Z) :
  ((status < 200 \/ 299 < status)%Z ->
   attemptOnce (Response status body) = inl (statusError status)) /\
  attemptOnce Rejected = inl Runtime /\
  (exists e, attemptOnce (Response status NotJson) = inl e) /\
  ((1 <= attempt)%Z -> (1000 <= backoff attempt <= 8000)%Z /\
                       (backoff attempt <= backoff (attempt + 1))%Z /\
                       ((attempt <= 3)%Z -> backoff attempt = (1000 * 2 ^ (attempt - 1))%Z)).
Proof.
  refine (conj _ (conj eq_refl (conj _ _))).
  - intros Hrange. unfold attemptOnce, ok.
    destruct (200 <=? status)%Z eqn:Hlo, (status <=? 299)%Z eqn:Hhi; cbn; try reflexivity.
    apply Z.leb_le in Hlo, Hhi. lia.
  - unfold attemptOnce. destruct (negb (ok status)); eauto.
  - intros Hattempt. unfold backoff.
    assert (Hpow : (0 < 2 ^ (attempt - 1))%Z) by (apply Z.pow_pos_nonneg; lia).
    assert (Hmono : (2 ^ (attempt - 1) <= 2 ^ (attempt + 1 - 1))%Z)
      by (apply Z.pow_le_mono_r; lia).
    refine (conj _ (conj _ _)); [lia | lia |].
    intros Hle.
    assert (Hcases : (attempt = 1 \/ attempt = 2 \/ attempt = 3)%Z) by lia.
    destruct Hcases as [-> | [-> | ->]]; reflexivity.
Qed.

Lemma attempt_failures_witness :
  attemptOnce (Response 429 (Json Null)) = inl (Error "AI service quota exceeded") /\
  (backoff 2 = 2000)%Z.
Proof.
  split.
  - apply (attempt_failures 429 (Json Null) 1). right. lia.
  - assert (H : (1000 <= backoff 2 <= 8000)%Z /\ (backoff 2 <= backoff (2 + 1))%Z /\
                ((2 <= 3)%Z -> backoff 2 = (1000 * 2 ^ (2 - 1))%Z)).
    { apply (attempt_failures 429 NotJson 2). lia. }
    destruct H as (_ & _ & H). rewrite H by lia. reflexivity.
Defined.

End GeminiFacts.

(** ** The orchestrator and the handler *)

Module OrchestratorFacts.

Import JsString Js Similarity Ranker RequestValidator Gemini Orchestrator.

Lemma parseLearningPlanValue_weeks (planResponse : value) :
  exists items named,
    getMember (parseLearningPlanValue planResponse) "weeks" = Some (Arr items named) /\
    List.length items = 4%nat.
Proof.
  destruct planResponse; cbn [parseLearningPlanValue];
    try (eexists _, _; split; reflexivity).
  destruct (PlanFacts.parseLearningPlan_weeks s) as (items & named & H1 & H2 & _). eauto.
Qed.

Lemma Forall2_impl_elem {A B : Type} (P Q : A -> B -> Prop) (l : list A) (k : list B) :
  Forall2 P l k -> (forall x y, y ∈ k -> P x y -> Q x y) -> Forall2 Q l k.
Proof.
  induction 1 as [|x y l k Hxy Hrest IH]; intros Himp; constructor.
  - apply Himp; [left | exact Hxy].
  - apply IH. intros x' y' Hy'. apply Himp. now right.
Qed.

Section Service.

Variable skillAliases : gmap string string.
Variable calculateEnhancedFitScore :
  option (list Canon.Token) -> option (list RoleSkill) -> option (list string)
  -> option Role -> option Z.
Variable roles : list Role.
Variable toNumberOther : value -> option number.
Variable net : nat -> FetchResult.
Variable trends : string -> TrendRead.
Variable typeErrorMessage : string.

Local Abbreviation recommendRole := (recommendRole calculateEnhancedFitScore net trends).
Local Abbreviation recommendAll := (recommendAll calculateEnhancedFitScore net trends).
Local Abbreviation topRolesOf := (topRolesOf skillAliases calculateEnhancedFitScore roles).
Local Abbreviation generateRecommendations :=
  (generateRecommendations skillAliases calculateEnhancedFitScore roles net trends).
Local Abbreviation recommend :=
  (recommend skillAliases calculateEnhancedFitScore roles toNumberOther net trends
     typeErrorMessage).
Local Abbreviation builtFrom := (builtFrom calculateEnhancedFitScore).

Local Abbreviation answered := (answered net).

Lemma recommendRole_spec (profile : Normalized) (role : RoleMatch) (n : nat) :
  let '(made, n') := recommendRole profile role n in
  (n < n' <= n + 6)%nat /\
  (answered n = true -> exists r, made = Some r /\ builtFrom profile role r) /\
  (answered n = false -> made = None).
Proof.
  unfold Orchestrator.recommendRole, Orchestrator.answered.
  pose proof (GeminiFacts.callGeminiAPI_next net n) as H1.
  destruct (outcome (callGeminiAPI net n)) as [e|explanation].
  - split; [lia|]. split; [discriminate | reflexivity].
  - pose proof (GeminiFacts.callGeminiAPI_next net (next (callGeminiAPI net n))) as H2.
    destruct (outcome (callGeminiAPI net (next (callGeminiAPI net n)))) as [e|planResponse].
    + split; [lia|]. split; [discriminate | reflexivity].
    + split; [lia|]. split; [|discriminate]. intros _.
      eexists. split; [reflexivity|]. unfold Orchestrator.builtFrom. cbn.
      refine (conj eq_refl (conj eq_refl (conj eq_refl (conj eq_refl (conj eq_refl
               (conj _ _)))))).
      * destruct (truthy explanation) eqn:Ht; [exact Ht | reflexivity].
      * apply parseLearningPlanValue_weeks.
Qed.

(** The rounds of the loop: [starts] holds the number of the first request
    of each round. *)
Lemma recommendAll_rounds (profile : Normalized) (topRoles : list RoleMatch) :
  forall n,
  let '(made, n') := recommendAll profile topRoles n in
  exists starts,
    List.length starts = List.length topRoles /\
    (starts ++ [n']) !! 0%nat = Some n /\
    (forall i s s', (starts ++ [n']) !! i = Some s -> (starts ++ [n']) !! S i = Some s' ->
                    (s < s' <= s + 6)%nat) /\
    Forall2 (fun r round => builtFrom profile (fst round) r) made
      (List.filter (fun round => answered (snd round)) (zip topRoles starts)).
Proof.
  induction topRoles as [|role rest IH]; intros n; cbn [Orchestrator.recommendAll].
  - exists []. refine (conj eq_refl (conj eq_refl (conj _ _))); [|constructor].
    intros [|i] s s' _ Hs'; discriminate Hs'.
  - pose proof (recommendRole_spec profile role n) as Hrole.
    destruct (recommendRole profile role n) as [made n1].
    destruct Hrole as (Hn1 & Hyes & Hno).
    specialize (IH n1). destruct (recommendAll profile rest n1) as [others n2].
    destruct IH as (starts & Hlen & Hfirst & Hchain & Hbuilt).
    exists (n :: starts). refine (conj _ (conj eq_refl (conj _ _))).
    + cbn [List.length]. now rewrite Hlen.
    + intros [|i] s s' Hs Hs'.
      * change (Some n = Some s) in Hs.
        change ((starts ++ [n2]) !! 0%nat = Some s') in Hs'.
        injection Hs as <-. rewrite Hfirst in Hs'. injection Hs' as <-.
        exact Hn1.
      * apply (Hchain i s s' Hs Hs').
    + cbn [zip zip_with List.filter snd].
      destruct (answered n) eqn:Hanswered.
      * destruct (Hyes eq_refl) as (r & -> & Hr). now constructor.
      * now rewrite (Hno eq_refl).
Qed.

Lemma recommendAll_spec (profile : Normalized) (topRoles : list RoleMatch) :
  forall n,
  let '(made, n') := recommendAll profile topRoles n in
  (n <= n' <= n + 6 * List.length topRoles)%nat /\
  (List.length made <= List.length topRoles)%nat.
Proof.
  induction topRoles as [|role rest IH]; intros n; cbn [Orchestrator.recommendAll].
  - cbn. lia.
  - pose proof (recommendRole_spec profile role n) as Hrole.
    destruct (recommendRole profile role n) as [made n1]. destruct Hrole as [Hn1 _].
    specialize (IH n1). destruct (recommendAll profile rest n1) as [others n2].
    destruct IH as (Hn2 & Hlen). cbn [List.length].
    destruct made as [r0|]; cbn [List.length]; lia.
Qed.

Lemma topRolesOf_length (profile : Normalized) :
  List.length (topRolesOf profile) = Nat.min 3 (List.length roles).
Proof.
  unfold Orchestrator.topRolesOf, getTopRoleMatches, slice0.
  rewrite length_firstn, SortFacts.sortBy_perm. unfold roleScores.
  now rewrite length_map.
Qed.

Lemma topRolesOf_scored (profile : Normalized) (m : RoleMatch) :
  m ∈ topRolesOf profile ->
  score m
  = calculateEnhancedFitScore (Some (nSkills profile))
      (Some (skills (Ranker.role m))) (Some (nInterests profile)) (Some (Ranker.role m)).
Proof.
  unfold Orchestrator.topRolesOf, getTopRoleMatches, slice0. intros Hm.
  apply subseteq_take in Hm. rewrite SortFacts.sortBy_perm in Hm.
  now apply RankerFacts.roleScores_elem in Hm.
Qed.

Lemma generateRecommendations_count (profile : Normalized) (n : nat) :
  let '(made, n') := generateRecommendations profile n in
  (List.length made <= 3)%nat /\ (n <= n' <= n + 18)%nat.
Proof.
  unfold Orchestrator.generateRecommendations.
  pose proof (recommendAll_spec profile (topRolesOf profile) n) as Hall.
  destruct (recommendAll profile (topRolesOf profile) n) as [made n'].
  destruct Hall as (Hn & Hlen).
  pose proof (topRolesOf_length profile) as Hthree. lia.
Qed.

(** X18: the orchestrator goes through the top roles in the order of the
    ranking, one round each; a round makes 1 to 6 requests; the roles whose
    round is answered (the explanation and the plan both arrive) give the
    recommendations, in that order, and the other roles are skipped.  A
    recommendation carries the id and title of its role, the role's ranking
    score as its fit score, the overlap and gap skills of the ranking, a
    non-empty explanation and a plan of exactly 4 weeks.  There are at most 3
    recommendations, no more than the catalog has roles, and at most 18
    requests. *)
Theorem generateRecommendations_spec (profile : Normalized) (n : nat) :
  let '(made, n') := generateRecommendations profile n in
  (List.length made <= 3)%nat /\
  (List.length made <= List.length roles)%nat /\
  (n <= n' <= n + 18)%nat /\
  exists starts,
    List.length starts = List.length (topRolesOf profile) /\
    (starts ++ [n']) !! 0%nat = Some n /\
    (forall i s s', (starts ++ [n']) !! i = Some s -> (starts ++ [n']) !! S i = Some s' ->
                    (s < s' <= s + 6)%nat) /\
    Forall2
      (fun r round =>
         let m := fst round in
         recRoleId r = roleId (Ranker.role m) /\
         recTitle r = title (Ranker.role m) /\
         recFitScore r = score m /\
         recOverlapSkills r = overlapSkills m /\
         recGapSkills r = gapSkills m /\
         truthy (recWhy r) = true /\
         exists items named,
           getMember (recPlan r) "weeks" = Some (Arr items named) /\
           List.length items = 4%nat)
      made
      (List.filter (fun round => answered (snd round)) (zip (topRolesOf profile) starts)).
Proof.
  unfold Orchestrator.generateRecommendations.
  pose proof (recommendAll_spec profile (topRolesOf profile) n) as Hall.
  pose proof (recommendAll_rounds profile (topRolesOf profile) n) as Hrounds.
  destruct (recommendAll profile (topRolesOf profile) n) as [made n'].
  destruct Hall as (Hn & Hlen).
  destruct Hrounds as (starts & Hstarts & Hfirst & Hchain & Hbuilt).
  pose proof (topRolesOf_length profile) as Hthree.
  refine (conj _ (conj _ (conj _ _))); [lia | lia | lia |].
  exists starts. refine (conj Hstarts (conj Hfirst (conj Hchain _))).
  eapply Forall2_impl_elem; [exact Hbuilt|].
  intros r round Hround Hb. cbn zeta.
  assert (Hm : fst round ∈ topRolesOf profile).
  { apply list_elem_of_In, List.filter_In in Hround as [Hround _].
    apply list_elem_of_In in Hround. destruct round as [m start].
    now apply elem_of_zip_l in Hround. }
  destruct Hb as (H1 & H2 & H3 & H4 & H5 & H6 & H7).
  rewrite (topRolesOf_scored profile _ Hm). auto 10.
Qed.

Lemma classify_status (message : string) :
  (Http.statusCode message = 500 \/ Http.statusCode message = 429
   \/ Http.statusCode message = 408)%Z.
Proof.
  unfold Http.statusCode, Http.classify.
  repeat (destruct (includes message _); [cbn; lia|]). cbn. lia.
Qed.

(** X19: the reply has the status 200, 400, 408, 429 or 500; it is 400
    exactly when the validation fails, and 408 or 429 only when the
    normalisation raised; recommendations are sent exactly with the status
    200, between 1 and 3 of them, and every other reply carries an error
    text; no request is made when the validation fails, when the profile
    cannot be normalised or when there is no API key, and at most 18 are. *)
Theorem recommend_reply (body : object) (geminiApiKey : option string) (n : nat) :
  let '(reply, n') := recommend body geminiApiKey n in
  (status reply = 200 \/ status reply = 400 \/ status reply = 408
   \/ status reply = 429 \/ status reply = 500)%Z /\
  (status reply = 400%Z <-> isValid (validateRequest body) = false) /\
  (status reply = 408%Z \/ status reply = 429%Z ->
   normalizeProfile skillAliases toNumberOther (prop body "profile") = None) /\
  (status reply = 200%Z ->
   (1 <= List.length (recommendations reply) <= 3)%nat /\ error reply = None) /\
  (status reply <> 200%Z -> recommendations reply = [] /\ error reply <> None) /\
  (isValid (validateRequest body) = false \/ geminiApiKey = None
   \/ normalizeProfile skillAliases toNumberOther (prop body "profile") = None ->
   n' = n) /\
  (n <= n' <= n + 18)%nat.
Proof.
  unfold Orchestrator.recommend.
  destruct (isValid (validateRequest body)) eqn:Hvalid; cbn [negb].
  2:{ cbn. refine (conj _ (conj _ (conj _ (conj _ (conj _ (conj _ _)))))).
      - lia.
      - tauto.
      - lia.
      - discriminate.
      - intros _. split; [reflexivity | discriminate].
      - reflexivity.
      - lia. }
  destruct (normalizeProfile skillAliases toNumberOther (prop body "profile"))
    as [profile|] eqn:Hnorm.
  2:{ pose proof (classify_status typeErrorMessage) as Hcode.
      unfold Http.statusCode in Hcode.
      destruct (Http.classify typeErrorMessage) as [code message]. cbn in Hcode |- *.
      refine (conj _ (conj _ (conj _ (conj _ (conj _ (conj _ _)))))).
      - lia.
      - split; [lia | discriminate].
      - reflexivity.
      - lia.
      - intros _. split; [reflexivity | discriminate].
      - reflexivity.
      - lia. }
  destruct geminiApiKey as [key|].
  2:{ cbn. refine (conj _ (conj _ (conj _ (conj _ (conj _ (conj _ _)))))).
      - lia.
      - split; discriminate.
      - lia.
      - discriminate.
      - intros _. split; [reflexivity | discriminate].
      - reflexivity.
      - lia. }
  pose proof (generateRecommendations_count profile n) as Hgen.
  destruct (generateRecommendations profile n) as [made n'].
  destruct Hgen as (Hthree & Hn).
  destruct (List.length made =? 0)%nat eqn:Hempty.
  - cbn. refine (conj _ (conj _ (conj _ (conj _ (conj _ (conj _ _)))))).
    + lia.
    + split; discriminate.
    + lia.
    + discriminate.
    + intros _. split; [reflexivity | discriminate].
    + intros [H | [H | H]]; discriminate H.
    + lia.
  - apply Nat.eqb_neq in Hempty. cbn.
    refine (conj _ (conj _ (conj _ (conj _ (conj _ (conj _ _)))))).
    + lia.
    + split; discriminate.
    + lia.
    + intros _. split; [lia | reflexivity].
    + intros H. now contradict H.
    + intros [H | [H | H]]; discriminate H.
    + lia.
Qed.

(** X20: when every request to the capability fails (a quota error
    included), a valid request with an API key is answered with the status
    500 and the error "Failed to generate recommendations", after 3 requests
    for each top role: the failures are absorbed role by role and no status
    429 or 408 comes of them. *)
Theorem recommend_upstream_failure
    (body : object) (key : string) (n : nat) (profile : Normalized) :
  isValid (validateRequest body) = true ->
  normalizeProfile skillAliases toNumberOther (prop body "profile") = Some profile ->
  (forall k, exists e, attemptOnce (net k) = inl e) ->
  fst (recommend body (Some key) n)
  = mkReply 500 (Some "Failed to generate recommendations") [] /\
  snd (recommend body (Some key) n) = (n + 3 * List.length (topRolesOf profile))%nat.
Proof.
  intros Hvalid Hnorm Hfail. unfold Orchestrator.recommend.
  rewrite Hvalid, Hnorm. cbn [negb].
  assert (Hall : forall topRoles m,
             recommendAll profile topRoles m = ([], (m + 3 * List.length topRoles)%nat)).
  { induction topRoles as [|role rest IH]; intros m; cbn [Orchestrator.recommendAll].
    - cbn. f_equal. lia.
    - unfold Orchestrator.recommendRole.
      destruct (GeminiFacts.callGeminiAPI_all_fail net m Hfail) as (e & -> & ->).
      rewrite IH. cbn [List.length]. f_equal. lia. }
  unfold Orchestrator.generateRecommendations. rewrite Hall. cbn. auto.
Qed.

End Service.

Lemma recommend_upstream_failure_witness :
  recommend ∅ (calculateEnhancedFitScore ∅) Recommender.sampleCatalog
    (fun _ => Some Js.NaN) (fun _ => Response 429 NotJson) (fun _ => ReadFailed)
    "x.trim is not a function" RequestFixtures.sampleRequest (Some "key") 0
  = (mkReply 500 (Some "Failed to generate recommendations") [], 6%nat).
Proof.
  destruct (normalizeProfile ∅ (fun _ => Some Js.NaN)
              (prop RequestFixtures.sampleRequest "profile")) as [profile|] eqn:Hnorm;
    [|discriminate Hnorm].
  destruct (recommend_upstream_failure ∅ (calculateEnhancedFitScore ∅)
              Recommender.sampleCatalog (fun _ => Some Js.NaN)
              (fun _ => Response 429 NotJson) (fun _ => ReadFailed)
              "x.trim is not a function" RequestFixtures.sampleRequest "key" 0 profile)
    as [Hreply Hcount].
  - reflexivity.
  - exact Hnorm.
  - intros k. eexists. reflexivity.
  - rewrite topRolesOf_length in Hcount.
    destruct (recommend _ _ _ _ _ _ _ _ _ _) as [reply count].
    cbn [fst snd] in Hreply, Hcount. now rewrite Hreply, Hcount.
Defined.

End OrchestratorFacts.

(** ** The repaired plan *)

Module PlanShapeFacts.

Import JsString Js PlanParser PlanShape PlanFacts.

Lemma valid_fix (key : string) (test : value -> bool) (fallback week : value) :
  valid test week key = true -> defaultMember key test fallback week = Some week.
Proof.
  unfold valid, defaultMember.
  destruct (getMember week key) as [current|]; [cbn|discriminate].
  intros [-> ->]%andb_prop. reflexivity.
Qed.

Lemma defaultMember_valid (key : string) (test : value -> bool) (fallback week week' : value) :
  defaultMember key test fallback week = Some week' -> isPrimitive week = false ->
  truthy fallback = true -> test fallback = true ->
  valid test week' key = true.
Proof.
  intros [(-> & current & Hget & Htruthy & Htest)|Hset]%defaultMember_cases Hprim Ht Hc;
    unfold valid.
  - now rewrite Hget, Htruthy, Htest.
  - now rewrite (getMember_setMember_eq week week' fallback key Hprim Hset), Ht, Hc.
Qed.

Lemma truthy_position (index : nat) : truthy (Num (ofNat (index + 1))) = true.
Proof.
  cbn. destruct (Qeq_bool _ 0) eqn:H; [|reflexivity].
  apply Qeq_bool_iff in H. unfold Qeq in H. cbn in H. lia.
Qed.

Lemma defaultMember_valid_other (key key' : string) (test test' : value -> bool)
    (fallback week week' : value) :
  key <> key' -> defaultMember key test fallback week = Some week' ->
  valid test' week' key' = valid test' week key'.
Proof.
  intros Hne Hd. unfold valid.
  now rewrite (defaultMember_other key key' test fallback week week' Hne Hd).
Qed.

Lemma defaultMember_frame (key : string) (test : value -> bool) (fallback week week' : value)
    (key' : string) :
  defaultMember key test fallback week = Some week' ->
  getMember week' key' = getMember week key' \/ (key' = key /\ valid test week key = false).
Proof.
  intros Hd. destruct (String.eqb_spec key key') as [<-|Hne].
  - destruct (valid test week key) eqn:Hv; [|now right].
    left. rewrite (valid_fix key test fallback week Hv) in Hd. now injection Hd as <-.
  - left. now apply (defaultMember_other key key' test fallback week week').
Qed.

Ltac chain H :=
  unfold validateWeek in H;
  let w1 := fresh "w1" in let w2 := fresh "w2" in
  let w3 := fresh "w3" in let w4 := fresh "w4" in
  let H1 := fresh "H1" in let H2 := fresh "H2" in
  let H3 := fresh "H3" in let H4 := fresh "H4" in
  destruct (defaultMember "week" _ _ _) as [w1|] eqn:H1; [cbn in H|discriminate];
  destruct (defaultMember "topics" _ _ w1) as [w2|] eqn:H2; [cbn in H|discriminate];
  destruct (defaultMember "practice" _ _ w2) as [w3|] eqn:H3; [cbn in H|discriminate];
  destruct (defaultMember "assessment" _ _ w3) as [w4|] eqn:H4; [cbn in H|discriminate].

(** The callback completes every entry that can hold properties. *)
Lemma validateWeek_complete (index : nat) (week week' : value) :
  validateWeek index week = Some week' -> isPrimitive week = false ->
  completeWeek index week' = true.
Proof.
  intros H Hprim. chain H.
  pose proof (proj1 (defaultMember_primitive _ _ _ _ _ H1)) as P1. rewrite Hprim in P1.
  pose proof (proj1 (defaultMember_primitive _ _ _ _ _ H2)) as P2. rewrite P1 in P2.
  pose proof (proj1 (defaultMember_primitive _ _ _ _ _ H3)) as P3. rewrite P2 in P3.
  pose proof (proj1 (defaultMember_primitive _ _ _ _ _ H4)) as P4. rewrite P3 in P4.
  pose proof (defaultMember_valid _ _ _ _ _ H1 Hprim (truthy_position index)
                (isWeekNumber_own index)) as V1.
  pose proof (defaultMember_valid _ _ _ _ _ H2 P1 eq_refl eq_refl) as V2.
  pose proof (defaultMember_valid _ _ _ _ _ H3 P2 eq_refl eq_refl) as V3.
  pose proof (defaultMember_valid _ _ _ _ _ H4 P3 eq_refl eq_refl) as V4.
  pose proof (defaultMember_valid _ _ _ _ _ H P4 eq_refl eq_refl) as V5.
  unfold completeWeek, weekKeys. cbn [forallb testOf String.eqb Ascii.eqb Bool.eqb orb].
  cbn [testOf]. change (testOf index "week") with (isWeekNumber index).
  change (testOf index "topics") with isArray.
  change (testOf index "practice") with isArray.
  change (testOf index "assessment") with (fun _ : value => true).
  change (testOf index "project") with (fun _ : value => true).
  rewrite V5.
  rewrite (defaultMember_valid_other "project" "assessment" _ _ _ _ _ ltac:(discriminate) H), V4.
  rewrite (defaultMember_valid_other "project" "practice" _ _ _ _ _ ltac:(discriminate) H),
    (defaultMember_valid_other "assessment" "practice" _ _ _ _ _ ltac:(discriminate) H4), V3.
  rewrite (defaultMember_valid_other "project" "topics" _ _ _ _ _ ltac:(discriminate) H),
    (defaultMember_valid_other "assessment" "topics" _ _ _ _ _ ltac:(discriminate) H4),
    (defaultMember_valid_other "practice" "topics" _ _ _ _ _ ltac:(discriminate) H3), V2.
  rewrite (defaultMember_valid_other "project" "week" _ _ _ _ _ ltac:(discriminate) H),
    (defaultMember_valid_other "assessment" "week" _ _ _ _ _ ltac:(discriminate) H4),
    (defaultMember_valid_other "practice" "week" _ _ _ _ _ ltac:(discriminate) H3),
    (defaultMember_valid_other "topics" "week" _ _ _ _ _ ltac:(discriminate) H2), V1.
  reflexivity.
Qed.

(** A complete entry passes the callback unchanged. *)
Lemma completeWeek_fix (index : nat) (week : value) :
  completeWeek index week = true -> validateWeek index week = Some week.
Proof.
  unfold completeWeek, weekKeys. cbn [forallb].
  change (testOf index "week") with (isWeekNumber index).
  change (testOf index "topics") with isArray.
  change (testOf index "practice") with isArray.
  change (testOf index "assessment") with (fun _ : value => true).
  change (testOf index "project") with (fun _ : value => true).
  intros H. repeat (apply andb_prop in H as [? H]).
  unfold validateWeek.
  repeat (rewrite valid_fix by assumption; cbn [mbind option_bind]).
  reflexivity.
Qed.

Lemma validateWeek_primitive (index : nat) (week week' : value) :
  validateWeek index week = Some week' -> isPrimitive week = true -> week' = week.
Proof.
  intros H Hprim. chain H.
  destruct (defaultMember_primitive _ _ _ _ _ H1) as [P1 E1]. rewrite Hprim in P1.
  destruct (defaultMember_primitive _ _ _ _ _ H2) as [P2 E2]. rewrite P1 in P2.
  destruct (defaultMember_primitive _ _ _ _ _ H3) as [P3 E3]. rewrite P2 in P3.
  destruct (defaultMember_primitive _ _ _ _ _ H4) as [P4 E4]. rewrite P3 in P4.
  destruct (defaultMember_primitive _ _ _ _ _ H) as [P5 E5].
  rewrite E5, E4, E3, E2, E1 by assumption. reflexivity.
Qed.

Lemma validateWeek_idem (index : nat) (week week' : value) :
  validateWeek index week = Some week' -> validateWeek index week' = Some week'.
Proof.
  intros H. destruct (isPrimitive week) eqn:Hprim.
  - pose proof (validateWeek_primitive index week week' H Hprim) as E.
    subst week'. exact H.
  - apply completeWeek_fix. now apply (validateWeek_complete index week).
Qed.

(** The callback changes an entry only at a field, among the five, that
    fails its test. *)
Lemma validateWeek_frame (index : nat) (week week' : value) (key : string) :
  validateWeek index week = Some week' ->
  getMember week' key = getMember week key \/
  (key ∈ weekKeys /\ valid (testOf index key) week key = false).
Proof.
  intros H. chain H.
  destruct (defaultMember_frame _ _ _ _ _ key H) as [E5|[-> V5]].
  2:{ right. split; [unfold weekKeys; set_solver|].
      rewrite (defaultMember_valid_other "assessment" "project" _ _ _ _ _ ltac:(discriminate) H4),
        (defaultMember_valid_other "practice" "project" _ _ _ _ _ ltac:(discriminate) H3),
        (defaultMember_valid_other "topics" "project" _ _ _ _ _ ltac:(discriminate) H2),
        (defaultMember_valid_other "week" "project" _ _ _ _ _ ltac:(discriminate) H1)
        in V5.
      exact V5. }
  rewrite E5.
  destruct (defaultMember_frame _ _ _ _ _ key H4) as [E4|[-> V4]].
  2:{ right. split; [unfold weekKeys; set_solver|].
      rewrite (defaultMember_valid_other "practice" "assessment" _ _ _ _ _ ltac:(discriminate) H3),
        (defaultMember_valid_other "topics" "assessment" _ _ _ _ _ ltac:(discriminate) H2),
        (defaultMember_valid_other "week" "assessment" _ _ _ _ _ ltac:(discriminate) H1)
        in V4.
      exact V4. }
  rewrite E4.
  destruct (defaultMember_frame _ _ _ _ _ key H3) as [E3|[-> V3]].
  2:{ right. split; [unfold weekKeys; set_solver|].
      rewrite (defaultMember_valid_other "topics" "practice" _ _ _ _ _ ltac:(discriminate) H2),
        (defaultMember_valid_other "week" "practice" _ _ _ _ _ ltac:(discriminate) H1)
        in V3.
      exact V3. }
  rewrite E3.
  destruct (defaultMember_frame _ _ _ _ _ key H2) as [E2|[-> V2]].
  2:{ right. split; [unfold weekKeys; set_solver|].
      rewrite (defaultMember_valid_other "week" "topics" _ _ _ _ _ ltac:(discriminate) H1)
        in V2.
      exact V2. }
  rewrite E2.
  destruct (defaultMember_frame _ _ _ _ _ key H1) as [E1|[-> V1]]; [now left|].
  right. split; [unfold weekKeys; set_solver | exact V1].
Qed.

Lemma validateWeeks_pointwise (weeks : list value) :
  forall (index : nat) (weeks' : list value),
  validateWeeks index weeks = Some weeks' ->
  List.length weeks' = List.length weeks /\
  forall i week', weeks' !! i = Some week' ->
    exists week, weeks !! i = Some week /\ validateWeek (index + i) week = Some week'.
Proof.
  induction weeks as [|week rest IH]; intros index weeks'; simpl.
  - intros [= <-]. split; [reflexivity|]. intros i week' Hi. discriminate.
  - destruct (validateWeek index week) as [w|] eqn:Hw; [cbn|discriminate].
    destruct (validateWeeks (S index) rest) as [r|] eqn:Hr; [cbn|discriminate].
    intros [= <-]. destruct (IH _ _ Hr) as [Hlen Hrest].
    split; [simpl; now rewrite Hlen|].
    intros [|i] week' Hi; simpl in Hi.
    + injection Hi as <-. rewrite Nat.add_0_r. eauto.
    + replace (index + S i)%nat with (S index + i)%nat by lia. now apply Hrest.
Qed.

Lemma validateWeeks_idem (weeks : list value) :
  forall (index : nat) (weeks' : list value),
  validateWeeks index weeks = Some weeks' -> validateWeeks index weeks' = Some weeks'.
Proof.
  induction weeks as [|week rest IH]; intros index weeks'; simpl.
  - now intros [= <-].
  - destruct (validateWeek index week) as [w|] eqn:Hw; [cbn|discriminate].
    destruct (validateWeeks (S index) rest) as [r|] eqn:Hr; [cbn|discriminate].
    intros [= <-]. simpl.
    now rewrite (validateWeek_idem index week w Hw), (IH _ _ Hr).
Qed.

Lemma padWeeks_lookup (missing : nat) (weeks : list value) (i : nat) (week : value) :
  weeks !! i = Some week -> padWeeks missing weeks !! i = Some week.
Proof.
  revert weeks. induction missing as [|n IH]; intros weeks Hi; simpl; [exact Hi|].
  apply IH. now apply lookup_app_l_Some.
Qed.

Lemma fourWeeks_lookup (weeks : list value) (i : nat) (week : value) :
  (i < 4)%nat -> weeks !! i = Some week -> fourWeeks weeks !! i = Some week.
Proof.
  intros Hi Hweek. unfold fourWeeks.
  destruct (List.length weeks <? 4)%nat; [now apply padWeeks_lookup|].
  destruct (4 <? List.length weeks)%nat; [|exact Hweek].
  change (firstn 4 weeks) with (take 4 weeks). now rewrite lookup_take_lt.
Qed.

Lemma fourWeeks_four (weeks : list value) :
  List.length weeks = 4%nat -> fourWeeks weeks = weeks.
Proof. intros H. unfold fourWeeks. now rewrite H. Qed.

Lemma setOwn_setOwn (o : object) (key : string) (v : value) :
  setOwn (setOwn o key v) key v = setOwn o key v.
Proof.
  induction o as [|[k w] rest IH]; simpl.
  - now rewrite String.eqb_refl.
  - destruct (String.eqb k key) eqn:Hk; simpl; rewrite Hk; [reflexivity|]. now rewrite IH.
Qed.

(** X21: whatever the response text, the plan returned has exactly 4 weeks,
    and every week that is not a boolean, a number or a string has its
    position as [week], arrays as [topics] and [practice], and a truthy
    [assessment] and [project]. *)
Theorem parseLearningPlan_complete (aiResponse : string) :
  exists items named,
    getMember (parseLearningPlan aiResponse) "weeks" = Some (Arr items named) /\
    List.length items = 4%nat /\
    forall i week, items !! i = Some week ->
      isPrimitive week = true \/ completeWeek i week = true.
Proof.
  unfold parseLearningPlan.
  destruct (tryParse aiResponse) as [plan'|] eqn:Htry.
  - unfold tryParse in Htry.
    destruct (Json.parse (extractJson aiResponse)) as [plan|]; [cbn in Htry|discriminate].
    unfold repairPlan in Htry.
    destruct (getMember plan "weeks") as [weeks|] eqn:Hweeks; [cbn in Htry|discriminate].
    destruct weeks as [| | | | |items named|]; try discriminate.
    destruct (validateWeeks 0 (fourWeeks items)) as [weeks'|] eqn:Hval;
      [cbn in Htry|discriminate].
    apply validateWeeks_pointwise in Hval as [Hlen Hpoint].
    rewrite fourWeeks_length in Hlen.
    eexists weeks', _. split; [|split; [exact Hlen|]].
    + apply (getMember_setMember_eq plan plan' _ "weeks"); [|exact Htry].
      destruct plan; try discriminate; reflexivity.
    + intros i week' Hi. destruct (Hpoint i week' Hi) as (week & _ & Hweek).
      destruct (isPrimitive week) eqn:Hprim.
      * left. now rewrite (validateWeek_primitive _ _ _ Hweek Hprim).
      * right. now apply (validateWeek_complete (0 + i) week).
  - eexists _, _. split; [reflexivity|]. split; [reflexivity|].
    intros i week Hi. right.
    do 4 (destruct i as [|i]; [injection Hi as <-; reflexivity|]). discriminate.
Qed.

(** X22: the repair of a parsed plan keeps every top-level field but
    [weeks]; it changes one of the first four submitted weeks only at a
    field, among the five, that is missing or fails its test; and it leaves
    its own result unchanged when run again. *)
Theorem repairPlan_frame (plan plan' : value) :
  repairPlan plan = Some plan' ->
  (forall key, key <> "weeks" -> getMember plan' key = getMember plan key) /\
  (exists items named items' named',
     getMember plan "weeks" = Some (Arr items named) /\
     getMember plan' "weeks" = Some (Arr items' named') /\
     forall i week, (i < 4)%nat -> items !! i = Some week ->
       exists week', items' !! i = Some week' /\
         forall key, getMember week' key = getMember week key \/
                     (key ∈ weekKeys /\ valid (testOf i key) week key = false)) /\
  repairPlan plan' = Some plan'.
Proof.
  unfold repairPlan at 1.
  destruct (getMember plan "weeks") as [weeks|] eqn:Hweeks; [cbn|discriminate].
  destruct weeks as [| | | | |items named|]; try discriminate.
  destruct (validateWeeks 0 (fourWeeks items)) as [weeks'|] eqn:Hval; [cbn|discriminate].
  intros Hset.
  assert (Hprim : isPrimitive plan = false)
    by (destruct plan; try discriminate; reflexivity).
  pose proof (getMember_setMember_eq plan plan' _ "weeks" Hprim Hset) as Hget.
  destruct (validateWeeks_pointwise _ _ _ Hval) as [Hlen Hpoint].
  rewrite fourWeeks_length in Hlen.
  refine (conj _ (conj _ _)).
  - intros key Hkey.
    eapply getMember_setMember_ne; [|exact Hset]. congruence.
  - eexists items, named, weeks', _. split; [reflexivity|]. split; [exact Hget|].
    intros i week Hi Hweek.
    pose proof (fourWeeks_lookup items i week Hi Hweek) as Hfour.
    destruct (weeks' !! i) as [week'|] eqn:Hweek'.
    2:{ apply lookup_ge_None in Hweek'. lia. }
    exists week'. split; [reflexivity|]. intros key.
    destruct (Hpoint i week' Hweek') as (w & Hw & Hvalidate).
    rewrite Hfour in Hw. injection Hw as <-.
    now apply (validateWeek_frame (0 + i) week week' key).
  - unfold repairPlan. rewrite Hget. cbn.
    rewrite (fourWeeks_four weeks' Hlen), (validateWeeks_idem _ _ _ Hval). cbn.
    rewrite Hlen. change (4 <? 4)%nat with false. cbv iota.
    destruct plan; try discriminate; injection Hset as <-; cbn;
      now rewrite setOwn_setOwn.
Qed.

Lemma repairPlan_frame_witness :
  let week1 := Obj [("week", Num (ofNat 7)); ("topics", Arr [Str "sql"] []);
                    ("note", Str "keep")] in
  let plan := Obj [("title", Str "Data"); ("weeks", Arr [week1] [])] in
  exists plan', repairPlan plan = Some plan' /\
                getMember plan' "title" = getMember plan "title" /\
                repairPlan plan' = Some plan'.
Proof.
  intros week1 plan.
  destruct (repairPlan plan) as [plan'|] eqn:Hrepair; [|discriminate Hrepair].
  exists plan'. split; [reflexivity|].
  destruct (repairPlan_frame plan plan' Hrepair) as (Hkeep & _ & Hagain).
  split; [apply Hkeep; discriminate | exact Hagain].
Defined.

End PlanShapeFacts.

(** ** The rate limiter *)

Module RateLimitFacts.

Import RateLimit.

Local Open Scope Z_scope.

Lemma run_app (clock later : list Z) (this : RateLimiter) :
  run (clock ++ later) this
  = let '(answers, this1) := run clock this in
    let '(answers', this2) := run later this1 in
    (answers ++ answers', this2).
Proof.
  revert this. induction clock as [|now clock IH]; intros this; simpl.
  - now destruct (run later this).
  - destruct (canMakeRequest now this) as [answer this0]. rewrite IH.
    destruct (run clock this0) as [answers this1].
    now destruct (run later this1).
Qed.

Lemma filter_filter_later (window now later : Z) (times : list Z) :
  now <= later ->
  List.filter (fun time => later - time <? window)
    (List.filter (fun time => now - time <? window) times)
  = List.filter (fun time => later - time <? window) times.
Proof.
  intros Hle. induction times as [|time rest IH]; simpl; [reflexivity|].
  destruct (now - time <? window) eqn:Hnow; simpl.
  - now rewrite IH.
  - rewrite IH. apply Z.ltb_ge in Hnow.
    destruct (later - time <? window) eqn:Hlater; [|reflexivity].
    apply Z.ltb_lt in Hlater. lia.
Qed.

Lemma canMakeRequest_bounds (now : Z) (this : RateLimiter) :
  maxRequests (snd (canMakeRequest now this)) = maxRequests this /\
  timeWindow (snd (canMakeRequest now this)) = timeWindow this.
Proof. unfold canMakeRequest. now destruct (_ <? _). Qed.

Lemma canMakeRequest_length (now : Z) (this : RateLimiter) :
  Z.of_nat (List.length (requests this)) <= Z.max 0 (maxRequests this) ->
  Z.of_nat (List.length (requests (snd (canMakeRequest now this))))
  <= Z.max 0 (maxRequests this).
Proof.
  intros Hlen. unfold canMakeRequest.
  pose proof (List.filter_length_le (fun time => now - time <? timeWindow this)
                (requests this)) as Hkept.
  destruct (_ <? _) eqn:Hroom; cbn [snd requests].
  - apply Z.ltb_lt in Hroom. rewrite length_app. cbn. lia.
  - change (@base.length Z) with (@List.length Z) in *. lia.
Qed.

(** The times of the granted calls of a log. *)
Local Abbreviation grantedTimes log := (map fst (List.filter snd log)).

Lemma run_invariant (maxRequests0 window : Z) (clock : list Z) :
  StronglySorted Z.le clock ->
  let '(log, this) := run clock (create maxRequests0 window) in
  maxRequests this = maxRequests0 /\ timeWindow this = window /\
  Z.of_nat (List.length (requests this)) <= Z.max 0 maxRequests0 /\
  forall now, (forall time, time ∈ clock -> time <= now) ->
    List.filter (fun time => now - time <? window) (requests this)
    = List.filter (fun time => now - time <? window) (grantedTimes log).
Proof.
  induction clock as [|now clock IH] using rev_ind; intros Hsorted.
  - cbn. repeat split; lia.
  - rewrite run_app.
    apply StronglySorted_app in Hsorted as (Hbefore & Hclock & _).
    specialize (IH Hclock).
    destruct (run clock (create maxRequests0 window)) as [log this].
    destruct IH as (Hmax & Hwindow & Hlen & Hkept).
    cbn [run].
    pose proof (canMakeRequest_bounds now this) as [Hmax' Hwindow'].
    pose proof (canMakeRequest_length now this) as Hlen'.
    rewrite Hmax in Hlen'. specialize (Hlen' Hlen).
    assert (Hnow : forall time, time ∈ clock -> time <= now).
    { intros time Htime. apply (Hbefore time now Htime). left. }
    specialize (Hkept now Hnow) as Hkept0.
    unfold canMakeRequest in *. rewrite Hwindow in *.
    destruct (_ <? maxRequests this) eqn:Hroom; cbn [fst snd requests maxRequests timeWindow] in *.
    + refine (conj _ (conj _ (conj Hlen' _))); [congruence | reflexivity |].
      intros later Hlater.
      assert (Hle : now <= later) by (apply Hlater; set_solver).
      rewrite List.filter_app, (List.filter_app snd), map_app, List.filter_app.
      rewrite filter_filter_later by exact Hle.
      rewrite Hkept; [reflexivity|]. intros time Htime. apply Hlater. set_solver.
    + refine (conj _ (conj _ (conj Hlen' _))); [congruence | reflexivity |].
      intros later Hlater.
      assert (Hle : now <= later) by (apply Hlater; set_solver).
      rewrite (List.filter_app snd). cbn [List.filter snd]. rewrite app_nil_r.
      rewrite filter_filter_later by exact Hle.
      apply Hkept. intros time Htime. apply Hlater. set_solver.
Qed.

Lemma granted_within (window start now : Z) (log : list (Z * bool)) :
  now < start + window ->
  (granted start (start + window) log
   <= List.length (List.filter (fun time => (now - time <? window)%Z) (grantedTimes log)))%nat.
Proof.
  intros Hnow. unfold granted.
  induction log as [|[time answer] log IH]; simpl; [lia|].
  destruct answer; simpl.
  - destruct (start <=? time) eqn:Hstart; simpl.
    + apply Z.leb_le in Hstart.
      assert (Hin : (now - time <? window) = true) by (apply Z.ltb_lt; lia).
      rewrite Hin. destruct (time <? start + window); simpl; lia.
    + destruct (now - time <? window); simpl; lia.
  - exact IH.
Qed.

(** X23: whatever the times of the calls, as long as the clock does not run
    backwards, the limiter grants at most [maxRequests] calls (none when that
    is negative) in any stretch of [timeWindow] milliseconds, and it never
    remembers more than [maxRequests] times. *)
Theorem canMakeRequest_rate (maxRequests0 window : Z) (clock : list Z) (start : Z) :
  StronglySorted Z.le clock ->
  let '(log, this) := run clock (create maxRequests0 window) in
  Z.of_nat (granted start (start + window) log) <= Z.max 0 maxRequests0 /\
  Z.of_nat (List.length (requests this)) <= Z.max 0 maxRequests0.
Proof.
  intros Hsorted.
  pose proof (run_invariant maxRequests0 window clock Hsorted) as Hinv.
  destruct (run clock (create maxRequests0 window)) as [log this] eqn:Hrun.
  split; [|apply Hinv]. clear Hinv.
  revert log this Hrun. induction clock as [|now clock IH] using rev_ind;
    intros log this Hrun.
  - cbn in Hrun. injection Hrun as <- <-. cbn. lia.
  - rewrite run_app in Hrun.
    apply StronglySorted_app in Hsorted as (Hbefore & Hclock & _).
    pose proof (run_invariant maxRequests0 window clock Hclock) as Hinv.
    destruct (run clock (create maxRequests0 window)) as [log0 this0].
    specialize (IH Hclock log0 this0 eq_refl).
    destruct Hinv as (Hmax & Hwindow & _ & Hkept).
    cbn [run] in Hrun. unfold canMakeRequest in Hrun. rewrite Hmax, Hwindow in Hrun.
    assert (Hnow : forall time, time ∈ clock -> time <= now).
    { intros time Htime. apply (Hbefore time now Htime). left. }
    rewrite (Hkept now Hnow) in Hrun.
    unfold granted in *.
    destruct (_ <? maxRequests0) eqn:Hroom; injection Hrun as <- <-;
      rewrite List.filter_app, length_app; cbn [List.filter fst snd andb].
    + apply Z.ltb_lt in Hroom.
      destruct ((start <=? now) && (now <? start + window))%bool eqn:Hin;
        cbn [List.length]; [|lia].
      apply andb_prop in Hin as [_ Hstop]. apply Z.ltb_lt in Hstop.
      pose proof (granted_within window start now log0 Hstop) as Hwithin.
      unfold granted in Hwithin. lia.
    + cbn [List.length]. lia.
Qed.

Lemma canMakeRequest_rate_witness :
  Z.of_nat (granted 0 60000 (fst (run [0; 10; 20; 30; 40; 50; 60000] apiRateLimiter))) <= 5.
Proof.
  assert (Hsorted : StronglySorted Z.le [0; 10; 20; 30; 40; 50; 60000]).
  { repeat (constructor; [|repeat (constructor; [lia|]); constructor]). constructor. }
  pose proof (canMakeRequest_rate 5 60000 [0; 10; 20; 30; 40; 50; 60000] 0 Hsorted) as H.
  unfold apiRateLimiter.
  destruct (run [0; 10; 20; 30; 40; 50; 60000] (create 5 60000)) as [log this].
  exact (proj1 H).
Defined.

Lemma oldest_le (rest : list Z) :
  forall first, oldest first rest <= first /\
                (forall time, time ∈ rest -> oldest first rest <= time) /\
                oldest first rest ∈ first :: rest.
Proof.
  unfold oldest. induction rest as [|time rest IH]; intros first; simpl.
  - split; [lia|]. split; [|left]. intros time Htime. now apply not_elem_of_nil in Htime.
  - destruct (IH (Z.min first time)) as (Hmin & Hrest & Hin).
    split; [lia|]. split.
    + intros time' [->|Htime]%elem_of_cons; [lia | now apply Hrest].
    + apply elem_of_cons in Hin as [Hin|Hin]; [|now do 2 right].
      rewrite Hin. destruct (Z.min_spec first time) as [[_ ->]|[_ ->]]; [left | right; left].
Qed.

Lemma filter_all (test : Z -> bool) (times : list Z) :
  (forall time, time ∈ times -> test time = true) -> List.filter test times = times.
Proof.
  induction times as [|time rest IH]; intros Hall; simpl; [reflexivity|].
  rewrite (Hall time) by left. rewrite IH; [reflexivity|].
  intros time' Htime. apply Hall. now right.
Qed.

Lemma filter_drops (test : Z -> bool) (times : list Z) (time : Z) :
  time ∈ times -> test time = false ->
  (List.length (List.filter test times) < List.length times)%nat.
Proof.
  induction times as [|time' rest IH]; intros Hin Htest.
  - now apply not_elem_of_nil in Hin.
  - simpl. pose proof (List.filter_length_le test rest) as Hle.
    apply elem_of_cons in Hin as [<-|Hin].
    + rewrite Htest. lia.
    + specialize (IH Hin Htest). destruct (test time'); simpl; lia.
Qed.

(** X24: when a call is refused by a limiter that allows at least one
    request and remembers no more than [maxRequests] times, the time that
    [getTimeUntilNextRequest] gives is positive and is exactly the time to
    wait: a next call is refused before it has passed and granted from then
    on. *)
Theorem getTimeUntilNextRequest_exact (now : Z) (this this' : RateLimiter) :
  0 < maxRequests this ->
  Z.of_nat (List.length (requests this)) <= maxRequests this ->
  canMakeRequest now this = (false, this') ->
  let wait := getTimeUntilNextRequest now this' in
  0 < wait /\
  forall later, now <= later ->
    fst (canMakeRequest later this') = (now + wait <=? later).
Proof.
  intros Hpositive Hlen. unfold canMakeRequest.
  set (kept := List.filter (fun time => now - time <? timeWindow this) (requests this)).
  pose proof (List.filter_length_le (fun time => now - time <? timeWindow this)
                (requests this)) as Hkept. fold kept in Hkept.
  destruct (_ <? maxRequests this) eqn:Hroom; [discriminate|].
  apply Z.ltb_ge in Hroom. intros [= <-].
  unfold getTimeUntilNextRequest. cbn [requests timeWindow maxRequests].
  destruct kept as [|first rest] eqn:Hlist; [cbn in Hroom; lia|].
  destruct (oldest_le rest first) as (Hfirst & Hrest & Hin).
  assert (Hall : forall time, time ∈ first :: rest -> oldest first rest <= time).
  { intros time [->|Htime]%elem_of_cons; [exact Hfirst | now apply Hrest]. }
  assert (Hrecent : now - oldest first rest < timeWindow this).
  { rewrite <- Hlist in Hin. unfold kept in Hin.
    apply list_elem_of_In, List.filter_In in Hin as [_ Hin]. now apply Z.ltb_lt in Hin. }
  cbn zeta. split; [lia|].
  intros later Hlater.
  rewrite Z.max_r by lia.
  destruct (now + (timeWindow this - (now - oldest first rest)) <=? later) eqn:Hdue.
  - apply Z.leb_le in Hdue.
    assert (Hdrop : (List.length (List.filter (fun time => (later - time <? timeWindow this)%Z)
                                    (first :: rest))
                     < List.length (first :: rest))%nat).
    { apply (filter_drops _ _ (oldest first rest) Hin). apply Z.ltb_ge. lia. }
    destruct (_ <? maxRequests this) eqn:Hgrant; [reflexivity|].
    apply Z.ltb_ge in Hgrant.
    change (@base.length Z) with (@List.length Z) in *. lia.
  - apply Z.leb_gt in Hdue.
    rewrite filter_all.
    + destruct (_ <? maxRequests this) eqn:Hgrant; [|reflexivity].
      apply Z.ltb_lt in Hgrant. lia.
    + intros time Htime. apply Z.ltb_lt. specialize (Hall time Htime). lia.
Qed.

Lemma getTimeUntilNextRequest_exact_witness :
  let this := mkRateLimiter 2 60000 [1000; 3000] in
  getTimeUntilNextRequest 5000 (snd (canMakeRequest 5000 this)) = 56000 /\
  fst (canMakeRequest 61000 (snd (canMakeRequest 5000 this))) = true.
Proof.
  intros this.
  destruct (getTimeUntilNextRequest_exact 5000 this (snd (canMakeRequest 5000 this)))
    as [_ Hlater]; [cbn; lia | cbn; lia | reflexivity |].
  split; [reflexivity|].
  rewrite (Hlater 61000) by lia. reflexivity.
Defined.

End RateLimitFacts.

(** ** The API client *)

Module ClientFacts.

Import JsString Js RequestValidator Client.

Lemma truthy_member (valid : list string) (s : string) :
  EmptyString ∉ valid -> s ∈ valid -> truthy (Str s) = true.
Proof.
  intros Hvalid Hs. cbn. destruct (String.eqb_spec s EmptyString) as [->|]; [|reflexivity].
  contradiction.
Qed.

Lemma isZero_length (items : list value) :
  items <> [] -> isZero (Num (ofNat (List.length items))) = false.
Proof.
  intros Hitems. destruct items as [|item rest]; [contradiction|].
  cbn [isZero eqNumber ofNat ofZ]. destruct (Qeq_bool _ _) eqn:H; [|reflexivity].
  apply Qeq_bool_iff in H. unfold Qeq in H. cbn in H. lia.
Qed.

Section Coercion.

Variable toNumberOther : value -> option number.

Local Abbreviation validateProfileForAPI := (validateProfileForAPI toNumberOther).

(** X25: a profile that the server's [validateRequest] accepts passes the
    client's [validateProfileForAPI] without an error. *)
Theorem validateProfileForAPI_accepts_valid (body : object) :
  isValid (validateRequest body) = true ->
  validateProfileForAPI (fieldsOf (prop body "profile")) = Some (mkValidation true []).
Proof.
  intros Hvalid. apply RequestFacts.validateRequest_acceptable in Hvalid.
  destruct Hvalid as (_ & _ & Hname & Heducation & Hskills & Hinterests & Htime
                      & Hbudget & Hlanguage).
  cbn zeta in *. set (profile := fieldsOf (prop body "profile")) in *.
  destruct Hname as (n & Hn & Hlong).
  destruct Heducation as (e & He & Hine).
  destruct Hskills as (skills & named & Hs & Hsome).
  destruct Hinterests as (interests & named' & Hi & Hsome').
  destruct Htime as (q & Hq & Hlow & Hhigh).
  destruct Hbudget as (b & Hb & Hinb).
  destruct Hlanguage as (l & Hl & Hinl).
  unfold Client.validateProfileForAPI. rewrite Hn, He, Hs, Hi, Hq, Hb, Hl.
  assert (Hnonempty : truthy (Str n) = true).
  { cbn. destruct (String.eqb_spec n EmptyString) as [->|]; [|reflexivity].
    cbn in Hlong. lia. }
  unfold nameTooShort. rewrite Hnonempty. cbn [negb mbind option_bind].
  assert (Hshort : (JsString.length (trim n) <? 2)%nat = false) by (apply Nat.ltb_ge; lia).
  rewrite Hshort.
  destruct RequestFacts.no_empty_literal as (Hedu & Hbud & Hlan).
  rewrite (truthy_member educations e Hedu Hine), (truthy_member budgets b Hbud Hinb),
    (truthy_member languages l Hlan Hinl).
  cbn [lengthOf truthy negb orb]. rewrite !isZero_length by assumption.
  assert (Hnonzero : Qeq_bool q 0 = false).
  { destruct (Qeq_bool q 0) eqn:H; [|reflexivity]. apply Qeq_bool_iff in H.
    rewrite H in Hlow. unfold Qle in Hlow. cbn in Hlow. lia. }
  unfold outsideHours. cbn [truthy]. rewrite Hnonzero.
  cbn [negb orb toNumber ltNumber ofZ mbind option_bind].
  assert (H1 : Qle_bool (inject_Z 1) q = true) by now apply Qle_bool_iff.
  assert (H40 : Qle_bool q (inject_Z 40) = true) by now apply Qle_bool_iff.
  rewrite H1, H40. reflexivity.
Qed.

Lemma nameTooShort_raises (name : value) :
  nameTooShort name = None <-> truthy name = true /\ isString name = false.
Proof.
  unfold nameTooShort. destruct (truthy name) eqn:Htruthy; cbn [negb].
  - destruct name; cbn [isString]; split; try discriminate; auto.
    intros [_ ?]. discriminate.
  - split; [discriminate | intros [? _]; discriminate].
Qed.

Lemma outsideHours_raises (weeklyTime : value) :
  outsideHours toNumberOther weeklyTime = None <->
  truthy weeklyTime = true /\ toNumber toNumberOther weeklyTime = None.
Proof.
  unfold outsideHours. destruct (truthy weeklyTime) eqn:Htruthy; cbn [negb].
  - destruct (toNumber toNumberOther weeklyTime) as [hours|]; cbn [mbind option_bind].
    + destruct (ltNumber hours (ofZ 1)); split; try discriminate; intros [_ ?]; discriminate.
    + split; auto.
  - split; [discriminate | intros [? _]; discriminate].
Qed.

(** X26: [validateProfileForAPI] raises a [TypeError] exactly when the name
    is truthy and no string, or the weekly time is truthy and its
    conversion to a number raises; otherwise it reports at most 7 errors, the
    verdict is positive exactly when it reports none, and a missing name is
    reported first. *)
Theorem validateProfileForAPI_errors (profileData : object) :
  (validateProfileForAPI profileData = None <->
   (truthy (prop profileData "name") = true /\ isString (prop profileData "name") = false)
   \/ (truthy (prop profileData "weeklyTime") = true /\
       toNumber toNumberOther (prop profileData "weeklyTime") = None)) /\
  forall v, validateProfileForAPI profileData = Some v ->
    (isValid v = true <-> errors v = []) /\
    (List.length (errors v) <= 7)%nat /\
    (truthy (prop profileData "name") = false ->
     exists rest, errors v = "Name must be at least 2 characters long" :: rest).
Proof.
  pose proof (nameTooShort_raises (prop profileData "name")) as Hname.
  pose proof (outsideHours_raises (prop profileData "weeklyTime")) as Hhours.
  unfold Client.validateProfileForAPI.
  destruct (nameTooShort (prop profileData "name")) as [tooShort|] eqn:Hshort;
    cbn [mbind option_bind].
  2:{ split; [split; [intros _; left; now apply Hname | reflexivity]|].
      intros v Hv. discriminate Hv. }
  destruct (outsideHours toNumberOther (prop profileData "weeklyTime")) as [outside|] eqn:Hout;
    cbn [mbind option_bind].
  2:{ split; [split; [intros _; right; now apply Hhours | reflexivity]|].
      intros v Hv. discriminate Hv. }
  split.
  - split; [discriminate|]. intros [H | H].
    + apply Hname in H. discriminate H.
    + apply Hhours in H. discriminate H.
  - intros v [= <-]. cbn [isValid errors].
    refine (conj _ (conj _ _)).
    + rewrite Nat.eqb_eq. apply List.length_zero_iff_nil.
    + repeat apply RequestFacts.pushIf_bound. cbn. lia.
    + intros Hfalsy. unfold nameTooShort in Hshort. rewrite Hfalsy in Hshort.
      cbn [negb] in Hshort. injection Hshort as <-.
      repeat match goal with
             | |- context [pushIf ?c ?m ?l] =>
                 destruct c; cbn [pushIf app]
             end; eauto.
Qed.

End Coercion.

Lemma validateProfileForAPI_accepts_valid_witness :
  validateProfileForAPI (fun _ => Some NaN)
    (fieldsOf (prop RequestFixtures.sampleRequest "profile"))
  = Some (mkValidation true []).
Proof.
  apply (validateProfileForAPI_accepts_valid (fun _ => Some NaN)
           RequestFixtures.sampleRequest).
  reflexivity.
Defined.

Lemma validateProfileForAPI_errors_witness :
  validateProfileForAPI (fun v => match v with Obj _ => None | _ => Some NaN end)
    [("name", Str "Asha"); ("weeklyTime", Obj [("toString", Num (ofZ 1))])] = None.
Proof.
  apply (validateProfileForAPI_errors
           (fun v => match v with Obj _ => None | _ => Some NaN end)
           [("name", Str "Asha"); ("weeklyTime", Obj [("toString", Num (ofZ 1))])]).
  right. split; reflexivity.
Defined.

Lemma failureText_start (e : JsError) :
  startsWith (chars "Failed to get recommendations. ") (chars (failureText e)) = true.
Proof.
  unfold failureText.
  repeat match goal with |- context [if ?c then _ else _] => destruct c end; reflexivity.
Qed.

Lemma receive_array (typeErrorMessage : string) (r : Fetched) (v : value) :
  receive typeErrorMessage r = inr v -> truthy v = true /\ exists items named, v = Arr items named.
Proof.
  unfold receive. destruct r as [e|status body]; [discriminate|].
  destruct (negb (Gemini.ok status)); [discriminate|].
  destruct body as [data|e]; [|discriminate].
  destruct (getMember data "recommendations") as [recommendations|]; [|discriminate].
  destruct (truthy recommendations) eqn:Ht; [|discriminate].
  destruct recommendations; try discriminate. cbn. intros [= <-]. eauto.
Qed.

Section Session.

Variable authenticated : bool.
Variable typeErrorMessage : string.
Variable net : nat -> Fetched.

Local Abbreviation getRecommendations :=
  (getRecommendations authenticated typeErrorMessage net).
Local Abbreviation getRecommendationsWithRetry :=
  (getRecommendationsWithRetry authenticated typeErrorMessage net).
Local Abbreviation rounds := (rounds authenticated typeErrorMessage net).
Local Abbreviation receive := (receive typeErrorMessage).

(** X27: [getRecommendations] never throws.  Without a signed-in user it
    returns [null] and sends nothing; otherwise it sends one request and
    returns either the [recommendations] array of the response, which it
    stores, or [null], after showing one text that starts with "Failed to
    get recommendations. ". *)
Theorem getRecommendations_returns (page : Page) :
  let '(outcome, page') := getRecommendations page in
  exists v, outcome = inr v /\
    (authenticated = false -> v = Null /\ page' = page) /\
    (authenticated = true ->
     sent page' = S (sent page) /\
     ((exists items named,
         v = Arr items named /\ receive (net (sent page)) = inr v /\
         currentRecommendations page' = Some v /\ shown page' = shown page) \/
      (exists e text,
         v = Null /\ receive (net (sent page)) = inl e /\
         shown page' = shown page ++ [text] /\
         startsWith (chars "Failed to get recommendations. ") (chars text) = true /\
         currentRecommendations page' = currentRecommendations page))).
Proof.
  unfold Client.getRecommendations. destruct authenticated; cbn [negb].
  - destruct (receive (net (sent page))) as [e|v] eqn:Hreceive.
    + exists Null. split; [reflexivity|]. split; [discriminate|]. intros _.
      split; [reflexivity|]. right. exists e, (failureText e).
      refine (conj eq_refl (conj eq_refl (conj eq_refl (conj _ eq_refl)))).
      apply failureText_start.
    + exists v. split; [reflexivity|]. split; [discriminate|]. intros _.
      split; [reflexivity|]. left.
      destruct (receive_array _ _ _ Hreceive) as (_ & items & named & ->). eauto 6.
  - exists Null. split; [reflexivity|]. split; [auto | discriminate].
Qed.

Lemma rounds_spec (maxRetries : Z) (remaining : nat) :
  forall (attempt : Z) (page : Page),
  let r := rounds maxRetries remaining attempt page None [] in
  waits r = [] /\
  (forall thrown, result r = inl thrown ->
     thrown = ThrownValue Undefined /\
     (authenticated = true ->
      sent (pageAfter r) = (sent page + remaining)%nat /\
      List.length (shown (pageAfter r)) = (List.length (shown page) + remaining)%nat /\
      forall k, (k < remaining)%nat -> exists e, receive (net (sent page + k)) = inl e) /\
     (authenticated = false -> pageAfter r = page)) /\
  (forall v, result r = inr v ->
     authenticated = true /\
     exists k, (k < remaining)%nat /\
       receive (net (sent page + k)) = inr v /\
       (forall j, (j < k)%nat -> exists e, receive (net (sent page + j)) = inl e) /\
       sent (pageAfter r) = (sent page + k + 1)%nat /\
       currentRecommendations (pageAfter r) = Some v).
Proof.
  induction remaining as [|remaining IH]; intros attempt page; cbn zeta.
  - cbn. split; [reflexivity|]. split; [|discriminate].
    intros thrown [= <-]. split; [reflexivity|]. split; [|reflexivity].
    intros _. split; [lia|]. split; [lia|]. intros k Hk. lia.
  - cbn [Client.rounds]. unfold Client.getRecommendations.
    destruct authenticated eqn:Hauth; cbn [negb].
    + destruct (receive (net (sent page))) as [e|v] eqn:Hreceive.
      * cbn [truthy].
        specialize (IH (attempt + 1)%Z
                       (mkPage (shown page ++ [failureText e]) (currentRecommendations page)
                          (S (sent page)))).
        cbn zeta in IH. destruct IH as (Hwaits & Hthrown & Hfound).
        split; [exact Hwaits|]. split.
        -- intros thrown Hresult. destruct (Hthrown thrown Hresult) as (-> & Hall & _).
           split; [reflexivity|]. split; [|discriminate]. intros _.
           destruct (Hall eq_refl) as (Hsent & Hshown & Hfailed). cbn in Hsent, Hshown, Hfailed.
           rewrite length_app in Hshown. cbn in Hshown.
           split; [lia|]. split; [lia|].
           intros [|k] Hk; [rewrite Nat.add_0_r; eauto|].
           replace (sent page + S k)%nat with (S (sent page + k)) by lia.
           apply Hfailed. lia.
        -- intros v Hresult. destruct (Hfound v Hresult) as (_ & k & Hk & Hv & Hbefore & Hsent & Hcur).
           split; [reflexivity|]. cbn in Hv, Hbefore, Hsent.
           exists (S k). split; [lia|].
           replace (sent page + S k)%nat with (S (sent page + k)) by lia.
           split; [exact Hv|]. split; [|split; [lia | exact Hcur]].
           intros [|j] Hj; [rewrite Nat.add_0_r; eauto|].
           replace (sent page + S j)%nat with (S (sent page + j)) by lia.
           apply Hbefore. lia.
      * destruct (receive_array _ _ _ Hreceive) as (Htruthy & _). rewrite Htruthy.
        cbn. split; [reflexivity|]. split; [discriminate|].
        intros v' [= <-]. split; [reflexivity|]. exists 0%nat.
        rewrite Nat.add_0_r. split; [lia|]. split; [exact Hreceive|].
        split; [intros j Hj; lia|]. split; [lia | reflexivity].
    + cbn [truthy]. specialize (IH (attempt + 1)%Z page). cbn zeta in IH.
      destruct IH as (Hwaits & Hthrown & Hfound).
      split; [exact Hwaits|]. split.
      * intros thrown Hresult. destruct (Hthrown thrown Hresult) as (-> & _ & Hsame).
        split; [reflexivity|]. split; [discriminate|]. intros _. now apply Hsame.
      * intros v Hresult. destruct (Hfound v Hresult) as (? & _). discriminate.
Qed.

(** X28: [getRecommendationsWithRetry] never waits between its attempts,
    since no attempt throws.  It returns the first recommendations array
    received, after one request for each attempt made; when all [maxRetries]
    attempts fail it has shown as many failure texts and throws
    [undefined]; without a signed-in user it sends nothing and throws
    [undefined]. *)
Theorem getRecommendationsWithRetry_spec (maxRetries : nat) (page : Page) :
  let r := getRecommendationsWithRetry maxRetries page in
  waits r = [] /\
  (forall thrown, result r = inl thrown ->
     thrown = ThrownValue Undefined /\
     (authenticated = true ->
      sent (pageAfter r) = (sent page + maxRetries)%nat /\
      List.length (shown (pageAfter r)) = (List.length (shown page) + maxRetries)%nat /\
      forall k, (k < maxRetries)%nat -> exists e, receive (net (sent page + k)) = inl e) /\
     (authenticated = false -> pageAfter r = page)) /\
  (forall v, result r = inr v ->
     authenticated = true /\
     exists k, (k < maxRetries)%nat /\
       receive (net (sent page + k)) = inr v /\
       (forall j, (j < k)%nat -> exists e, receive (net (sent page + j)) = inl e) /\
       sent (pageAfter r) = (sent page + k + 1)%nat /\
       currentRecommendations (pageAfter r) = Some v).
Proof. apply rounds_spec. Qed.

End Session.

End ClientFacts.

(** ** The demand score *)

Module TrendsFacts.

Import JsString Js RequestValidator Trends.

Lemma numberOrZero_unit (toNumberOther : value -> option number) (v : value) :
  normalised v ->
  exists q, numberOrZero toNumberOther v = Some (Finite q) /\ (0 <= q <= 1)%Q.
Proof.
  unfold numberOrZero. intros [Hfalsy|(q & -> & Hq)].
  - rewrite Hfalsy. exists 0%Q. split; [reflexivity|]. split; [apply Qle_refl | discriminate].
  - destruct (truthy (Num (Finite q))); [now exists q|].
    exists 0%Q. split; [reflexivity|]. split; [apply Qle_refl | discriminate].
Qed.

Lemma numberOrZero_raises (toNumberOther : value -> option number) (v : value) :
  numberOrZero toNumberOther v = None <->
  truthy v = true /\ toNumber toNumberOther v = None.
Proof.
  unfold numberOrZero. destruct (truthy v); [tauto|].
  split; [discriminate | intros [? _]; discriminate].
Qed.

(** X29: [computeDemandScore] gives [null] exactly for [null], for
    [undefined] and when the conversion of a (truthy) indicator to a number
    raises; when each of the three indicators is absent or a number from 0 to
    1, the score is (in exact arithmetic) a whole number from 0 to 100, and
    it is 0 when all three are absent. *)
Theorem computeDemandScore_range (toNumberOther : value -> option number) (d : value) :
  (computeDemandScore toNumberOther d = Null <->
   d = Null \/ d = Undefined \/
   exists key v,
     key ∈ ["postingFrequencyNorm"; "trendSlopeNorm"; "salaryIndexNorm"] /\
     getMember d key = Some v /\ truthy v = true /\
     toNumber toNumberOther v = None) /\
  (forall f t s,
     getMember d "postingFrequencyNorm" = Some f ->
     getMember d "trendSlopeNorm" = Some t ->
     getMember d "salaryIndexNorm" = Some s ->
     normalised f -> normalised t -> normalised s ->
     exists z, computeDemandScore toNumberOther d = Num (ofZ z) /\ (0 <= z <= 100)%Z /\
               (truthy f = false -> truthy t = false -> truthy s = false -> z = 0%Z)).
Proof.
  split.
  - unfold computeDemandScore.
    destruct (getMember d "postingFrequencyNorm") as [f|] eqn:Hf.
    2:{ cbn [mbind option_bind]. split; [|reflexivity]. intros _.
        destruct d; try discriminate Hf; auto. }
    assert (Hmember : forall key, exists v, getMember d key = Some v).
    { intros key. destruct d; try discriminate Hf; cbn; eauto. }
    destruct (Hmember "trendSlopeNorm") as [t Ht].
    destruct (Hmember "salaryIndexNorm") as [s Hs].
    rewrite Ht, Hs. cbn [mbind option_bind].
    pose proof (numberOrZero_raises toNumberOther f) as Rf.
    pose proof (numberOrZero_raises toNumberOther t) as Rt.
    pose proof (numberOrZero_raises toNumberOther s) as Rs.
    assert (Hraise : forall key v, getMember d key = Some v ->
              key ∈ ["postingFrequencyNorm"; "trendSlopeNorm"; "salaryIndexNorm"] ->
              v = f \/ v = t \/ v = s).
    { intros key v Hv Hkey.
      repeat (apply elem_of_cons in Hkey as [->|Hkey]; [rewrite Hv in *; intuition congruence|]).
      now apply not_elem_of_nil in Hkey. }
    destruct (numberOrZero toNumberOther f) as [freq|]; cbn [mbind option_bind].
    2:{ split; [|reflexivity]. intros _. right. right.
        exists "postingFrequencyNorm", f.
        split; [left|]. split; [exact Hf|]. now apply Rf. }
    destruct (numberOrZero toNumberOther t) as [trend|]; cbn [mbind option_bind].
    2:{ split; [|reflexivity]. intros _. right. right.
        exists "trendSlopeNorm", t.
        split; [right; left|]. split; [exact Ht|]. now apply Rt. }
    destruct (numberOrZero toNumberOther s) as [salary|]; cbn [mbind option_bind].
    2:{ split; [|reflexivity]. intros _. right. right.
        exists "salaryIndexNorm", s.
        split; [right; right; left|]. split; [exact Hs|]. now apply Rs. }
    split; [discriminate|].
    intros [-> | [-> | (key & v & Hkey & Hv & Htruthy & Hnone)]];
      [discriminate Hf | discriminate Hf |].
    destruct (Hraise key v Hv Hkey) as [-> | [-> | ->]].
    + assert (H : Some freq = None) by (apply Rf; auto). discriminate H.
    + assert (H : Some trend = None) by (apply Rt; auto). discriminate H.
    + assert (H : Some salary = None) by (apply Rs; auto). discriminate H.
  - intros f t s Hf Ht Hs Nf Nt Ns. unfold computeDemandScore. rewrite Hf, Ht, Hs.
    cbn [mbind option_bind].
    destruct (numberOrZero_unit toNumberOther f Nf) as (qf & Ef & Hqf).
    destruct (numberOrZero_unit toNumberOther t Nt) as (qt & Et & Hqt).
    destruct (numberOrZero_unit toNumberOther s Ns) as (qs & Es & Hqs).
    rewrite Ef, Et, Es. cbn [mbind option_bind scale addNumber Orchestrator.roundNumber].
    set (score := (100 * ((45 # 100) * qf + (35 # 100) * qt + (20 # 100) * qs))%Q).
    exists (Qfloor (score + (1 # 2))). split; [reflexivity|].
    assert (Hscore : (0 <= score <= 100)%Q) by (unfold score; split; Lqa.lra).
    split; [split|].
    + change 0%Z with (Qfloor 0). apply Qfloor_resp_le. Lqa.lra.
    + change 100%Z with (Qfloor (100 + (1 # 2))). apply Qfloor_resp_le. Lqa.lra.
    + intros Ff Ft Fs. unfold numberOrZero in Ef, Et, Es. rewrite Ff in Ef.
      rewrite Ft in Et. rewrite Fs in Es.
      injection Ef as <-. injection Et as <-. injection Es as <-. reflexivity.
Qed.

Lemma computeDemandScore_range_witness :
  computeDemandScore (fun _ => Some NaN)
    (Obj [("postingFrequencyNorm", Num (Finite (8 # 10)));
          ("trendSlopeNorm", Num (Finite 1%Q))])
  = Num (ofZ 71) /\
  computeDemandScore (fun v => match v with Obj _ => None | _ => Some NaN end)
    (Obj [("salaryIndexNorm", Obj [("toString", Num (ofZ 1))])])
  = Null.
Proof.
  split.
  - destruct (proj2 (computeDemandScore_range (fun _ => Some NaN)
                       (Obj [("postingFrequencyNorm", Num (Finite (8 # 10)));
                             ("trendSlopeNorm", Num (Finite 1%Q))]))
                (Num (Finite (8 # 10))) (Num (Finite 1%Q)) Undefined
                eq_refl eq_refl eq_refl)
      as (z & Hz & _).
    + right. exists (8 # 10). split; [reflexivity|]. split; discriminate.
    + right. exists 1%Q. split; [reflexivity|]. split; discriminate.
    + left. reflexivity.
    + rewrite Hz. vm_compute in Hz. injection Hz as <-. reflexivity.
  - apply (proj1 (computeDemandScore_range
                    (fun v => match v with Obj _ => None | _ => Some NaN end)
                    (Obj [("salaryIndexNorm", Obj [("toString", Num (ofZ 1))])]))).
    right. right.
    exists "salaryIndexNorm", (Obj [("toString", Num (ofZ 1))]).
    split; [right; right; left|]. split; [reflexivity|]. split; reflexivity.
Defined.

End TrendsFacts.
